(** * Feishu Bitable task scripts: a shallow embedding

    The development follows two scripts of the repository:
    - [feishu-bitable-task-fetcher/scripts/fetch_tasks.py] (module [Fetcher]):
      cell normalisation, filter construction, the paginated search loop and
      the task decoder;
    - [feishu-bitable-task-manager-py/scripts/create_tasks.py] (module
      [Manager]): the create-fields builder, the existing-record resolver,
      the existence probe and the batch create dispatch.

    Python values are modelled as they are at run time: text as a list of
    Unicode code points, integers as [Z], floats as binary64 values written
    [m * 2 ^ e], dictionaries as insertion-ordered association lists.
    Exceptions are explicit results; calls to the remote store thread a world
    that records every request issued. *)

From Stdlib Require Import String Ascii DecimalString ZArith List Bool Lia.
Import ListNotations.
Local Open Scope Z_scope.

(* ===================================================================== *)
(** ** Text *)
(* ===================================================================== *)

(** A Python [str]: the sequence of its code points. *)
Definition pystr := list Z.

(** An ASCII literal as Python text. *)
Definition txt (s : string) : pystr :=
  map (fun a => Z.of_N (N_of_ascii a)) (list_ascii_of_string s).

Fixpoint str_eqb (a b : pystr) : bool :=
  match a, b with
  | [], [] => true
  | x :: a', y :: b' => (x =? y) && str_eqb a' b'
  | _, _ => false
  end.

(** [str.isspace] on one code point, as CPython's [_PyUnicode_IsWhitespace]. *)
Definition is_space (c : Z) : bool :=
  ((9 <=? c) && (c <=? 13)) || ((28 <=? c) && (c <=? 32))
  || (c =? 133) || (c =? 160) || (c =? 5760)
  || ((8192 <=? c) && (c <=? 8202))
  || (c =? 8232) || (c =? 8233) || (c =? 8239) || (c =? 8287) || (c =? 12288).

Fixpoint lstrip (s : pystr) : pystr :=
  match s with
  | c :: s' => if is_space c then lstrip s' else s
  | [] => []
  end.

Definition rstrip (s : pystr) : pystr := rev (lstrip (rev s)).

(** [s.strip()] *)
Definition strip (s : pystr) : pystr := rstrip (lstrip s).

(** [raw.split(sep)] on a one-character separator. *)
Fixpoint split_on (sep : Z) (s : pystr) : list pystr :=
  match s with
  | [] => [[]]
  | c :: rest =>
      if c =? sep then [] :: split_on sep rest
      else match split_on sep rest with
           | p :: ps => (c :: p) :: ps
           | [] => [[c]]
           end
  end.

(** [s.strip(chars)] for a set of one character. *)
Fixpoint lstrip_char (c : Z) (s : pystr) : pystr :=
  match s with
  | x :: s' => if x =? c then lstrip_char c s' else s
  | [] => []
  end.

Definition strip_char (c : Z) (s : pystr) : pystr :=
  rev (lstrip_char c (rev (lstrip_char c s))).

(** [sep.join(parts)] *)
Fixpoint join (sep : pystr) (parts : list pystr) : pystr :=
  match parts with
  | [] => []
  | [p] => p
  | p :: rest => p ++ sep ++ join sep rest
  end.

(** Truth value of a text: [bool(s)]. *)
Definition nonempty (s : pystr) : bool :=
  match s with [] => false | _ => true end.

(** [str(n)] for an integer. *)
Definition str_of_int (n : Z) : pystr := txt (NilZero.string_of_int (Z.to_int n)).

(** Lower-case ASCII letters, as the C parser folds them. *)
Definition ascii_lower (c : Z) : Z :=
  if (65 <=? c) && (c <=? 90) then c + 32 else c.

Definition is_digit (c : Z) : bool := (48 <=? c) && (c <=? 57).

(* ===================================================================== *)
(** ** Exceptions *)
(* ===================================================================== *)

(** The exception classes the scripts can meet, with Python's hierarchy. *)
Inductive exn_class : Type :=
| BaseException | KeyboardInterrupt | Exception
| ArithmeticError | OverflowError | ZeroDivisionError
| ValueError | UnicodeDecodeError | UnicodeEncodeError | JSONDecodeError
| RuntimeError | TypeError | AttributeError | KeyError
| OSError | URLError.

Definition exn_class_eqb (a b : exn_class) : bool :=
  match a, b with
  | BaseException, BaseException | KeyboardInterrupt, KeyboardInterrupt
  | Exception, Exception | ArithmeticError, ArithmeticError
  | OverflowError, OverflowError | ZeroDivisionError, ZeroDivisionError
  | ValueError, ValueError | UnicodeDecodeError, UnicodeDecodeError
  | UnicodeEncodeError, UnicodeEncodeError
  | JSONDecodeError, JSONDecodeError | RuntimeError, RuntimeError
  | TypeError, TypeError | AttributeError, AttributeError
  | KeyError, KeyError | OSError, OSError | URLError, URLError => true
  | _, _ => false
  end.

(** The direct base class. *)
Definition base_of (c : exn_class) : option exn_class :=
  match c with
  | BaseException => None
  | KeyboardInterrupt | Exception => Some BaseException
  | ArithmeticError | ValueError | RuntimeError | TypeError
  | AttributeError | KeyError | OSError => Some Exception
  | OverflowError | ZeroDivisionError => Some ArithmeticError
  | UnicodeDecodeError | UnicodeEncodeError | JSONDecodeError => Some ValueError
  | URLError => Some OSError
  end.

Fixpoint is_subclass_fuel (fuel : nat) (c k : exn_class) : bool :=
  exn_class_eqb c k ||
  match fuel with
  | O => false
  | S f => match base_of c with
           | Some b => is_subclass_fuel f b k
           | None => false
           end
  end.

(** [issubclass(c, k)]: what an [except k] clause catches. *)
Definition is_subclass (c k : exn_class) : bool := is_subclass_fuel 4 c k.

Record exn : Type := mkExn { exn_cls : exn_class; exn_msg : pystr }.

(** The outcome of evaluating an expression: a value or a raised exception. *)
Inductive pyresult (A : Type) : Type :=
| Ok (a : A)
| Raise (e : exn).
Arguments Ok {A} a.
Arguments Raise {A} e.

Definition bind {A B} (r : pyresult A) (k : A -> pyresult B) : pyresult B :=
  match r with
  | Ok a => k a
  | Raise e => Raise e
  end.

Declare Scope py_scope.
Delimit Scope py_scope with py.
Notation "x <- c ;; k" := (bind c (fun x => k))
  (at level 61, c at next level, right associativity) : py_scope.
Local Open Scope py_scope.

(** [try: body except cls: handler] *)
Definition try_except {A} (body : pyresult A) (cls : exn_class)
    (handler : exn -> pyresult A) : pyresult A :=
  match body with
  | Ok a => Ok a
  | Raise e => if is_subclass (exn_cls e) cls then handler e else Raise e
  end.

Definition raise {A} (c : exn_class) (msg : string) : pyresult A :=
  Raise (mkExn c (txt msg)).

(** Evaluate a list of computations left to right; the first exception wins. *)
Fixpoint sequence {A} (l : list (pyresult A)) : pyresult (list A) :=
  match l with
  | [] => Ok []
  | r :: rest => a <- r ;; t <- sequence rest ;; Ok (a :: t)
  end.

(* ===================================================================== *)
(** ** Floats

    A Python [float] is an IEEE 754 binary64 value. A finite one is written
    [(-1)^neg * m * 2^e] with [0 <= m]. *)
(* ===================================================================== *)

Inductive pyfloat : Type :=
| FNan
| FInf (neg : bool)
| FFin (neg : bool) (m e : Z).

(** Nearest integer to [num / den], ties to even ([0 <= num], [0 < den]). *)
Definition round_half_even (num den : Z) : Z :=
  let q := num / den in
  let r := num mod den in
  match 2 * r ?= den with
  | Lt => q
  | Gt => q + 1
  | Eq => if Z.even q then q else q + 1
  end.

(** [q * 2^k <= p] for any sign of [k]. *)
Definition pow2_le (p q k : Z) : bool :=
  if 0 <=? k then q * 2 ^ k <=? p else q <=? p * 2 ^ (- k).

(** The exponent [e] with [2^52 <= (p/q) / 2^e < 2^53], not below that of the
    subnormals ([0 < p], [0 < q]). *)
Definition binary64_exponent (p q : Z) : Z :=
  let k := Z.log2 p - Z.log2 q in
  let fl := if pow2_le p q k then k else k - 1 in
  Z.max (fl - 52) (-1074).

(** The binary64 value nearest to [p / q] ([0 <= p], [0 < q]); [None] when it
    lies beyond the largest finite value. *)
Definition round_binary64 (neg : bool) (p q : Z) : option pyfloat :=
  if p =? 0 then Some (FFin neg 0 0)
  else
    let e := binary64_exponent p q in
    let m := if 0 <=? e then round_half_even p (q * 2 ^ e)
             else round_half_even (p * 2 ^ (- e)) q in
    let e' := if m =? 2 ^ 53 then e + 1 else e in
    let m' := if m =? 2 ^ 53 then 2 ^ 52 else m in
    if 971 <? e' then None else Some (FFin neg m' e').

(** [a / b] on two integers: the correctly rounded quotient. *)
Definition int_truediv (a b : Z) : pyresult pyfloat :=
  if b =? 0 then raise ZeroDivisionError "division by zero"
  else match round_binary64 (xorb (a <? 0) (b <? 0)) (Z.abs a) (Z.abs b) with
       | Some f => Ok f
       | None => raise OverflowError "integer division result too large for a float"
       end.

(** [int(x)] on a float: truncation toward zero. *)
Definition int_of_float (x : pyfloat) : pyresult Z :=
  match x with
  | FNan => raise ValueError "cannot convert float NaN to integer"
  | FInf _ => raise OverflowError "cannot convert float infinity to integer"
  | FFin neg m e =>
      let a := if 0 <=? e then m * 2 ^ e else m / 2 ^ (- e) in
      Ok (if neg then - a else a)
  end.

(** [x.is_integer()] *)
Definition is_integer (x : pyfloat) : bool :=
  match x with
  | FFin _ m e => (0 <=? e) || (m mod 2 ^ (- e) =? 0)
  | _ => false
  end.

(** [bool(x)] on a float. *)
Definition float_truthy (x : pyfloat) : bool :=
  match x with
  | FFin _ m _ => negb (m =? 0)
  | _ => true
  end.

(** *** [float(text)]

    CPython first maps the text to ASCII (Unicode spaces to a blank, Unicode
    decimal digits to ASCII digits, anything else outside ASCII to [?]),
    strips C white space, checks the underscores and then reads a sign
    followed by [inf], [infinity], [nan] or a decimal literal. *)

(** The zero of every run of ten Unicode decimal digits (category Nd). *)
Definition decimal_zeros : list Z :=
  [48; 1632; 1776; 1984; 2406; 2534; 2662; 2790; 2918; 3046; 3174; 3302;
   3430; 3558; 3664; 3792; 3872; 4160; 4240; 6112; 6160; 6470; 6608; 6784;
   6800; 6992; 7088; 7232; 7248; 42528; 43216; 43264; 43472; 43504; 43600;
   44016; 65296; 66720; 68912; 69734; 69872; 69942; 70096; 70384; 70736;
   70864; 71248; 71360; 71472; 71904; 72016; 72784; 73040; 73120; 73552;
   92768; 92864; 93008; 120782; 120792; 120802; 120812; 120822; 123200;
   123632; 124144; 125264; 130032].

Definition decimal_value (c : Z) : option Z :=
  match find (fun z => (z <=? c) && (c <=? z + 9)) decimal_zeros with
  | Some z => Some (c - z)
  | None => None
  end.

Definition to_ascii_digit_or_space (c : Z) : Z :=
  if c <? 127 then c
  else if is_space c then 32
  else match decimal_value c with
       | Some d => 48 + d
       | None => 63
       end.

Definition c_isspace (c : Z) : bool := (c =? 32) || ((9 <=? c) && (c <=? 13)).

Fixpoint c_lstrip (s : pystr) : pystr :=
  match s with
  | c :: s' => if c_isspace c then c_lstrip s' else s
  | [] => []
  end.

Definition c_strip (s : pystr) : pystr := rev (c_lstrip (rev (c_lstrip s))).

(** An underscore may only stand between two digits. *)
Fixpoint underscores_ok (prev : Z) (s : pystr) : bool :=
  match s with
  | [] => negb (prev =? 95)
  | c :: r =>
      (if c =? 95 then is_digit prev
       else negb (prev =? 95) || is_digit c)
      && underscores_ok c r
  end.

Fixpoint span_digits (s : pystr) : pystr * pystr :=
  match s with
  | c :: r =>
      if is_digit c then let '(d, t) := span_digits r in (c :: d, t)
      else ([], s)
  | [] => ([], [])
  end.

Definition digits_value (d : pystr) : Z :=
  fold_left (fun acc c => acc * 10 + (c - 48)) d 0.

Definition take_sign (s : pystr) : bool * pystr :=
  match s with
  | 45 :: r => (true, r)
  | 43 :: r => (false, r)
  | _ => (false, s)
  end.

(** The exponent part [e[+-]digits]; without digits nothing is consumed. *)
Definition take_exponent (s : pystr) : Z * pystr :=
  match s with
  | c :: r =>
      if (c =? 101) || (c =? 69) then
        let '(neg, r1) := take_sign r in
        let '(d, t) := span_digits r1 in
        match d with
        | [] => (0, s)
        | _ => (if neg then - digits_value d else digits_value d, t)
        end
      else (0, s)
  | [] => (0, s)
  end.

(** The binary64 value of [d * 10^k], overflow giving an infinity. *)
Definition decimal_to_float (neg : bool) (d k : Z) : pyfloat :=
  let r := if 0 <=? k then round_binary64 neg (d * 10 ^ k) 1
           else round_binary64 neg d (10 ^ (- k)) in
  match r with
  | Some f => f
  | None => FInf neg
  end.

Definition parse_float_ascii (s : pystr) : option pyfloat :=
  let '(neg, body) := take_sign s in
  let low := map ascii_lower body in
  if str_eqb low (txt "inf") || str_eqb low (txt "infinity") then Some (FInf neg)
  else if str_eqb low (txt "nan") then Some FNan
  else
    let '(ip, r1) := span_digits body in
    let '(fp, r2) := match r1 with
                     | 46 :: r => span_digits r
                     | _ => ([], r1)
                     end in
    match ip ++ fp with
    | [] => None
    | ds =>
        let '(ex, r3) := take_exponent r2 in
        match r3 with
        | [] => Some (decimal_to_float neg (digits_value ds)
                        (ex - Z.of_nat (length fp)))
        | _ => None
        end
    end.

(** [float(s)] on a text. *)
Definition float_of_str (s : pystr) : pyresult pyfloat :=
  let a := c_strip (map to_ascii_digit_or_space s) in
  if underscores_ok 0 a then
    match parse_float_ascii (filter (fun c => negb (c =? 95)) a) with
    | Some f => Ok f
    | None => raise ValueError "could not convert string to float"
    end
  else raise ValueError "could not convert string to float".

(** *** [repr(x)]: the shortest decimal text that reads back as [x] *)

Definition pow10_le (p q t : Z) : bool :=
  if 0 <=? t then q * 10 ^ t <=? p else q <=? p * 10 ^ (- t).

Fixpoint log10_down (fuel : nat) (p q t : Z) : Z :=
  match fuel with
  | O => t
  | S f => if pow10_le p q t then t else log10_down f p q (t - 1)
  end.

(** [floor (log10 (p / q))] for positive [p], [q]. *)
Definition floor_log10 (p q : Z) : Z :=
  log10_down 8 p q ((Z.log2 p - Z.log2 q + 1) * 30103 / 100000 + 2).

Definition reads_back (c k m e : Z) : bool :=
  match decimal_to_float false c k with
  | FFin _ m' e' => (m' =? m) && (e' =? e)
  | _ => false
  end.

(** Among the two [n]-digit decimals around [p / q], the one that reads back
    as [m * 2^e]; the nearer when both do. *)
Definition shortest_candidate (m e p q d10 n : Z) : option (Z * Z) :=
  let k := d10 - n + 1 in
  let num := if 0 <=? k then p else p * 10 ^ (- k) in
  let den := if 0 <=? k then q * 10 ^ k else q in
  let lo := num / den in
  let r := num mod den in
  let hi := lo + 1 in
  match reads_back lo k m e, reads_back hi k m e with
  | true, true =>
      match 2 * r ?= den with
      | Lt => Some (lo, k)
      | Gt => Some (hi, k)
      | Eq => Some (if Z.even lo then lo else hi, k)
      end
  | true, false => Some (lo, k)
  | false, true => Some (hi, k)
  | false, false => None
  end.

Fixpoint first_candidate (m e p q d10 : Z) (ns : list Z) : option (Z * Z) :=
  match ns with
  | [] => None
  | n :: rest =>
      match shortest_candidate m e p q d10 n with
      | Some c => Some c
      | None => first_candidate m e p q d10 rest
      end
  end.

Fixpoint drop_trailing_zeros (rev_digits : pystr) : pystr :=
  match rev_digits with
  | 48 :: r => drop_trailing_zeros r
  | _ => rev_digits
  end.

Definition zeros (n : Z) : pystr := repeat 48 (Z.to_nat n).

(** The text of the digits [ds] read as [0.ds * 10^decpt]. *)
Definition format_short (ds : pystr) (decpt : Z) : pystr :=
  let n := Z.of_nat (length ds) in
  if (decpt <=? -4) || (16 <? decpt) then
    let ex := decpt - 1 in
    let mant := match ds with
                | d :: [] => [d]
                | d :: rest => d :: 46 :: rest
                | [] => []
                end in
    let exd := str_of_int (Z.abs ex) in
    mant ++ [101] ++ (if ex <? 0 then [45] else [43])
         ++ (if Z.abs ex <? 10 then 48 :: exd else exd)
  else if decpt <=? 0 then txt "0." ++ zeros (- decpt) ++ ds
  else if decpt <? n then
    firstn (Z.to_nat decpt) ds ++ [46] ++ skipn (Z.to_nat decpt) ds
  else ds ++ zeros (decpt - n) ++ txt ".0".

Definition float_repr (x : pyfloat) : pystr :=
  match x with
  | FNan => txt "nan"
  | FInf neg => if neg then txt "-inf" else txt "inf"
  | FFin neg m e =>
      let sign := if neg then [45] else [] in
      if m <=? 0 then sign ++ txt "0.0"
      else
        let p := if 0 <=? e then m * 2 ^ e else m in
        let q := if 0 <=? e then 1 else 2 ^ (- e) in
        match round_binary64 false p q with
        | Some (FFin _ m' e') =>
            let d10 := floor_log10 p q in
            match first_candidate m' e' p q d10
                    [1;2;3;4;5;6;7;8;9;10;11;12;13;14;15;16;17] with
            | Some (c, k) =>
                let ds := str_of_int c in
                sign ++ format_short (rev (drop_trailing_zeros (rev ds)))
                          (Z.of_nat (length ds) + k)
            | None => sign ++ txt "inf"
            end
        | _ => sign ++ txt "inf"
        end
  end.

(* ===================================================================== *)
(** ** Values *)
(* ===================================================================== *)

(** A Python object as the scripts meet it: what [json.loads] produces, plus
    [bytes] and objects of any other class, for which [VOther] keeps the text
    [str()] gives. A [dict] keeps its insertion order; its keys are texts. *)
#[warnings="-register-all"]
Inductive value : Type :=
| VNone
| VBool (b : bool)
| VInt (n : Z)
| VFloat (x : pyfloat)
| VStr (s : pystr)
| VBytes (b : list Z)
| VList (items : list value)
| VDict (entries : list (pystr * value))
| VOther (text : pystr).

Definition dict (A : Type) : Type := list (pystr * A).

(** [d.get(k)] *)
Fixpoint dict_get {A} (d : dict A) (k : pystr) : option A :=
  match d with
  | [] => None
  | (k', v) :: rest => if str_eqb k' k then Some v else dict_get rest k
  end.

(** [k in d] *)
Definition dict_has {A} (d : dict A) (k : pystr) : bool :=
  match dict_get d k with Some _ => true | None => false end.

(** [d[k] = v]: an existing key keeps its place. *)
Fixpoint dict_set {A} (d : dict A) (k : pystr) (v : A) : dict A :=
  match d with
  | [] => [(k, v)]
  | (k', v') :: rest =>
      if str_eqb k' k then (k', v) :: rest else (k', v') :: dict_set rest k v
  end.

(** [d.get(k)] on a dict of objects, an absent key giving [None]. *)
Definition get_value (d : dict value) (k : pystr) : value :=
  match dict_get d k with Some v => v | None => VNone end.

Inductive pytype : Type :=
| TNoneType | TBool | TInt | TFloat | TStr | TBytes | TList | TDict | TObject.

Definition type_of (v : value) : pytype :=
  match v with
  | VNone => TNoneType
  | VBool _ => TBool
  | VInt _ => TInt
  | VFloat _ => TFloat
  | VStr _ => TStr
  | VBytes _ => TBytes
  | VList _ => TList
  | VDict _ => TDict
  | VOther _ => TObject
  end.

(** [isinstance(v, t)]; [bool] is a subclass of [int]. *)
Definition isinstance (v : value) (t : pytype) : bool :=
  match type_of v, t with
  | TNoneType, TNoneType | TBool, TBool | TBool, TInt | TInt, TInt
  | TFloat, TFloat | TStr, TStr | TBytes, TBytes | TList, TList
  | TDict, TDict | TObject, TObject => true
  | _, _ => false
  end.

(** [bool(v)] *)
Definition truthy (v : value) : bool :=
  match v with
  | VNone => false
  | VBool b => b
  | VInt n => negb (n =? 0)
  | VFloat x => float_truthy x
  | VStr s => nonempty s
  | VBytes b => match b with [] => false | _ => true end
  | VList l => match l with [] => false | _ => true end
  | VDict d => match d with [] => false | _ => true end
  | VOther _ => true
  end.

(** [a or b] *)
Definition py_or (a b : value) : value := if truthy a then a else b.

(** [str(v)] for the scalars the normaliser converts this way. *)
Definition py_str (v : value) : pystr :=
  match v with
  | VNone => txt "None"
  | VBool b => if b then txt "True" else txt "False"
  | VInt n => str_of_int n
  | VFloat x => float_repr x
  | VStr s => s
  | VOther t => t
  | _ => []
  end.

(** [b.decode("utf-8")], strict: one code point from the head of [b]. *)
Definition cont (b : Z) : bool := (128 <=? b) && (b <=? 191).

Definition undecodable {A} : pyresult A :=
  raise UnicodeDecodeError "'utf-8' codec can't decode bytes".

Fixpoint decode_utf8 (b : list Z) : pyresult pystr :=
  match b with
  | [] => Ok []
  | b0 :: r0 =>
      if (0 <=? b0) && (b0 <? 128) then s <- decode_utf8 r0 ;; Ok (b0 :: s)
      else
        match r0 with
        | [] => undecodable
        | b1 :: r1 =>
            if (194 <=? b0) && (b0 <=? 223) then
              if cont b1 then
                s <- decode_utf8 r1 ;; Ok (((b0 - 192) * 64 + (b1 - 128)) :: s)
              else undecodable
            else
              match r1 with
              | [] => undecodable
              | b2 :: r2 =>
                  if (224 <=? b0) && (b0 <=? 239) then
                    if ((if b0 =? 224 then 160 <=? b1 else 128 <=? b1)
                        && (if b0 =? 237 then b1 <=? 159 else b1 <=? 191)
                        && cont b2)
                    then
                      s <- decode_utf8 r2 ;;
                      Ok (((b0 - 224) * 4096 + (b1 - 128) * 64 + (b2 - 128)) :: s)
                    else undecodable
                  else
                    match r2 with
                    | [] => undecodable
                    | b3 :: r3 =>
                        if ((240 <=? b0) && (b0 <=? 244)
                            && (if b0 =? 240 then 144 <=? b1 else 128 <=? b1)
                            && (if b0 =? 244 then b1 <=? 143 else b1 <=? 191)
                            && cont b2 && cont b3)
                        then
                          s <- decode_utf8 r3 ;;
                          Ok (((b0 - 240) * 262144 + (b1 - 128) * 4096
                               + (b2 - 128) * 64 + (b3 - 128)) :: s)
                        else undecodable
                    end
              end
        end
  end.

(** [s.encode("utf-8")], strict: a surrogate has no encoding. *)
Definition encode_utf8_char (c : Z) : option (list Z) :=
  if (0 <=? c) && (c <? 128) then Some [c]
  else if (128 <=? c) && (c <? 2048) then Some [192 + c / 64; 128 + c mod 64]
  else if (2048 <=? c) && (c <? 65536) then
    if (55296 <=? c) && (c <=? 57343) then None
    else Some [224 + c / 4096; 128 + (c / 64) mod 64; 128 + c mod 64]
  else if (65536 <=? c) && (c <? 1114112) then
    Some [240 + c / 262144; 128 + (c / 4096) mod 64; 128 + (c / 64) mod 64;
          128 + c mod 64]
  else None.

(** [urllib.parse.quote_plus(s)] *)
Definition url_safe (c : Z) : bool :=
  ((65 <=? c) && (c <=? 90)) || ((97 <=? c) && (c <=? 122)) || is_digit c
  || (c =? 95) || (c =? 46) || (c =? 45) || (c =? 126).

Definition upper_hex (n : Z) : Z := if n <? 10 then 48 + n else 55 + n.

Fixpoint quote_plus (s : pystr) : pyresult pystr :=
  match s with
  | [] => Ok []
  | c :: rest =>
      if url_safe c then t <- quote_plus rest ;; Ok (c :: t)
      else if c =? 32 then t <- quote_plus rest ;; Ok (43 :: t)
      else
        match encode_utf8_char c with
        | Some bytes =>
            t <- quote_plus rest ;;
            Ok (flat_map (fun b => [37; upper_hex (b / 16); upper_hex (b mod 16)])
                  bytes ++ t)
        | None => raise UnicodeEncodeError "'utf-8' codec can't encode character"
        end
  end.

(** *** [json.dumps(obj, ensure_ascii=False)] *)

Definition hex_digit (n : Z) : Z := if n <? 10 then 48 + n else 87 + n.

Definition json_escape_char (c : Z) : pystr :=
  if c =? 34 then [92; 34]
  else if c =? 92 then [92; 92]
  else if c =? 10 then [92; 110]
  else if c =? 13 then [92; 114]
  else if c =? 9 then [92; 116]
  else if c =? 8 then [92; 98]
  else if c =? 12 then [92; 102]
  else if (0 <=? c) && (c <? 32) then
    [92; 117; 48; 48; hex_digit (c / 16); hex_digit (c mod 16)]
  else [c].

Definition json_string (s : pystr) : pystr :=
  [34] ++ flat_map json_escape_char s ++ [34].

Definition json_float (x : pyfloat) : pystr :=
  match x with
  | FNan => txt "NaN"
  | FInf neg => if neg then txt "-Infinity" else txt "Infinity"
  | _ => float_repr x
  end.

Definition not_serializable {A} : pyresult A :=
  raise TypeError "Object is not JSON serializable".

Fixpoint json_dumps (v : value) : pyresult pystr :=
  match v with
  | VNone => Ok (txt "null")
  | VBool b => Ok (if b then txt "true" else txt "false")
  | VInt n => Ok (str_of_int n)
  | VFloat x => Ok (json_float x)
  | VStr s => Ok (json_string s)
  | VBytes _ => not_serializable
  | VList items =>
      parts <- sequence (map json_dumps items) ;;
      Ok (txt "[" ++ join (txt ", ") parts ++ txt "]")
  | VDict entries =>
      parts <- sequence
                 (map (fun kv => t <- json_dumps (snd kv) ;;
                                 Ok (json_string (fst kv) ++ txt ": " ++ t))
                      entries) ;;
      Ok (txt "{" ++ join (txt ", ") parts ++ txt "}")
  | VOther _ => not_serializable
  end.

(* ===================================================================== *)
(** ** The remote store

    Responses follow the store's contract
    [{code, msg, data: {items, has_more, page_token}}], every member
    optional; a row is [{record_id, fields}]. *)
(* ===================================================================== *)

Record row : Type := mkRow {
  record_id : option pystr;
  row_fields : option (dict value)
}.

Record page_data : Type := mkData {
  data_items : option (list row);
  data_has_more : option bool;
  data_page_token : option pystr
}.

Record response : Type := mkResp {
  resp_code : option Z;
  resp_msg : option pystr;
  resp_data : option page_data
}.

Record request : Type := mkReq {
  req_method : pystr;
  req_url : pystr;
  req_token : option pystr;
  req_payload : option value
}.

Record BitableRef : Type := mkRef {
  raw_url : pystr;
  app_token : pystr;
  table_id : pystr;
  view_id : pystr;
  wiki_token : pystr
}.

(** [f"{x}"] for an optional integer or text: an absent member prints as
    [None]. *)
Definition fmt_int (c : option Z) : pystr :=
  match c with Some n => str_of_int n | None => txt "None" end.
Definition fmt_str (m : option pystr) : pystr :=
  match m with Some t => t | None => txt "None" end.

(** [resp.get("code") != 0] *)
Definition code_not_zero (resp : response) : bool :=
  match resp_code resp with
  | Some c => negb (c =? 0)
  | None => true
  end.

(** The world a script runs in: the state of the store behind the transport,
    and the journal of the calls made so far with their outcomes. *)
Record world (St : Type) : Type := mkWorld {
  store : St;
  journal : list (request * pyresult response)
}.
Arguments mkWorld {St} _ _.
Arguments store {St} _.
Arguments journal {St} _.

(** A computation that may call the store. *)
Definition remote (St A : Type) : Type := world St -> pyresult A * world St.

Definition ret {St A} (a : A) : remote St A := fun w => (Ok a, w).
Definition throw {St A} (e : exn) : remote St A := fun w => (Raise e, w).
Definition lift {St A} (r : pyresult A) : remote St A := fun w => (r, w).

Definition rbind {St A B} (c : remote St A) (k : A -> remote St B) : remote St B :=
  fun w => match c w with
           | (Ok a, w') => k a w'
           | (Raise e, w') => (Raise e, w')
           end.

Declare Scope remote_scope.
Delimit Scope remote_scope with remote.
Notation "x <~ c ;; k" := (rbind c (fun x => k))
  (at level 61, c at next level, right associativity) : remote_scope.

(** [try: body except cls: handler] around a computation that calls the store. *)
Definition rtry {St A} (body : remote St A) (cls : exn_class)
    (handler : exn -> remote St A) : remote St A :=
  fun w => match body w with
           | (Ok a, w') => (Ok a, w')
           | (Raise e, w') =>
               if is_subclass (exn_cls e) cls then handler e w' else (Raise e, w')
           end.

(** [request_json(method, url, token, payload)] over a transport [send]: one
    round trip, entered in the journal whatever its outcome. *)
Definition request_json {St} (send : St -> request -> pyresult response * St)
    (method url : pystr) (token : option pystr) (payload : option value)
    : remote St response :=
  fun w =>
    let req := mkReq method url token payload in
    let '(r, s') := send (store w) req in
    (r, mkWorld s' (journal w ++ [(req, r)])).

(* ===================================================================== *)
(** ** fetch_tasks.py *)
(* ===================================================================== *)

Module Fetcher.

Definition DEFAULT_PAGE_SIZE : Z := 200.
Definition MAX_PAGE_SIZE : Z := 500.

Definition clamp_page_size (size : Z) : Z :=
  if size <=? 0 then DEFAULT_PAGE_SIZE
  else if size >? MAX_PAGE_SIZE then MAX_PAGE_SIZE
  else size.

(** *** The table reference *)

(** [for i in range(len(segments) - 1)]: the segment after [base] is the
    app token and ends the loop, the segment after [wiki] the wiki token. *)
Fixpoint scan_segments (segments : list pystr) (app_token wiki_token : pystr)
    : pystr * pystr :=
  match segments with
  | segment :: ((next :: _) as rest) =>
      let app_token := if str_eqb segment (txt "base") then next
                       else app_token in
      let wiki_token := if str_eqb segment (txt "base") then wiki_token
                        else if str_eqb segment (txt "wiki") then next
                        else wiki_token in
      if nonempty app_token then (app_token, wiki_token)
      else scan_segments rest app_token wiki_token
  | _ => (app_token, wiki_token)
  end.

(** [for val in vals: if val and val.strip(): return val.strip()] *)
Fixpoint first_stripped (vals : list pystr) : option pystr :=
  match vals with
  | [] => None
  | val :: rest =>
      if nonempty val && nonempty (strip val) then Some (strip val)
      else first_stripped rest
  end.

Fixpoint first_query_value (qs : dict (list pystr)) (keys : list pystr)
    : pystr :=
  match keys with
  | [] => []
  | key :: rest =>
      match first_stripped (match dict_get qs key with
                            | Some vals => vals
                            | None => []
                            end) with
      | Some val => val
      | None => first_query_value qs rest
      end
  end.

Section Url.
(** [urllib.parse.urlparse], as the scheme, the path and the query of its
    result, and [urllib.parse.parse_qs] stay outside the model. *)
Variable urlparse : pystr -> pystr * pystr * pystr.
Variable parse_qs : pystr -> dict (list pystr).

(** [[s for s in u.path.strip("/").split("/") if s]] *)
Definition path_segments (path : pystr) : list pystr :=
  filter nonempty (split_on 47 (strip_char 47 path)).

Definition parse_bitable_url (raw : pystr) : pyresult BitableRef :=
  let raw := strip raw in
  if negb (nonempty raw) then raise ValueError "bitable url is empty"
  else
    let '(scheme, path, query) := urlparse raw in
    if negb (nonempty scheme) then raise ValueError "bitable url missing scheme"
    else
      let segments := path_segments path in
      let '(app_token, wiki_token) := scan_segments segments [] [] in
      let app_token :=
        if negb (nonempty app_token) && negb (nonempty wiki_token) then
          match segments with
          | [] => app_token
          | _ => last segments []
          end
        else app_token in
      let qs := parse_qs query in
      let table_id :=
        first_query_value qs [txt "table"; txt "tableId"; txt "table_id"] in
      let view_id :=
        first_query_value qs [txt "view"; txt "viewId"; txt "view_id"] in
      if negb (nonempty table_id) then
        raise ValueError "missing table_id in bitable url query"
      else Ok (mkRef raw app_token table_id view_id wiki_token).
End Url.

(** *** The value normaliser *)

Section Normaliser.
(** The recursive calls of [normalize_bitable_value], as the helpers below
    make them on the members of a list or a dict. *)
Variable normalize : value -> pyresult pystr.

(** [normalize(obj[key])] when [key in obj]. *)
Fixpoint normalize_at (obj : dict value) (key : pystr)
    : option (pyresult pystr) :=
  match obj with
  | [] => None
  | (k, v) :: rest =>
      if str_eqb k key then Some (normalize v) else normalize_at rest key
  end.

(** [normalize(obj.get(key))]: an absent key reads as [None], whose
    normal form is the empty text. *)
Definition normalize_get (obj : dict value) (key : pystr) : pyresult pystr :=
  match normalize_at obj key with
  | Some r => r
  | None => Ok []
  end.

(** [for key in keys: if key in obj: text = normalize(obj[key]);
    if text: return text], then [otherwise]. *)
Fixpoint first_present (obj : dict value) (keys : list pystr)
    (otherwise : pyresult pystr) : pyresult pystr :=
  match keys with
  | [] => otherwise
  | key :: rest =>
      match normalize_at obj key with
      | Some r =>
          text <- r ;;
          if nonempty text then Ok text else first_present obj rest otherwise
      | None => first_present obj rest otherwise
      end
  end.

(** [for key in keys: val = normalize(obj.get(key)); if val: return val],
    then [otherwise]. *)
Fixpoint first_nonempty (obj : dict value) (keys : list pystr)
    (otherwise : pyresult pystr) : pyresult pystr :=
  match keys with
  | [] => otherwise
  | key :: rest =>
      val <- normalize_get obj key ;;
      if nonempty val then Ok val else first_nonempty obj rest otherwise
  end.

(** [isinstance(obj.get("text"), str) and obj["text"].strip()] *)
Definition own_text (obj : dict value) : option pystr :=
  match dict_get obj (txt "text") with
  | Some (VStr t) => if nonempty (strip t) then Some (strip t) else None
  | _ => None
  end.

(** [try: return json.dumps(obj, ensure_ascii=False)
    except Exception: return ""] *)
Definition dump_or_empty (obj : dict value) : pyresult pystr :=
  try_except (json_dumps (VDict obj)) Exception (fun _ => Ok []).

Definition geo_keys : list pystr :=
  [txt "address"; txt "location"; txt "pname"; txt "cityname"; txt "adname"].

Definition normalize_bitable_object_with (obj : dict value) : pyresult pystr :=
  match obj with
  | [] => Ok []
  | _ =>
    first_present obj
      [txt "value"; txt "values"; txt "elements"; txt "content"]
      match own_text obj with
      | Some t => Ok t
      | None =>
        first_nonempty obj
          [txt "link"; txt "name"; txt "en_name"; txt "email"; txt "id";
           txt "user_id"; txt "url"; txt "tmp_url"; txt "file_token"]
          (if existsb (dict_has obj) geo_keys then
             parts <- sequence
                        [normalize_get obj (txt "location");
                         normalize_get obj (txt "pname");
                         normalize_get obj (txt "cityname");
                         normalize_get obj (txt "adname")] ;;
             match filter nonempty parts with
             | [] => dump_or_empty obj
             | ps => Ok (join (txt ",") ps)
             end
           else dump_or_empty obj)
      end
  end.

(** [any(isinstance(item, dict) and "text" in item for item in items)] *)
Definition is_rich_text_array (items : list value) : bool :=
  existsb (fun item => match item with
                       | VDict d => dict_has d (txt "text")
                       | _ => false
                       end) items.

(** The parts [join_rich_text] collects, in order. *)
Fixpoint rich_text_parts (items : list value) : pyresult (list pystr) :=
  match items with
  | [] => Ok []
  | item :: rest =>
      match item with
      | VDict d =>
          match own_text d with
          | Some t => parts <- rich_text_parts rest ;; Ok (t :: parts)
          | None =>
              nested_text <- normalize_get d (txt "value") ;;
              parts <- rich_text_parts rest ;;
              Ok (if nonempty nested_text then nested_text :: parts else parts)
          end
      | _ =>
          text <- normalize item ;;
          parts <- rich_text_parts rest ;;
          Ok (if nonempty text then text :: parts else parts)
      end
  end.

Definition join_rich_text_with (items : list value) : pyresult pystr :=
  parts <- rich_text_parts items ;; Ok (join (txt " ") parts).

Definition normalize_bitable_array_with (items : list value) : pyresult pystr :=
  match items with
  | [] => Ok []
  | _ =>
      if is_rich_text_array items then join_rich_text_with items
      else
        parts <- sequence (map normalize items) ;;
        Ok (join (txt ",") (filter nonempty parts))
  end.
End Normaliser.

Definition str_payload (v : value) : pystr :=
  match v with VStr s => s | _ => [] end.
Definition bytes_payload (v : value) : list Z :=
  match v with VBytes b => b | _ => [] end.
Definition float_payload (v : value) : pyfloat :=
  match v with VFloat x => x | _ => FNan end.

Fixpoint normalize_bitable_value (value : value) : pyresult pystr :=
  match value with
  | VNone => Ok []
  | _ =>
    if isinstance value TStr then Ok (strip (str_payload value))
    else if isinstance value TBytes then
      s <- decode_utf8 (bytes_payload value) ;; Ok (strip s)
    else if isinstance value TInt then Ok (py_str value)
    else if isinstance value TFloat then
      if is_integer (float_payload value) then
        n <- int_of_float (float_payload value) ;; Ok (str_of_int n)
      else Ok (py_str value)
    else if isinstance value TBool then
      Ok (if truthy value then txt "true" else txt "false")
    else
      match value with
      | VList items => normalize_bitable_array_with normalize_bitable_value items
      | VDict obj => normalize_bitable_object_with normalize_bitable_value obj
      | _ => Ok (strip (py_str value))
      end
  end.

Definition normalize_bitable_array : list value -> pyresult pystr :=
  normalize_bitable_array_with normalize_bitable_value.
Definition normalize_bitable_object : dict value -> pyresult pystr :=
  normalize_bitable_object_with normalize_bitable_value.
Definition join_rich_text : list value -> pyresult pystr :=
  join_rich_text_with normalize_bitable_value.

Definition bitable_value_to_string (value : value) : pyresult pystr :=
  s <- normalize_bitable_value value ;; Ok (strip s).

(** *** The field map *)

Definition TASK_FIELD_ENV_MAP : list (pystr * pystr) :=
  [(txt "TASK_FIELD_TASKID", txt "TaskID");
   (txt "TASK_FIELD_BIZ_TASK_ID", txt "BizTaskID");
   (txt "TASK_FIELD_PARENT_TASK_ID", txt "ParentTaskID");
   (txt "TASK_FIELD_APP", txt "App");
   (txt "TASK_FIELD_SCENE", txt "Scene");
   (txt "TASK_FIELD_PARAMS", txt "Params");
   (txt "TASK_FIELD_ITEMID", txt "ItemID");
   (txt "TASK_FIELD_BOOKID", txt "BookID");
   (txt "TASK_FIELD_URL", txt "URL");
   (txt "TASK_FIELD_USERID", txt "UserID");
   (txt "TASK_FIELD_USERNAME", txt "UserName");
   (txt "TASK_FIELD_DATE", txt "Date");
   (txt "TASK_FIELD_STATUS", txt "Status");
   (txt "TASK_FIELD_LOGS", txt "Logs");
   (txt "TASK_FIELD_LAST_SCREEN_SHOT", txt "LastScreenShot");
   (txt "TASK_FIELD_GROUPID", txt "GroupID");
   (txt "TASK_FIELD_DEVICE_SERIAL", txt "DeviceSerial");
   (txt "TASK_FIELD_DISPATCHED_DEVICE", txt "DispatchedDevice");
   (txt "TASK_FIELD_DISPATCHED_AT", txt "DispatchedAt");
   (txt "TASK_FIELD_START_AT", txt "StartAt");
   (txt "TASK_FIELD_END_AT", txt "EndAt");
   (txt "TASK_FIELD_ELAPSED_SECONDS", txt "ElapsedSeconds");
   (txt "TASK_FIELD_ITEMS_COLLECTED", txt "ItemsCollected");
   (txt "TASK_FIELD_EXTRA", txt "Extra");
   (txt "TASK_FIELD_RETRYCOUNT", txt "RetryCount")].

(** [env(name, default)] over the process environment [environ]. *)
Definition env (environ : dict pystr) (name default : pystr) : pystr :=
  strip (match dict_get environ name with
         | Some v => v
         | None => default
         end).

Definition load_task_fields_from_env (environ : dict pystr) : dict pystr :=
  fold_left (fun fields ed =>
               let override := env environ (fst ed) [] in
               if nonempty override then dict_set fields (snd ed) override
               else fields)
    TASK_FIELD_ENV_MAP
    (fold_left (fun fields ed => dict_set fields (snd ed) (snd ed))
       TASK_FIELD_ENV_MAP []).

(** *** Field access and the task decoder *)

Definition field_string (fields : dict value) (name : pystr) : pyresult pystr :=
  match fields, name with
  | [], _ | _, [] => Ok []
  | _, _ => bitable_value_to_string (get_value fields name)
  end.

Definition field_int (fields : dict value) (name : pystr) : pyresult Z :=
  raw <- field_string fields name ;;
  if negb (nonempty raw) then Ok 0
  else try_except (x <- float_of_str raw ;; int_of_float x)
         ValueError (fun _ => Ok 0).

(** [mapping[key]] *)
Definition subscript (mapping : dict pystr) (key : pystr) : pyresult pystr :=
  match dict_get mapping key with
  | Some v => Ok v
  | None => Raise (mkExn KeyError key)
  end.

(** The text members of a task: the key of the task dict and the logical
    field it is read from, in the order the dict literal lists them. *)
Definition task_text_fields : list (pystr * pystr) :=
  [(txt "biz_task_id", txt "BizTaskID");
   (txt "parent_task_id", txt "ParentTaskID");
   (txt "app", txt "App");
   (txt "scene", txt "Scene");
   (txt "params", txt "Params");
   (txt "item_id", txt "ItemID");
   (txt "book_id", txt "BookID");
   (txt "url", txt "URL");
   (txt "user_id", txt "UserID");
   (txt "user_name", txt "UserName");
   (txt "date", txt "Date");
   (txt "status", txt "Status");
   (txt "extra", txt "Extra");
   (txt "logs", txt "Logs");
   (txt "last_screenshot", txt "LastScreenShot");
   (txt "group_id", txt "GroupID");
   (txt "device_serial", txt "DeviceSerial");
   (txt "dispatched_device", txt "DispatchedDevice");
   (txt "dispatched_at", txt "DispatchedAt");
   (txt "start_at", txt "StartAt");
   (txt "end_at", txt "EndAt");
   (txt "elapsed_seconds", txt "ElapsedSeconds");
   (txt "items_collected", txt "ItemsCollected");
   (txt "retry_count", txt "RetryCount")].

Definition payload_keys : list pystr :=
  [txt "params"; txt "item_id"; txt "book_id"; txt "url"; txt "user_id";
   txt "user_name"].

Definition decode_task (fields : dict value) (mapping : dict pystr)
    : pyresult (option (dict value)) :=
  match fields with
  | [] => Ok None
  | _ =>
      id_name <- subscript mapping (txt "TaskID") ;;
      task_id <- field_int fields id_name ;;
      if task_id =? 0 then Ok None
      else
        let get name := (n <- subscript mapping name ;; field_string fields n) in
        texts <- sequence
                   (map (fun kn => s <- get (snd kn) ;; Ok (fst kn, VStr s))
                        task_text_fields) ;;
        let task := (txt "task_id", VInt task_id) :: texts in
        if existsb (fun key => truthy (get_value task key)) payload_keys
        then Ok (Some task)
        else Ok None
  end.

(** *** The filter builder *)

(** One condition of a filter: [{"field_name": name, "operator": "is",
    "value": [val]}]. *)
Definition condition (name val : pystr) : value :=
  VDict [(txt "field_name", VStr name); (txt "operator", VStr (txt "is"));
         (txt "value", VList [VStr val])].

(** The inner [add]: what it appends to [conds]. *)
Definition add (fields : dict pystr) (field_key raw : pystr) : list value :=
  let name := strip (match dict_get fields field_key with
                     | Some n => n
                     | None => []
                     end) in
  let val := strip raw in
  if nonempty name && nonempty val then [condition name val] else [].

Definition build_filter (fields : dict pystr) (app scene status date_preset : pystr)
    : option value :=
  let conds :=
    add fields (txt "App") app
    ++ add fields (txt "Scene") scene
    ++ add fields (txt "Status") status
    ++ (if nonempty date_preset && negb (str_eqb date_preset (txt "Any"))
        then add fields (txt "Date") date_preset
        else []) in
  match conds with
  | [] => None
  | _ => Some (VDict [(txt "conjunction", VStr (txt "and"));
                      (txt "conditions", VList conds)])
  end.

(** *** The paginated fetcher *)

Record PageInfo : Type := mkPageInfo {
  has_more : bool;
  next_page_token : pystr;
  pages : Z
}.

Definition or_empty {A} (o : option (list A)) : list A :=
  match o with Some l => l | None => [] end.

Definition or_false (o : option bool) : bool :=
  match o with Some b => b | None => false end.

(** [len(l)] *)
Definition len {A} (l : list A) : Z := Z.of_nat (length l).

(** [l[:n]] for [0 <= n]. *)
Definition upto {A} (n : Z) (l : list A) : list A := firstn (Z.to_nat n) l.

Section Fetch.
Variable St : Type.
Variable send : St -> request -> pyresult response * St.

Local Open Scope remote_scope.

Section Loop.
Variables (base_url token : pystr) (ref : BitableRef) (page_size limit : Z)
          (ignore_view : bool) (view_id : pystr) (filter_obj : option value)
          (max_pages : Z).

(** The body sent with every search. *)
Definition search_body : option value :=
  let with_view := negb ignore_view && nonempty view_id in
  let with_filter := match filter_obj with
                     | Some f => truthy f
                     | None => false
                     end in
  if with_view || with_filter then
    Some (VDict ((if with_view then [(txt "view_id", VStr view_id)] else [])
                 ++ (match filter_obj with
                     | Some f => if truthy f then [(txt "filter", f)] else []
                     | None => []
                     end)))
  else None.

(** [urlencode(query)] *)
Definition search_query (page_token : pystr) : pyresult pystr :=
  (if nonempty page_token then
     t <- quote_plus page_token ;;
     Ok (txt "page_size=" ++ str_of_int page_size ++ txt "&page_token=" ++ t)
   else Ok (txt "page_size=" ++ str_of_int page_size))%py.

Definition search_url (qs : pystr) : pystr :=
  base_url ++ txt "/open-apis/bitable/v1/apps/" ++ app_token ref
  ++ txt "/tables/" ++ table_id ref ++ txt "/records/search?" ++ qs.

(** The [while True] loop: [fuel] bounds the number of iterations, and
    [None] says the bound was reached before the loop stopped. The
    result is the loop's state at its [break]. *)
Fixpoint fetch_loop (fuel : nat) (items : list row) (page_token : pystr)
    (pages : Z) (w : world St)
    : option (pyresult (list row * pystr * Z) * world St) :=
  match fuel with
  | O => None
  | S fuel' =>
      match search_query page_token with
      | Raise e => Some (Raise e, w)
      | Ok qs =>
          match request_json send (txt "POST") (search_url qs) (Some token)
                  search_body w with
          | (Raise e, w1) => Some (Raise e, w1)
          | (Ok resp, w1) =>
              if code_not_zero resp then
                Some (Raise (mkExn RuntimeError
                               (txt "search records failed: code="
                                ++ fmt_int (resp_code resp) ++ txt " msg="
                                ++ fmt_str (resp_msg resp))), w1)
              else
                let data := match resp_data resp with
                            | Some d => d
                            | None => mkData None None None
                            end in
                let batch := or_empty (data_items data) in
                let items := items ++ batch in
                let pages := pages + 1 in
                let has_more := or_false (data_has_more data) in
                let page_token :=
                  strip (match data_page_token data with
                         | Some t => t
                         | None => []
                         end) in
                if (limit >? 0) && (len items >=? limit) then
                  Some (Ok (upto limit items, page_token, pages), w1)
                else if (max_pages >? 0) && (pages >=? max_pages) then
                  Some (Ok (items, page_token, pages), w1)
                else if negb has_more || negb (nonempty page_token) then
                  Some (Ok (items, page_token, pages), w1)
                else fetch_loop fuel' items page_token pages w1
          end
      end
  end.
End Loop.

Definition fetch_records (fuel : nat) (base_url token : pystr)
    (ref : BitableRef) (page_size limit : Z) (ignore_view : bool)
    (view_id : pystr) (filter_obj : option value) (max_pages : Z)
    (w : world St) : option (pyresult (list row * PageInfo) * world St) :=
  let page_size := clamp_page_size page_size in
  let page_size := if (limit >? 0) && (limit <? page_size) then limit
                   else page_size in
  match fetch_loop base_url token ref page_size limit ignore_view view_id
          filter_obj max_pages fuel [] [] 0 w with
  | None => None
  | Some (Raise e, w') => Some (Raise e, w')
  | Some (Ok (items, page_token, pages), w') =>
      Some (Ok (items, mkPageInfo (nonempty page_token) page_token pages), w')
  end.
(** The loop of [main] over the rows fetched. *)
Fixpoint decode_rows (fields : dict pystr) (raw : bool) (items : list row)
    : pyresult (list (dict value)) :=
  match items with
  | [] => Ok []
  | item :: rest =>
      let record_id := strip (match record_id item with
                              | Some r => r
                              | None => []
                              end) in
      let fields_raw := match row_fields item with
                        | Some f => f
                        | None => []
                        end in
      (decoded <- decode_task fields_raw fields ;;
       match decoded with
       | None => decode_rows fields raw rest
       | Some task =>
           let task := dict_set task (txt "record_id") (VStr record_id) in
           let task := if raw
                       then dict_set task (txt "raw_fields") (VDict fields_raw)
                       else task in
           tasks <- decode_rows fields raw rest ;;
           Ok (task :: tasks)
       end)%py
  end.

(** How [main] ends once the token and the reference are at hand: with
    the message it prints to [stderr] and the exit code 2, or with the
    tasks and the page information it prints and the exit code 0. *)
Inductive fetch_outcome : Type :=
| Exit2 (message : pystr)
| Exit0 (tasks : list (dict value)) (page_info : PageInfo).

Definition main_tasks (fuel : nat) (base_url token : pystr)
    (ref : BitableRef) (fields : dict pystr) (filter_obj : option value)
    (page_size limit max_pages : Z) (ignore_view : bool)
    (args_view_id : pystr) (raw : bool) (w : world St)
    : option (pyresult fetch_outcome * world St) :=
  let view_id := if nonempty (strip args_view_id) then strip args_view_id
                 else view_id ref in
  match fetch_records fuel base_url token ref page_size limit ignore_view
          view_id filter_obj max_pages w with
  | None => None
  | Some (Raise e, w') =>
      Some (if is_subclass (exn_cls e) RuntimeError
            then Ok (Exit2 (exn_msg e))
            else Raise e, w')
  | Some (Ok (items, page_info), w') =>
      Some ((tasks <- decode_rows fields raw items ;;
             Ok (Exit0 tasks page_info))%py, w')
  end.
End Fetch.

(** *** The head of [main]: credentials, reference and token *)

Definition DEFAULT_BASE_URL : pystr := txt "https://open.feishu.cn".

(** The replies of the two calls made before the scan, as their call sites
    read them: [{code, msg, tenant_access_token}] and
    [{code, msg, data: {node: {obj_type, obj_token}}}], every member
    optional. *)
Record token_reply : Type := mkTokenReply {
  token_code : option Z;
  token_msg : option pystr;
  tenant_access_token : option pystr
}.

Record wiki_node : Type := mkNode {
  obj_type : option pystr;
  obj_token : option pystr
}.

Record node_data : Type := mkNodeData { node : option wiki_node }.

Record node_reply : Type := mkNodeReply {
  node_code : option Z;
  node_msg : option pystr;
  node_reply_data : option node_data
}.

(** [x or ""] for an optional text. *)
Definition or_blank (o : option pystr) : pystr :=
  match o with Some t => t | None => [] end.

(** [x != 0] for an optional code. *)
Definition not_zero (code : option Z) : bool :=
  match code with
  | Some c => negb (c =? 0)
  | None => true
  end.

Section Head.
Variable St : Type.
(** [request_json] on the two endpoints, a call taking the state of the
    service to the next one. *)
Variable send_token : St -> request -> pyresult token_reply * St.
Variable send_node : St -> request -> pyresult node_reply * St.
Variable urlparse : pystr -> pystr * pystr * pystr.
Variable parse_qs : pystr -> dict (list pystr).

Definition get_tenant_access_token (base_url app_id app_secret : pystr)
    (s : St) : pyresult pystr * St :=
  let url := base_url ++ txt "/open-apis/auth/v3/tenant_access_token/internal" in
  let payload := VDict [(txt "app_id", VStr app_id);
                        (txt "app_secret", VStr app_secret)] in
  match send_token s (mkReq (txt "POST") url None (Some payload)) with
  | (Raise e, s') => (Raise e, s')
  | (Ok resp, s') =>
      if not_zero (token_code resp) then
        (Raise (mkExn RuntimeError
                  (txt "tenant token error: code=" ++ fmt_int (token_code resp)
                   ++ txt " msg=" ++ fmt_str (token_msg resp))), s')
      else
        let token := strip (or_blank (tenant_access_token resp)) in
        if negb (nonempty token) then
          (raise RuntimeError "tenant token missing in response", s')
        else (Ok token, s')
  end.

Definition resolve_wiki_app_token (base_url token wiki_token : pystr)
    (s : St) : pyresult pystr * St :=
  let wiki_token := strip wiki_token in
  if negb (nonempty wiki_token) then
    (raise RuntimeError "wiki token is empty", s)
  else
    let url := base_url ++ txt "/open-apis/wiki/v2/spaces/get_node?token="
               ++ wiki_token in
    match send_node s (mkReq (txt "GET") url (Some token) None) with
    | (Raise e, s') => (Raise e, s')
    | (Ok resp, s') =>
        if not_zero (node_code resp) then
          (Raise (mkExn RuntimeError
                    (txt "wiki node error: code=" ++ fmt_int (node_code resp)
                     ++ txt " msg=" ++ fmt_str (node_msg resp))), s')
        else
          let data := match node_reply_data resp with
                      | Some d => d
                      | None => mkNodeData None
                      end in
          let node := match node data with
                      | Some n => n
                      | None => mkNode None None
                      end in
          let obj_type := strip (or_blank (obj_type node)) in
          let obj_token := strip (or_blank (obj_token node)) in
          if negb (str_eqb obj_type (txt "bitable")) then
            (Raise (mkExn RuntimeError
                      (txt "wiki node obj_type is " ++ obj_type
                       ++ txt ", not bitable")), s')
          else if negb (nonempty obj_token) then
            (raise RuntimeError "wiki node obj_token missing", s')
          else (Ok obj_token, s')
    end.

(** How the head of [main] ends: with a message on [stderr] and the exit
    code 2, or ready for the scan. *)
Inductive head_outcome : Type :=
| HeadExit2 (message : pystr)
| Ready (base_url : pystr) (ref : BitableRef) (token : pystr)
        (fields : dict pystr) (filter_obj : option value).

(** [except RuntimeError as exc: print(str(exc), file=sys.stderr);
    return 2] *)
Definition exit2_on_runtime_error (e : exn) : pyresult head_outcome :=
  if is_subclass (exn_cls e) RuntimeError then Ok (HeadExit2 (exn_msg e))
  else Raise e.

Definition main_head (environ : dict pystr)
    (args_task_url args_app args_scene args_status args_date : pystr)
    (s : St) : pyresult head_outcome * St :=
  let task_url := strip args_task_url in
  if negb (nonempty task_url) then
    (Ok (HeadExit2 (txt "TASK_BITABLE_URL is required")), s)
  else
    let app_id := env environ (txt "FEISHU_APP_ID") [] in
    let app_secret := env environ (txt "FEISHU_APP_SECRET") [] in
    if negb (nonempty app_id) || negb (nonempty app_secret) then
      (Ok (HeadExit2 (txt "FEISHU_APP_ID/FEISHU_APP_SECRET are required")), s)
    else
      let base_url := env environ (txt "FEISHU_BASE_URL") DEFAULT_BASE_URL in
      match parse_bitable_url urlparse parse_qs task_url with
      | Raise e => (Raise e, s)
      | Ok ref =>
          let fields := load_task_fields_from_env environ in
          let filter_obj :=
            build_filter fields args_app args_scene args_status args_date in
          match get_tenant_access_token base_url app_id app_secret s with
          | (Raise e, s1) => (exit2_on_runtime_error e, s1)
          | (Ok token, s1) =>
              if nonempty (app_token ref) then
                (Ok (Ready base_url ref token fields filter_obj), s1)
              else if nonempty (wiki_token ref) then
                match resolve_wiki_app_token base_url token (wiki_token ref)
                        s1 with
                | (Raise e, s2) => (exit2_on_runtime_error e, s2)
                | (Ok app, s2) =>
                    (Ok (Ready base_url
                           (mkRef (raw_url ref) app (table_id ref)
                              (view_id ref) (wiki_token ref))
                           token fields filter_obj), s2)
                end
              else
                (Ok (HeadExit2
                       (txt "bitable URL missing app_token and wiki_token")),
                 s1)
          end
      end.
End Head.

End Fetcher.

(* ===================================================================== *)
(** ** create_tasks.py *)
(* ===================================================================== *)

Module Manager.

Definition MAX_BATCH_SIZE : Z := 500.
Definition MAX_FILTER_VALUES : Z := 50.

(** [APP_GROUP_LABELS]: one alias, whose label is the two code points
    U+5FEB U+624B. *)
Definition APP_GROUP_LABELS : dict pystr :=
  [(txt "com.smile.gifmaker", [24555; 25163])].

(** [range(start, stop, step)] for a positive step. *)
Fixpoint range_from (fuel : nat) (i stop step : nat) : list nat :=
  match fuel with
  | O => []
  | S f => if (i <? stop)%nat then i :: range_from f (i + step) stop step else []
  end.

Definition py_range (start stop step : nat) : list nat :=
  range_from stop start stop step.

(** [l[i:j]] *)
Definition slice {A} (l : list A) (i j : nat) : list A :=
  firstn (j - i) (skipn i l).

Definition chunked {A} (values : list A) (size : Z) : list (list A) :=
  if size <=? 0 then [values]
  else map (fun i => slice values i (i + Z.to_nat size))
           (py_range 0 (length values) (Z.to_nat size)).

(** The conditions [build_id_filter] collects, [seen] being the values
    already met. *)
Fixpoint id_conditions (field_name : pystr) (seen : list pystr)
    (values : list pystr) : list value :=
  match values with
  | [] => []
  | v :: rest =>
      let v := strip v in
      if negb (nonempty v) || existsb (str_eqb v) seen
      then id_conditions field_name seen rest
      else Fetcher.condition field_name v
             :: id_conditions field_name (v :: seen) rest
  end.

Definition build_id_filter (field_name : pystr) (values : list pystr)
    : option value :=
  let field_name := strip field_name in
  if negb (nonempty field_name) then None
  else
    match id_conditions field_name [] values with
    | [] => None
    | conditions =>
        Some (VDict [(txt "conjunction", VStr (txt "or"));
                     (txt "conditions", VList conditions)])
    end.

(** [fields_map.get(logical)] when it is a non-empty name. *)
Definition mapped (fields_map : dict pystr) (logical : pystr) : option pystr :=
  match dict_get fields_map logical with
  | Some name => if nonempty name then Some name else None
  | None => None
  end.

(** [(item.get(key) or "").strip()]. The items are decoded JSON or command
    line texts; anything present that is not a text has no [strip] in the
    model. *)
Definition stripped (item : dict value) (key : pystr) : pyresult pystr :=
  match py_or (get_value item key) (VStr []) with
  | VStr s => Ok (strip s)
  | _ => raise AttributeError "object has no attribute 'strip'"
  end.

(** [if cond and fields_map.get(logical): fields[fields_map[logical]] = v] *)
Definition put_if (cond : bool) (fields_map : dict pystr) (logical : pystr)
    (v : value) (fields : dict value) : dict value :=
  if cond then
    match mapped fields_map logical with
    | Some column => dict_set fields column v
    | None => fields
    end
  else fields.

Definition put_opt (o : option value) (fields_map : dict pystr)
    (logical : pystr) (fields : dict value) : dict value :=
  match o with
  | Some v => put_if true fields_map logical v fields
  | None => fields
  end.

(** The [fields] overrides of an item, merged last. *)
Fixpoint merge_overrides (extra_fields : dict value) (fields : dict value)
    : dict value :=
  match extra_fields with
  | [] => fields
  | (key, v) :: rest =>
      merge_overrides rest
        (match key, v with
         | [], _ | _, VNone => fields
         | _, _ => dict_set fields key v
         end)
  end.

(** *** The items to create *)

(** The [args] of the script: the text of every option by the name of its
    attribute, an option that is not given having the default [""]. *)
Definition namespace : Type := dict pystr.

(** [args.<name>] *)
Definition arg_text (args : namespace) (name : pystr) : pystr :=
  match dict_get args name with
  | Some text => text
  | None => []
  end.

Definition arg (args : namespace) (name : string) : value :=
  VStr (arg_text args (txt name)).

(** The keys of the single item made of the options when there is no
    input file, each holding the option of the same name. *)
Definition ARG_KEYS : list pystr :=
  [txt "biz_task_id"; txt "parent_task_id"; txt "app"; txt "scene";
   txt "params"; txt "item_id"; txt "book_id"; txt "url"; txt "user_id";
   txt "user_name"; txt "date"; txt "status"; txt "device_serial";
   txt "dispatched_device"; txt "dispatched_at"; txt "start_at";
   txt "completed_at"; txt "end_at"; txt "elapsed_seconds";
   txt "items_collected"; txt "logs"; txt "retry_count";
   txt "last_screenshot"; txt "group_id"; txt "extra"].

Definition args_item (args : namespace) : dict value :=
  map (fun name => (name, VStr (arg_text args name))) ARG_KEYS.

Definition KNOWN_KEYS : list pystr :=
  [txt "task_id"; txt "taskID"; txt "TaskID"; txt "biz_task_id";
   txt "bizTaskId"; txt "BizTaskID"; txt "record_id"; txt "recordId";
   txt "RecordID"; txt "parent_task_id"; txt "parentTaskId";
   txt "ParentTaskID"; txt "app"; txt "App"; txt "scene"; txt "Scene";
   txt "params"; txt "Params"; txt "item_id"; txt "itemId"; txt "ItemID";
   txt "book_id"; txt "bookId"; txt "BookID"; txt "url"; txt "URL";
   txt "user_id"; txt "userId"; txt "UserID"; txt "user_name"; txt "userName";
   txt "UserName"; txt "date"; txt "Date"; txt "status"; txt "Status";
   txt "device_serial"; txt "DeviceSerial"; txt "dispatched_device";
   txt "DispatchedDevice"; txt "dispatched_at"; txt "DispatchedAt";
   txt "start_at"; txt "StartAt"; txt "completed_at"; txt "end_at";
   txt "EndAt"; txt "elapsed_seconds"; txt "ElapsedSeconds";
   txt "items_collected"; txt "ItemsCollected"; txt "logs"; txt "Logs";
   txt "retry_count"; txt "RetryCount"; txt "last_screenshot";
   txt "LastScreenShot"; txt "group_id"; txt "GroupID"; txt "extra";
   txt "Extra"; txt "fields"; txt "CDNURL"; txt "cdn_url"; txt "cdnUrl";
   txt "cdnurl"].

(** [{value for value in fields_map.values() if value}] *)
Definition allowed_field_names (fields_map : dict pystr) : list pystr :=
  filter nonempty (map snd fields_map).

(** [pick(item, key, fallback)] *)
Definition pick (item : dict value) (key : pystr) (fallback : value) : value :=
  match dict_get item key with
  | Some VNone => fallback
  | Some v => v
  | None => fallback
  end.

(** [item.get(a) or item.get(b) or item.get(c)] *)
Definition first_of (item : dict value) (a b c : string) : value :=
  py_or (py_or (get_value item (txt a)) (get_value item (txt b)))
    (get_value item (txt c)).

(** [pick(item, key, args.<key>) or item.get(alt)] *)
Definition picked (args : namespace) (item : dict value) (key alt : string)
    : value :=
  py_or (pick item (txt key) (arg args key)) (get_value item (txt alt)).

Definition CDN_KEYS : list pystr :=
  [txt "CDNURL"; txt "cdn_url"; txt "cdnUrl"; txt "cdnurl"].

(** [for key in (...): raw = item.get(key);
    if isinstance(raw, str) and raw.strip(): cdn_url = raw.strip(); break] *)
Fixpoint first_cdn_url (item : dict value) (keys : list pystr) : pystr :=
  match keys with
  | [] => []
  | key :: rest =>
      match get_value item key with
      | VStr raw =>
          if nonempty (strip raw) then strip raw else first_cdn_url item rest
      | _ => first_cdn_url item rest
      end
  end.

(** [for key, value in item.items()]: the members named after a column. *)
Fixpoint column_members (allowed : list pystr) (entries : dict value)
    (extra_fields : dict value) : dict value :=
  match entries with
  | [] => extra_fields
  | (key, v) :: rest =>
      column_members allowed rest
        (if existsb (str_eqb key) KNOWN_KEYS then extra_fields
         else if existsb (str_eqb key) allowed
                 && negb (match v with VNone => true | _ => false end)
         then dict_set extra_fields key v
         else extra_fields)
  end.

(** One turn of the loop of [load_creates] on an item that is a dict. *)
Definition normalize_item (args : namespace) (fields_map : dict pystr)
    (item : dict value) : dict value :=
  let cdn_url := first_cdn_url item CDN_KEYS in
  let extra := if nonempty cdn_url
               then VDict [(txt "cdn_url", VStr cdn_url)]
               else pick item (txt "extra") (arg args "extra") in
  let force_extra := nonempty cdn_url in
  let extra_fields :=
    column_members (allowed_field_names fields_map) item [] in
  let extra_fields :=
    match get_value item (txt "fields") with
    | VDict raw_fields => merge_overrides raw_fields extra_fields
    | _ => extra_fields
    end in
  [(txt "task_id", first_of item "task_id" "taskID" "TaskID");
   (txt "biz_task_id", first_of item "biz_task_id" "bizTaskId" "BizTaskID");
   (txt "record_id", first_of item "record_id" "recordId" "RecordID");
   (txt "parent_task_id",
     first_of item "parent_task_id" "parentTaskId" "ParentTaskID");
   (txt "app", picked args item "app" "App");
   (txt "scene", picked args item "scene" "Scene");
   (txt "params", picked args item "params" "Params");
   (txt "item_id", picked args item "item_id" "ItemID");
   (txt "book_id", picked args item "book_id" "BookID");
   (txt "url", picked args item "url" "URL");
   (txt "user_id", picked args item "user_id" "UserID");
   (txt "user_name", picked args item "user_name" "UserName");
   (txt "date", picked args item "date" "Date");
   (txt "status", picked args item "status" "Status");
   (txt "device_serial", picked args item "device_serial" "DeviceSerial");
   (txt "dispatched_device",
     picked args item "dispatched_device" "DispatchedDevice");
   (txt "dispatched_at", picked args item "dispatched_at" "DispatchedAt");
   (txt "start_at", picked args item "start_at" "StartAt");
   (txt "completed_at",
     pick item (txt "completed_at") (arg args "completed_at"));
   (txt "end_at", picked args item "end_at" "EndAt");
   (txt "elapsed_seconds", picked args item "elapsed_seconds" "ElapsedSeconds");
   (txt "items_collected", picked args item "items_collected" "ItemsCollected");
   (txt "logs", picked args item "logs" "Logs");
   (txt "retry_count", picked args item "retry_count" "RetryCount");
   (txt "last_screenshot", picked args item "last_screenshot" "LastScreenShot");
   (txt "group_id", picked args item "group_id" "GroupID");
   (txt "extra", extra);
   (txt "force_extra", VBool force_extra);
   (txt "fields", VDict extra_fields)].

(** [load_creates], [parsed] being the items [bitable_common] read from
    the input when there is one. *)
Definition load_creates (args : namespace) (fields_map : dict pystr)
    (parsed : list value) : list (dict value) :=
  let items := if truthy (arg args "input") then parsed
               else [VDict (args_item args)] in
  flat_map (fun item => match item with
                        | VDict d => [normalize_item args fields_map d]
                        | _ => []
                        end) items.

(** *** The fields to skip on *)

(** The [aliases] of [normalize_skip_fields]. *)
Definition SKIP_ALIASES : dict pystr :=
  [(txt "task_id", txt "TaskID");
   (txt "taskid", txt "TaskID");
   (txt "biz_task_id", txt "BizTaskID");
   (txt "biztaskid", txt "BizTaskID");
   (txt "record_id", txt "RecordID");
   (txt "recordid", txt "RecordID");
   (txt "book_id", txt "BookID");
   (txt "bookid", txt "BookID");
   (txt "user_id", txt "UserID");
   (txt "userid", txt "UserID");
   (txt "app", txt "App");
   (txt "scene", txt "Scene")].

(** [for name in resolved: if name not in seen: seen.add(name);
    uniq.append(name)] *)
Fixpoint uniq_from (seen : list pystr) (resolved : list pystr) : list pystr :=
  match resolved with
  | [] => []
  | name :: rest =>
      if existsb (str_eqb name) seen then uniq_from seen rest
      else name :: uniq_from (name :: seen) rest
  end.

Section SkipFields.
(** [str.lower], whose case tables stay outside the model. *)
Variable str_lower : pystr -> pystr.

(** [key = part; if part.lower() in aliases: key = aliases[part.lower()]] *)
Definition alias_of (part : pystr) : pystr :=
  match dict_get SKIP_ALIASES (str_lower part) with
  | Some key => key
  | None => part
  end.

Definition normalize_skip_fields (raw : pystr) : list pystr :=
  if negb (nonempty raw) then []
  else
    let parts := filter nonempty (map strip (split_on 44 raw)) in
    let resolved := filter nonempty (map alias_of parts) in
    uniq_from [] resolved.
End SkipFields.

Section Common.
(** The module [bitable_common] the script imports is not part of the
    sources at hand. What the script uses of it is taken as given: the
    transport under [request_json], the page size clamp and its bound, the
    cell normaliser, and the coercions of integers, timestamps, dates and
    the extra payload (total functions, an unusable input giving [None]). *)
Variable St : Type.
Variable send : St -> request -> pyresult response * St.
Variable common_clamp_page_size : Z -> Z.
Variable common_MAX_PAGE_SIZE : Z.
Variable common_bitable_value_to_string : value -> pyresult pystr.
Variable coerce_millis : value -> option Z.
Variable coerce_int : value -> option Z.
Variable coerce_date_payload : value -> option value.
Variable normalize_extra : value -> value.

(** *** The create-fields builder *)

(** [start_ms] once the fallback to [dispatched_at] is applied. *)
Definition start_ms_of (item : dict value) : option Z :=
  match coerce_millis (get_value item (txt "start_at")) with
  | Some s => Some s
  | None => coerce_millis (get_value item (txt "dispatched_at"))
  end.

(** [end_ms] once [completed_at] has taken priority. *)
Definition end_ms_of (item : dict value) : option Z :=
  match coerce_millis (get_value item (txt "completed_at")) with
  | Some c => Some c
  | None => coerce_millis (get_value item (txt "end_at"))
  end.

(** [max(0, int((end_ms - start_ms) / 1000))] *)
Definition elapsed_between (start_ms end_ms : Z) : pyresult Z :=
  x <- int_truediv (end_ms - start_ms) 1000 ;;
  n <- int_of_float x ;;
  Ok (Z.max 0 n).

(** [elapsed] as it stands before it is written. *)
Definition elapsed_of (item : dict value) : pyresult (option Z) :=
  match coerce_int (get_value item (txt "elapsed_seconds")),
        start_ms_of item, end_ms_of item with
  | None, Some s, Some e => n <- elapsed_between s e ;; Ok (Some n)
  | elapsed, _, _ => Ok elapsed
  end.

Definition opt_int (o : option Z) : option value :=
  match o with Some n => Some (VInt n) | None => None end.

(** [date_value = item.get("date")]: written when it is not [None], the
    Date column is mapped and the coercion gives a payload. *)
Definition put_date (fields_map : dict pystr) (item fields : dict value)
    : dict value :=
  match get_value item (txt "date") with
  | VNone => fields
  | date_value =>
      match mapped fields_map (txt "Date") with
      | Some _ => put_opt (coerce_date_payload date_value) fields_map
                    (txt "Date") fields
      | None => fields
      end
  end.

(** [extra = item.get("extra")]: written when it is not [None], the Extra
    column is mapped and the payload is not empty or [force_extra] is set. *)
Definition put_extra (fields_map : dict pystr) (item fields : dict value)
    : dict value :=
  match get_value item (txt "extra") with
  | VNone => fields
  | extra =>
      let extra_payload := normalize_extra extra in
      put_if (truthy extra_payload || truthy (get_value item (txt "force_extra")))
        fields_map (txt "Extra") extra_payload fields
  end.

(** [extra_fields = item.get("fields")]: merged last when it is a dict. *)
Definition put_overrides (item fields : dict value) : dict value :=
  match get_value item (txt "fields") with
  | VDict extra_fields => merge_overrides extra_fields fields
  | _ => fields
  end.

Definition build_create_fields (fields_map : dict pystr) (item : dict value)
    : pyresult (dict value) :=
  let fields : dict value := [] in
  biz_task_id <- stripped item (txt "biz_task_id") ;;
  let fields := put_if (nonempty biz_task_id) fields_map (txt "BizTaskID")
                  (VStr biz_task_id) fields in
  parent_task_id <- stripped item (txt "parent_task_id") ;;
  let fields := put_if (nonempty parent_task_id) fields_map
                  (txt "ParentTaskID") (VStr parent_task_id) fields in
  app_value <- stripped item (txt "app") ;;
  scene_value <- stripped item (txt "scene") ;;
  params_value <- stripped item (txt "params") ;;
  item_id_value <- stripped item (txt "item_id") ;;
  book_id_value <- stripped item (txt "book_id") ;;
  url_value <- stripped item (txt "url") ;;
  user_id_value <- stripped item (txt "user_id") ;;
  user_name_value <- stripped item (txt "user_name") ;;
  status_value <- stripped item (txt "status") ;;
  logs_value <- stripped item (txt "logs") ;;
  last_screenshot_value <- stripped item (txt "last_screenshot") ;;
  group_id_value <- stripped item (txt "group_id") ;;
  let fields :=
    fold_left (fun fields fv =>
                 put_if (nonempty (snd fv)) fields_map (fst fv)
                   (VStr (snd fv)) fields)
      [(txt "App", app_value); (txt "Scene", scene_value);
       (txt "Params", params_value); (txt "ItemID", item_id_value);
       (txt "BookID", book_id_value); (txt "URL", url_value);
       (txt "UserID", user_id_value); (txt "UserName", user_name_value);
       (txt "Status", status_value); (txt "Logs", logs_value);
       (txt "LastScreenShot", last_screenshot_value);
       (txt "GroupID", group_id_value)]
      fields in
  let fields :=
    let app_label := match dict_get APP_GROUP_LABELS app_value with
                     | Some label => label
                     | None => app_value
                     end in
    put_if (negb (nonempty group_id_value) && nonempty app_value
            && nonempty book_id_value && nonempty user_id_value)
      fields_map (txt "GroupID")
      (VStr (app_label ++ txt "_" ++ book_id_value ++ txt "_" ++ user_id_value))
      fields in
  let fields := put_date fields_map item fields in
  device_serial <- stripped item (txt "device_serial") ;;
  let fields := put_if (nonempty device_serial) fields_map
                  (txt "DeviceSerial") (VStr device_serial) fields in
  dispatched_device <- stripped item (txt "dispatched_device") ;;
  let dispatched_device := if nonempty dispatched_device
                           then dispatched_device else device_serial in
  let fields := put_if (nonempty dispatched_device) fields_map
                  (txt "DispatchedDevice") (VStr dispatched_device) fields in
  let dispatched_ms := coerce_millis (get_value item (txt "dispatched_at")) in
  let fields := put_opt (opt_int dispatched_ms) fields_map
                  (txt "DispatchedAt") fields in
  let fields := put_opt (opt_int (start_ms_of item)) fields_map
                  (txt "StartAt") fields in
  let fields := put_opt (opt_int (end_ms_of item)) fields_map
                  (txt "EndAt") fields in
  elapsed <- elapsed_of item ;;
  let fields := put_opt (opt_int elapsed) fields_map
                  (txt "ElapsedSeconds") fields in
  let fields := put_opt (opt_int (coerce_int (get_value item (txt "items_collected"))))
                  fields_map (txt "ItemsCollected") fields in
  let fields := put_opt (opt_int (coerce_int (get_value item (txt "retry_count"))))
                  fields_map (txt "RetryCount") fields in
  let fields := put_extra fields_map item fields in
  let fields := put_overrides item fields in
  Ok fields.

(** *** Calls to the store *)

Local Open Scope remote_scope.

Definition records_url (base_url : pystr) (ref : BitableRef) : pystr :=
  base_url ++ txt "/open-apis/bitable/v1/apps/" ++ app_token ref
  ++ txt "/tables/" ++ table_id ref ++ txt "/records".

(** [raise RuntimeError(f"{what}: code=... msg=...")] unless the code is 0. *)
Definition check_code (what : string) (resp : response) : remote St unit :=
  if code_not_zero resp then
    throw (mkExn RuntimeError
             (txt what ++ txt ": code=" ++ fmt_int (resp_code resp)
              ++ txt " msg=" ++ fmt_str (resp_msg resp)))
  else ret tt.

(** A record as the script queues it: [{"fields": fields}]. *)
Definition record_of (fields : dict value) : value :=
  VDict [(txt "fields", VDict fields)].

Definition batch_create_records (base_url token : pystr) (ref : BitableRef)
    (records : list (dict value)) : remote St unit :=
  let url := records_url base_url ref ++ txt "/batch_create" in
  let payload := VDict [(txt "records", VList (map record_of records))] in
  resp <~ request_json send (txt "POST") url (Some token) (Some payload) ;;
  check_code "batch create failed" resp.

Definition create_record (base_url token : pystr) (ref : BitableRef)
    (fields : dict value) : remote St unit :=
  let url := records_url base_url ref in
  let payload := VDict [(txt "fields", VDict fields)] in
  resp <~ request_json send (txt "POST") url (Some token) (Some payload) ;;
  check_code "create record failed" resp.

(** The single search of the manager: the first page only. *)
Definition fetch_records (base_url token : pystr) (ref : BitableRef)
    (filter_obj : option value) (page_size : Z) : remote St (list row) :=
  let page_size := common_clamp_page_size page_size in
  let url := records_url base_url ref ++ txt "/search?page_size="
             ++ str_of_int page_size in
  let body := match filter_obj with
              | Some f => if truthy f then Some (VDict [(txt "filter", f)])
                          else None
              | None => None
              end in
  resp <~ request_json send (txt "POST") url (Some token) body ;;
  _ <~ check_code "search records failed" resp ;;
  ret (Fetcher.or_empty
         (match resp_data resp with
          | Some d => data_items d
          | None => None
          end)).

(** The inner loop of [resolve_existing_by_field] over the rows of one
    search: the first record id seen for a value is kept. *)
Fixpoint note_rows (field_name : pystr) (items : list row)
    (existing : dict pystr) : pyresult (dict pystr) :=
  match items with
  | [] => Ok existing
  | item :: rest =>
      let record_id := strip (match record_id item with
                              | Some r => r
                              | None => []
                              end) in
      let raw_fields := match row_fields item with
                        | Some f => f
                        | None => []
                        end in
      (v <- common_bitable_value_to_string
              (match dict_get raw_fields field_name with
               | Some c => c
               | None => VStr []
               end) ;;
       note_rows field_name rest
         (if nonempty record_id && nonempty v && negb (dict_has existing v)
          then dict_set existing v record_id
          else existing))%py
  end.

(** The outer loop over the batches. *)
Fixpoint resolve_batches (base_url token : pystr) (ref : BitableRef)
    (field_name : pystr) (batches : list (list pystr))
    (existing : dict pystr) : remote St (dict pystr) :=
  match batches with
  | [] => ret existing
  | batch :: rest =>
      match build_id_filter field_name batch with
      | None => resolve_batches base_url token ref field_name rest existing
      | Some filter_obj =>
          items <~ fetch_records base_url token ref (Some filter_obj)
                     (Z.min common_MAX_PAGE_SIZE
                        (Z.max (Fetcher.len batch) 1)) ;;
          existing' <~ lift (note_rows field_name items existing) ;;
          resolve_batches base_url token ref field_name rest existing'
      end
  end.

Definition resolve_existing_by_field (base_url token : pystr)
    (ref : BitableRef) (field_name : pystr) (values : list pystr)
    : remote St (dict pystr) :=
  match values with
  | [] => ret []
  | _ => resolve_batches base_url token ref field_name
           (chunked values MAX_FILTER_VALUES) []
  end.

(** [resp.get("code") == 0] *)
Definition code_is_zero (resp : response) : bool :=
  match resp_code resp with
  | Some c => c =? 0
  | None => false
  end.

Definition record_exists (base_url token : pystr) (ref : BitableRef)
    (record_id : pystr) : remote St bool :=
  let record_id := strip record_id in
  if negb (nonempty record_id) then ret false
  else
    let url := records_url base_url ref ++ txt "/" ++ record_id in
    got <~ rtry (resp <~ request_json send (txt "GET") url (Some token) None ;;
                 ret (Some resp))
             Exception (fun _ => ret None) ;;
    match got with
    | None => ret false
    | Some resp => ret (code_is_zero resp)
    end.

(** *** The skip logic of [main] *)

Definition extract_item_value (item : dict value) (field_name : pystr)
    : pyresult pystr :=
  if str_eqb field_name (txt "TaskID") then
    Ok (match coerce_int (get_value item (txt "task_id")) with
        | Some task_id => if task_id =? 0 then [] else str_of_int task_id
        | None => []
        end)
  else if str_eqb field_name (txt "BizTaskID") then
    stripped item (txt "biz_task_id")
  else if str_eqb field_name (txt "RecordID") then
    stripped item (txt "record_id")
  else if str_eqb field_name (txt "BookID") then
    stripped item (txt "book_id")
  else if str_eqb field_name (txt "UserID") then
    stripped item (txt "user_id")
  else if str_eqb field_name (txt "App") then
    stripped item (txt "app")
  else if str_eqb field_name (txt "Scene") then
    stripped item (txt "scene")
  else common_bitable_value_to_string (get_value item field_name).

(** What the first loops of [main] gather: the record ids found in the
    store, and per field the values to look up, then the record ids found
    for them. *)
Record existing : Type := mkExisting {
  existing_record_ids : list pystr;
  existing_by_field : dict (dict pystr)
}.

(** [existing_by_field.setdefault(field_name, {})[value] = ""] *)
Definition note_value (by_field : dict (dict pystr)) (field_name v : pystr)
    : dict (dict pystr) :=
  dict_set by_field field_name
    (dict_set (match dict_get by_field field_name with
               | Some values_map => values_map
               | None => []
               end) v []).

(** [for field_name in skip_fields], first loop, on one item. *)
Fixpoint note_item (base_url token : pystr) (ref : BitableRef)
    (skip_fields : list pystr) (item : dict value) (ex : existing)
    : remote St existing :=
  match skip_fields with
  | [] => ret ex
  | field_name :: rest =>
      if str_eqb field_name (txt "RecordID") then
        record_id <~ lift (stripped item (txt "record_id")) ;;
        if nonempty record_id
           && negb (existsb (str_eqb record_id) (existing_record_ids ex))
        then
          found <~ record_exists base_url token ref record_id ;;
          note_item base_url token ref rest item
            (if found
             then mkExisting (existing_record_ids ex ++ [record_id])
                    (existing_by_field ex)
             else ex)
        else note_item base_url token ref rest item ex
      else
        v <~ lift (extract_item_value item field_name) ;;
        if negb (nonempty v) then note_item base_url token ref rest item ex
        else note_item base_url token ref rest item
               (mkExisting (existing_record_ids ex)
                  (note_value (existing_by_field ex) field_name v))
  end.

(** [for item in creates], first loop. *)
Fixpoint note_items (base_url token : pystr) (ref : BitableRef)
    (skip_fields : list pystr) (creates : list (dict value)) (ex : existing)
    : remote St existing :=
  match creates with
  | [] => ret ex
  | item :: rest =>
      ex' <~ note_item base_url token ref skip_fields item ex ;;
      note_items base_url token ref skip_fields rest ex'
  end.

(** [{key: fields_map.get(key, key) for key in skip_fields
      if key != "RecordID"}] *)
Fixpoint skip_field_map (fields_map : dict pystr) (skip_fields : list pystr)
    (field_map : dict pystr) : dict pystr :=
  match skip_fields with
  | [] => field_map
  | key :: rest =>
      skip_field_map fields_map rest
        (if str_eqb key (txt "RecordID") then field_map
         else dict_set field_map key
                (match dict_get fields_map key with
                 | Some column => column
                 | None => key
                 end))
  end.

(** [for field_name, values_map in list(existing_by_field.items())] *)
Fixpoint resolve_fields (base_url token : pystr) (ref : BitableRef)
    (field_map : dict pystr) (entries : list (pystr * dict pystr))
    (by_field : dict (dict pystr)) : remote St (dict (dict pystr)) :=
  match entries with
  | [] => ret by_field
  | (field_name, values_map) :: rest =>
      let mapped_field := match dict_get field_map field_name with
                          | Some column => column
                          | None => field_name
                          end in
      let values := map fst values_map in
      found <~ resolve_existing_by_field base_url token ref mapped_field
                 values ;;
      resolve_fields base_url token ref field_map rest
        (dict_set by_field field_name found)
  end.

(** [all_match] for one item: the loop leaves at the first field that does
    not match. *)
Fixpoint all_match (skip_fields : list pystr) (item : dict value)
    (ex : existing) : pyresult bool :=
  match skip_fields with
  | [] => Ok true
  | field_name :: rest =>
      if str_eqb field_name (txt "RecordID") then
        (record_id <- stripped item (txt "record_id") ;;
         if negb (nonempty record_id)
            || negb (existsb (str_eqb record_id) (existing_record_ids ex))
         then Ok false
         else all_match rest item ex)%py
      else
        (v <- extract_item_value item field_name ;;
         if negb (nonempty v)
            || negb (dict_has
                       (match dict_get (existing_by_field ex) field_name with
                        | Some found => found
                        | None => []
                        end) v)
         then Ok false
         else all_match rest item ex)%py
  end.

(** What the second loop over [creates] leaves. *)
Record queue : Type := mkQueue {
  queue_records : list (dict value);
  queue_errors : list pystr;
  queue_skipped : Z
}.

(** [for item in creates], second loop: skip, report or queue. *)
Fixpoint queue_items (fields_map : dict pystr) (skip_fields : list pystr)
    (ex : existing) (creates : list (dict value)) (q : queue)
    : pyresult queue :=
  match creates with
  | [] => Ok q
  | item :: rest =>
      (skip <- match skip_fields with
               | [] => Ok false
               | _ => all_match skip_fields item ex
               end ;;
       if skip then
         queue_items fields_map skip_fields ex rest
           (mkQueue (queue_records q) (queue_errors q) (queue_skipped q + 1))
       else
         fields <- build_create_fields fields_map item ;;
         match fields with
         | [] =>
             queue_items fields_map skip_fields ex rest
               (mkQueue (queue_records q)
                  (queue_errors q ++ [txt "task: no fields to create"])
                  (queue_skipped q))
         | _ =>
             queue_items fields_map skip_fields ex rest
               (mkQueue (queue_records q ++ [fields]) (queue_errors q)
                  (queue_skipped q))
         end)%py
  end.

(** *** The create dispatch of [main] *)

(** What [main] prints, the wall-clock duration left out. *)
Record report : Type := mkReport {
  created : Z;
  requested : Z;
  skipped : Z;
  failed : Z;
  errors : list pystr
}.

(** The [for idx in range(0, len(records), MAX_BATCH_SIZE)] loop: [created]
    keeps what the completed batches added when a call raises. *)
Fixpoint create_batches (base_url token : pystr) (ref : BitableRef)
    (batches : list (list (dict value))) (created : Z) (w : world St)
    : Z * pyresult unit * world St :=
  match batches with
  | [] => (created, Ok tt, w)
  | batch :: rest =>
      match batch_create_records base_url token ref batch w with
      | (Ok _, w1) =>
          create_batches base_url token ref rest
            (created + Fetcher.len batch) w1
      | (Raise e, w1) => (created, Raise e, w1)
      end
  end.

(** [records[idx : idx + MAX_BATCH_SIZE]] for [idx] in
    [range(0, len(records), MAX_BATCH_SIZE)]. *)
Definition batches_of (records : list (dict value)) : list (list (dict value)) :=
  map (fun idx => slice records idx (idx + Z.to_nat MAX_BATCH_SIZE))
      (py_range 0 (length records) (Z.to_nat MAX_BATCH_SIZE)).

(** [main] from the point where [records], [errors] and [skipped] are
    built: the dispatch, the report and the exit code. *)
Definition main_create (base_url token : pystr) (ref : BitableRef)
    (records : list (dict value)) (errors : list pystr) (skipped : Z)
    : remote St (report * Z) :=
  fun w =>
    let '(created, outcome, w1) :=
      match records with
      | [fields] =>
          match create_record base_url token ref fields w with
          | (Ok _, w1) => (1, Ok tt, w1)
          | (Raise e, w1) => (0, Raise e, w1)
          end
      | _ => create_batches base_url token ref (batches_of records) 0 w
      end in
    let finish errors :=
      (Ok (mkReport created (Fetcher.len records) skipped
             (Fetcher.len errors) errors,
           match errors with [] => 0 | _ => 1 end), w1) in
    match outcome with
    | Ok _ => finish errors
    | Raise e =>
        if is_subclass (exn_cls e) RuntimeError
        then finish (errors ++ [exn_msg e])
        else (Raise e, w1)
    end.
(** [main] from the point where [creates], [ref] and [token] are at hand. *)
Definition main_tasks (base_url token : pystr) (ref : BitableRef)
    (fields_map : dict pystr) (skip_fields : list pystr)
    (creates : list (dict value)) : remote St (report * Z) :=
  ex <~ match skip_fields with
        | [] => ret (mkExisting [] [])
        | _ =>
            let field_map := skip_field_map fields_map skip_fields [] in
            noted <~ note_items base_url token ref skip_fields creates
                       (mkExisting [] []) ;;
            by_field <~ resolve_fields base_url token ref field_map
                          (existing_by_field noted)
                          (existing_by_field noted) ;;
            ret (mkExisting (existing_record_ids noted) by_field)
        end ;;
  q <~ lift (queue_items fields_map skip_fields ex creates
               (mkQueue [] [] 0)) ;;
  main_create base_url token ref (queue_records q) (queue_errors q)
    (queue_skipped q).
End Common.

End Manager.

(* ===================================================================== *)
(** ** Data for the statements *)
(* ===================================================================== *)

(** The field map of a run without overrides in the environment. *)
Definition default_fields : dict pystr := Fetcher.load_task_fields_from_env [].

(** The filter built from the conditions [conds], as [build_filter] ends. *)
Definition conjunction_of (conds : list value) : option value :=
  match conds with
  | [] => None
  | _ => Some (VDict [(txt "conjunction", VStr (txt "and"));
                      (txt "conditions", VList conds)])
  end.


(** What a response contributes to a scan: its rows, its cursor. *)
Definition batch_of (resp : response) : list row :=
  Fetcher.or_empty (match resp_data resp with
                    | Some d => data_items d
                    | None => None
                    end).

Definition cursor_of (resp : response) : pystr :=
  strip (match resp_data resp with
         | Some d => match data_page_token d with Some t => t | None => [] end
         | None => []
         end).

(** The rows delivered by the calls of a journal, in order. *)
Definition received (j : list (request * pyresult response)) : list row :=
  flat_map (fun entry => match snd entry with
                         | Ok resp => batch_of resp
                         | Raise _ => []
                         end) j.

(** [s.endswith(suffix)] *)
Definition ends_with (s suffix : pystr) : bool :=
  str_eqb (skipn (length s - length suffix) s) suffix.

Definition numbered_row (n : Z) : row :=
  mkRow (Some (txt "rec" ++ str_of_int n)) (Some [(txt "TaskID", VInt n)]).

Definition page_reply (rows : list row) (more : bool) (cursor : pystr) : response :=
  mkResp (Some 0) (Some (txt "success"))
    (Some (mkData (Some rows) (Some more) (Some cursor))).

(** A store of three pages of two rows, addressed by cursor: the first two
    replies announce more rows and give the next cursor, the last one gives
    an empty cursor. *)
Definition three_pages (s : unit) (q : request) : pyresult response * unit :=
  if ends_with (req_url q) (txt "page_token=p2") then
    (Ok (page_reply [numbered_row 3; numbered_row 4] true (txt "p3")), tt)
  else if ends_with (req_url q) (txt "page_token=p3") then
    (Ok (page_reply [numbered_row 5; numbered_row 6] false []), tt)
  else (Ok (page_reply [numbered_row 1; numbered_row 2] true (txt "p2")), tt).

(** A store whose single page says there is nothing more and still hands
    out a cursor. *)
Definition stale_cursor (s : unit) (q : request) : pyresult response * unit :=
  (Ok (page_reply [numbered_row 1] false (txt "p2")), tt).

Definition sample_ref : BitableRef :=
  mkRef (txt "https://x/base/ABC123?table=T1") (txt "ABC123") (txt "T1") [] [].

Definition fresh {St} (s : St) : world St := mkWorld s [].

(** What a scan answered: its rows, its page information and the number of
    calls in the journal. *)
Definition scan_outcome {St}
    (o : option (pyresult (list row * Fetcher.PageInfo) * world St))
    : option (list row * Fetcher.PageInfo * nat) :=
  match o with
  | Some (Ok (rows, info), w) => Some (rows, info, length (journal w))
  | _ => None
  end.

(** The scan of the three-page store with the given budget. *)
Definition scan_three_pages (fuel : nat) (limit max_pages : Z) :=
  Fetcher.fetch_records unit three_pages fuel (txt "https://x") (txt "t-abc")
    sample_ref 200 limit true [] None max_pages (fresh tt).

Definition scan_stale_cursor :=
  Fetcher.fetch_records unit stale_cursor 1%nat (txt "https://x") (txt "t-abc")
    sample_ref 200 0 true [] None 0 (fresh tt).

(** The parts of a scan that returned. *)
Definition rows_of {St} (o : option (pyresult (list row * Fetcher.PageInfo) * world St))
    : list row :=
  match o with Some (Ok (rows, _), _) => rows | _ => [] end.
Definition info_of {St} (o : option (pyresult (list row * Fetcher.PageInfo) * world St))
    : Fetcher.PageInfo :=
  match o with
  | Some (Ok (_, info), _) => info
  | _ => Fetcher.mkPageInfo false [] 0
  end.
Definition world_of {St} (w0 : world St)
    (o : option (pyresult (list row * Fetcher.PageInfo) * world St)) : world St :=
  match o with Some (_, w) => w | None => w0 end.

(** The request of the existence probe for a record id. *)
Definition probe_request (base_url token : pystr) (ref : BitableRef)
    (record_id : pystr) : request :=
  mkReq (txt "GET")
    (Manager.records_url base_url ref ++ txt "/" ++ strip record_id)
    (Some token) None.

(** A transport on which every call fails at the network. *)
Definition unreachable (s : unit) (q : request) : pyresult response * unit :=
  (Raise (mkExn URLError (txt "<urlopen error timed out>")), tt).

(** The request of one batch. *)
Definition batch_request (base_url token : pystr) (ref : BitableRef)
    (batch : list (dict value)) : request :=
  mkReq (txt "POST") (Manager.records_url base_url ref ++ txt "/batch_create")
    (Some token)
    (Some (VDict [(txt "records", VList (map Manager.record_of batch))])).

(** The outcomes a transport gives to a sequence of requests, from a state. *)
Fixpoint serve {St} (send : St -> request -> pyresult response * St) (s : St)
    (reqs : list request) : list (pyresult response) :=
  match reqs with
  | [] => []
  | q :: rest => let '(o, s') := send s q in o :: serve send s' rest
  end.

(** The state of the transport after a sequence of requests. *)
Fixpoint served {St} (send : St -> request -> pyresult response * St) (s : St)
    (reqs : list request) : St :=
  match reqs with
  | [] => s
  | q :: rest => served send (snd (send s q)) rest
  end.

(** A call the store accepted. *)
Definition accepted (o : pyresult response) : bool :=
  match o with
  | Ok resp => negb (code_not_zero resp)
  | Raise _ => false
  end.

(** The exception [batch_create_records] ends with on a call that was not
    accepted: the transport's own, or the [RuntimeError] of a code other
    than 0. *)
Definition batch_failure (o : pyresult response) : option exn :=
  match o with
  | Ok resp =>
      if code_not_zero resp then
        Some (mkExn RuntimeError
                (txt "batch create failed" ++ txt ": code="
                 ++ fmt_int (resp_code resp) ++ txt " msg="
                 ++ fmt_str (resp_msg resp)))
      else None
  | Raise e => Some e
  end.

(** [n] creation payloads, told apart by their BizTaskID. *)
Definition payloads (n : nat) : list (dict value) :=
  map (fun i => [(txt "BizTaskID", VStr (txt "biz-" ++ str_of_int (Z.of_nat i)))])
      (seq 0 n).






(** Induction on a value with the hypothesis on every member of a list and
    of a dict. *)
Fixpoint value_ind_deep (P : value -> Prop)
    (HNone : P VNone) (HBool : forall b, P (VBool b)) (HInt : forall n, P (VInt n))
    (HFloat : forall x, P (VFloat x)) (HStr : forall s, P (VStr s))
    (HBytes : forall b, P (VBytes b))
    (HList : forall items, Forall P items -> P (VList items))
    (HDict : forall entries, Forall (fun kv => P (snd kv)) entries ->
                             P (VDict entries))
    (HOther : forall t, P (VOther t)) (v : value) {struct v} : P v :=
  let rec := value_ind_deep P HNone HBool HInt HFloat HStr HBytes HList HDict
               HOther in
  match v with
  | VNone => HNone
  | VBool b => HBool b
  | VInt n => HInt n
  | VFloat x => HFloat x
  | VStr s => HStr s
  | VBytes b => HBytes b
  | VList items =>
      HList items
        ((fix go (l : list value) : Forall P l :=
            match l with
            | [] => Forall_nil P
            | x :: r => Forall_cons x (rec x) (go r)
            end) items)
  | VDict entries =>
      HDict entries
        ((fix go (l : list (pystr * value)) : Forall (fun kv => P (snd kv)) l :=
            match l with
            | [] => Forall_nil _
            | kv :: r => @Forall_cons _ (fun kv => P (snd kv)) kv r (rec (snd kv)) (go r)
            end) entries)
  | VOther t => HOther t
  end.

(** The label of an application in a synthesised group id. *)
Definition app_label (app : pystr) : pystr :=
  match dict_get Manager.APP_GROUP_LABELS app with
  | Some label => label
  | None => app
  end.

(** The [fields] overrides an item carries. *)
Definition overrides_of (item : dict value) : dict value :=
  match get_value item (txt "fields") with
  | VDict extra_fields => extra_fields
  | _ => []
  end.

Fixpoint no_repeat (l : list pystr) : bool :=
  match l with
  | [] => true
  | x :: r => negb (existsb (str_eqb x) r) && no_repeat r
  end.

(** No two entries of the field map name the same column. *)
Definition columns_distinct (fields_map : dict pystr) : bool :=
  no_repeat (filter nonempty (map snd fields_map)).

(** Modelled from the spec: [coerceInt] and [coerceMillis] of the missing
    module [bitable_common], on the one shape the examples use. The spec
    has both accept an integer (for [coerceMillis], epoch milliseconds) and
    answer none on a shape they do not accept. *)
Definition coerce_integer (v : value) : option Z :=
  match v with
  | VInt n => Some n
  | _ => None
  end.

(** Modelled from the spec: a date coercion that accepts nothing and an
    extra payload passed through, standing for the two other coercions of
    [bitable_common] where an example needs none of them. *)
Definition coerce_no_date (v : value) : option value := None.
Definition extra_as_is (v : value) : value := v.

Definition build_with_integers (fields_map : dict pystr) (item : dict value)
    : pyresult (dict value) :=
  Manager.build_create_fields coerce_integer coerce_integer coerce_no_date
    extra_as_is fields_map item.

(** [d.get(k)] on the outcome of a build. *)
Definition built_column (r : pyresult (dict value)) (column : pystr) : option value :=
  match r with
  | Ok fields => dict_get fields column
  | Raise _ => None
  end.

(** The fields of a build that returned. *)
Definition built (r : pyresult (dict value)) : dict value :=
  match r with
  | Ok fields => fields
  | Raise _ => []
  end.

(** The item of the spec's examples: one second range and the three parts
    of a group id. *)
Definition sample_item : dict value :=
  [(txt "app", VStr (txt "acme")); (txt "book_id", VStr (txt "b1"));
   (txt "user_id", VStr (txt "u1")); (txt "start_at", VInt 1000);
   (txt "end_at", VInt 4000)].

(** An item whose end lies [2^53 * 1000 - 1] milliseconds after its start. *)
Definition far_item : dict value :=
  [(txt "start_at", VInt 0); (txt "end_at", VInt 9007199254740991999)].

(** *** The existing-record resolver *)

(** A batch gives rise to a search when the field name and at least one of
    its values are not blank. *)
Definition searchable (field_name : pystr) (batch : list pystr) : bool :=
  nonempty (strip field_name)
  && existsb (fun v => nonempty (strip v)) batch.

(** The search the resolver sends for a batch. *)
Definition search_request (clamp : Z -> Z) (max_page_size : Z)
    (base_url token : pystr) (ref : BitableRef) (field_name : pystr)
    (batch : list pystr) : request :=
  mkReq (txt "POST")
    (Manager.records_url base_url ref ++ txt "/search?page_size="
     ++ str_of_int (clamp (Z.min max_page_size (Z.max (Fetcher.len batch) 1))))
    (Some token)
    (match Manager.build_id_filter field_name batch with
     | Some f => Some (VDict [(txt "filter", f)])
     | None => None
     end).

(** The record id of the first row of [rows] whose cell under [field_name]
    normalises to [v] and that has a record id. *)
Fixpoint first_record (norm : value -> pyresult pystr) (field_name v : pystr)
    (rows : list row) : option pystr :=
  match rows with
  | [] => None
  | r :: rest =>
      let rid := strip (match record_id r with Some i => i | None => [] end) in
      let cell := match dict_get (match row_fields r with
                                  | Some f => f
                                  | None => []
                                  end) field_name with
                  | Some c => c
                  | None => VStr []
                  end in
      match norm cell with
      | Ok x => if nonempty rid && str_eqb x v then Some rid
                else first_record norm field_name v rest
      | Raise _ => first_record norm field_name v rest
      end
  end.

(** 120 candidate values, distinct and not blank. *)
Definition candidates (n : nat) : list pystr :=
  map (fun i => txt "v" ++ str_of_int (Z.of_nat i)) (seq 0 n).

Definition biz_row (rid v : string) : row :=
  mkRow (Some (txt rid)) (Some [(txt "BizTaskID", VStr (txt v))]).

(** A store that knows two of the candidates, one of them twice: its first
    reply has two rows for [v3], its second one row for [v77], any later
    reply none. *)
Definition known_rows (n : nat) (q : request) : pyresult response * nat :=
  (Ok (page_reply (match n with
                   | O => [biz_row "recA" "v3"; biz_row "recB" "v3"]
                   | S O => [biz_row "recC" "v77"]
                   | _ => []
                   end) false []),
   S n).

Definition resolve_candidates (values : list pystr) :=
  Manager.resolve_existing_by_field nat known_rows Fetcher.clamp_page_size
    Fetcher.MAX_PAGE_SIZE Fetcher.bitable_value_to_string (txt "https://x")
    (txt "t-abc") sample_ref (txt "BizTaskID") values (fresh O).

(** The number of conditions of the filter each call of a journal carried. *)
Definition condition_counts (j : list (request * pyresult response)) : list nat :=
  map (fun entry =>
         match req_payload (fst entry) with
         | Some (VDict [(_, VDict [_; (_, VList conds)])]) => length conds
         | _ => O
         end) j.

Definition resolved (r : pyresult (dict pystr) * world nat) : dict pystr :=
  match fst r with
  | Ok existing => existing
  | Raise _ => []
  end.

(** What is on record for [v] once [rows] have been noted on top of
    [existing]. *)
Definition noted (norm : value -> pyresult pystr) (field_name : pystr)
    (existing : dict pystr) (rows : list row) (v : pystr) : option pystr :=
  match dict_get existing v with
  | Some r => Some r
  | None => if nonempty v then first_record norm field_name v rows else None
  end.

(** The cell of a row under a field, as the resolver reads it. *)
Definition cell_of (field_name : pystr) (r : row) : value :=
  match dict_get (match row_fields r with Some f => f | None => [] end)
          field_name with
  | Some c => c
  | None => VStr []
  end.

(** The text the decoder reads for a logical field: [get(name)]. *)
Definition payload_text (fields : dict value) (mapping : dict pystr)
    (logical : pystr) : pyresult pystr :=
  (n <- Fetcher.subscript mapping logical ;; Fetcher.field_string fields n)%py.

(** The task id the decoder reads. *)
Definition task_id_of (fields : dict value) (mapping : dict pystr) : pyresult Z :=
  (n <- Fetcher.subscript mapping (txt "TaskID") ;; Fetcher.field_int fields n)%py.

(* ===================================================================== *)
(** ** Data for further statements *)
(* ===================================================================== *)

(** A row with a task id and a URL only. *)
Definition url_only_row : dict value :=
  [(txt "TaskID", VInt 7); (txt "URL", VStr (txt "https://example/v/1"))].

(** What the decoder returned, none when it raised. *)
Definition decoded (r : pyresult (option (dict value))) : option (dict value) :=
  match r with
  | Ok t => t
  | Raise _ => None
  end.

(** The error [fetch_records] raises on a reply whose code is not 0. *)
Definition search_failed (resp : response) : exn :=
  mkExn RuntimeError
    (txt "search records failed: code=" ++ fmt_int (resp_code resp)
     ++ txt " msg=" ++ fmt_str (resp_msg resp)).

(** A journal entry whose reply the caller went on with. *)
Definition accepted_entry (entry : request * pyresult response) : bool :=
  accepted (snd entry).






(** The request of a single create. *)
Definition create_request (base_url token : pystr) (ref : BitableRef)
    (fields : dict value) : request :=
  mkReq (txt "POST") (Manager.records_url base_url ref) (Some token)
    (Some (VDict [(txt "fields", VDict fields)])).

(** The exception [create_record] ends with on a call that was not accepted. *)
Definition create_failure (o : pyresult response) : option exn :=
  match o with
  | Ok resp =>
      if code_not_zero resp then
        Some (mkExn RuntimeError
                (txt "create record failed" ++ txt ": code="
                 ++ fmt_int (resp_code resp) ++ txt " msg="
                 ++ fmt_str (resp_msg resp)))
      else None
  | Raise e => Some e
  end.

(** The exit code [main] returns for a list of errors. *)
Definition exit_code (errors : list pystr) : Z :=
  match errors with [] => 0 | _ => 1 end.

(** A store that accepts everything. *)
Definition accept_all (n : nat) (q : request) : pyresult response * nat :=
  (Ok (mkResp (Some 0) (Some (txt "success")) None), S n).

(** A text with no white space at either end. *)
Definition trimmed (s : pystr) : bool :=
  match s with
  | [] => true
  | c :: _ => negb (is_space c) && negb (is_space (last s 0))
  end.

(** A store that refuses everything. *)
Definition refuse_all (n : nat) (q : request) : pyresult response * nat :=
  (Ok (mkResp (Some 1254001) (Some (txt "WrongRequestBody")) None), S n).

(** Lower case on ASCII letters only, for the examples. *)
Definition lower_ascii (s : pystr) : pystr :=
  map (fun c => if (65 <=? c) && (c <=? 90) then c + 32 else c) s.

(** Three items for the second loop: one that matches on its record id, one
    with nothing to create, one to queue. *)
Definition queue_sample : list (dict value) :=
  [[(txt "record_id", VStr (txt " rec1 ")); (txt "app", VStr (txt "a"))];
   [(txt "record_id", VStr (txt "rec2"))];
   [(txt "record_id", VStr (txt "rec3")); (txt "app", VStr (txt "b"))]].

Definition queue_sample_run : pyresult Manager.queue :=
  Manager.queue_items Fetcher.bitable_value_to_string coerce_integer
    coerce_integer coerce_no_date extra_as_is default_fields
    [txt "RecordID"] (Manager.mkExisting [txt "rec1"] []) queue_sample
    (Manager.mkQueue [] [] 0).

Definition queued (r : pyresult Manager.queue) : Manager.queue :=
  match r with
  | Ok q => q
  | Raise _ => Manager.mkQueue [] [] 0
  end.

Definition plain_run : pyresult Manager.queue :=
  Manager.queue_items Fetcher.bitable_value_to_string coerce_integer
    coerce_integer coerce_no_date extra_as_is default_fields
    [] (Manager.mkExisting [] []) queue_sample (Manager.mkQueue [] [] 0).

(** An item that leaves its dispatched device and its start to the
    fallbacks, and gives a completion time and an elapsed time of its own. *)
Definition fallback_item : dict value :=
  [(txt "device_serial", VStr (txt " dev1 ")); (txt "dispatched_at", VInt 5);
   (txt "end_at", VInt 9); (txt "completed_at", VInt 7);
   (txt "elapsed_seconds", VInt 42);
   (txt "fields", VDict [(txt "Logs", VStr (txt "own")); (txt "Note", VInt 1)])].

(** The store answered the existence probe for [record_id] with code 0 in
    the calls [j]. *)
Definition confirmed (base_url token : pystr) (ref : BitableRef)
    (j : list (request * pyresult response)) (record_id : pystr) : Prop :=
  exists resp,
    In (probe_request base_url token ref record_id, Ok resp) j
    /\ Manager.code_is_zero resp = true.

(** A store that knows the record [rec1] only. *)
Definition knows_rec1 (n : nat) (q : request) : pyresult response * nat :=
  (if str_eqb (req_url q)
        (Manager.records_url (txt "https://x") sample_ref ++ txt "/rec1")
   then Ok (mkResp (Some 0) (Some (txt "success")) None)
   else Ok (mkResp (Some 1254043) (Some (txt "RecordIdNotFound")) None),
   S n).

Definition probe_sample :=
  Manager.note_items nat knows_rec1 Fetcher.bitable_value_to_string
    coerce_integer (txt "https://x") (txt "t-abc") sample_ref
    [txt "RecordID"] queue_sample (Manager.mkExisting [] []) (fresh O).

Definition noted_ids (r : pyresult Manager.existing) : list pystr :=
  match r with
  | Ok ex => Manager.existing_record_ids ex
  | Raise _ => []
  end.

(** The column a skip field is looked up under. *)
Definition column_of (field_map : dict pystr) (field_name : pystr) : pystr :=
  match dict_get field_map field_name with
  | Some column => column
  | None => field_name
  end.

(** The stripped record id of a row. *)
Definition row_id (r : row) : pystr :=
  strip (match record_id r with Some i => i | None => [] end).

(** One item to look up by its business id, against the store that knows
    the value [v3]. *)
Definition biz_item : dict value := [(txt "biz_task_id", VStr (txt " v3 "))].

Definition biz_values : dict (dict pystr) := [(txt "BizTaskID", [(txt "v3", [])])].

Definition biz_resolved :=
  Manager.resolve_fields nat known_rows Fetcher.clamp_page_size
    Fetcher.MAX_PAGE_SIZE Fetcher.bitable_value_to_string (txt "https://x")
    (txt "t-abc") sample_ref
    (Manager.skip_field_map default_fields [txt "BizTaskID"] [])
    biz_values biz_values (fresh O).

Definition resolved_fields (r : pyresult (dict (dict pystr)) * world nat)
    : dict (dict pystr) :=
  match fst r with
  | Ok by_field => by_field
  | Raise _ => []
  end.

(** The keys of a normalised item. *)
Definition merged_keys : list pystr :=
  map fst (Manager.normalize_item [] [] []).

(** The skip fields [extract_item_value] reads from a key of their own. *)
Definition special_skip_fields : list pystr :=
  [txt "TaskID"; txt "BizTaskID"; txt "RecordID"; txt "BookID"; txt "UserID";
   txt "App"; txt "Scene"].

(** The outcome of a match test that did not say yes. *)
Definition no_match (r : pyresult bool) : Prop :=
  r = Ok false \/ exists e, r = Raise e.

(** An item with a CDN URL and an extra payload of its own, and a member
    named after a column. *)
Definition cdn_item : dict value :=
  [(txt "app", VStr (txt "a")); (txt "extra", VStr (txt "own"));
   (txt "cdnUrl", VStr (txt " https://cdn/x "));
   (txt "Shelf", VInt 3)].

(** A field map with a column of its own. *)
Definition shelf_fields : dict pystr :=
  default_fields ++ [(txt "ShelfNo", txt "Shelf")].

Definition input_args : Manager.namespace := [(txt "input", txt "-")].

Definition cdn_built : pyresult (dict value) :=
  build_with_integers shelf_fields
    (Manager.normalize_item input_args shelf_fields cdn_item).

Definition status_queue : pyresult Manager.queue :=
  Manager.queue_items Fetcher.bitable_value_to_string coerce_integer
    coerce_integer coerce_no_date extra_as_is default_fields
    [txt "App"; txt "Status"]
    (Manager.mkExisting [] [(txt "App", [(txt "a", txt "rec1")])])
    (Manager.load_creates input_args default_fields [VDict cdn_item])
    (Manager.mkQueue [] [] 0).

(** The parts [urlparse] gives for the sample URL, and its query as
    [parse_qs] reads it. *)
Definition sample_urlparse (raw : pystr) : pystr * pystr * pystr :=
  (txt "https", txt "/wiki/base/ABC123/", txt "table=T1&view=%20").

Definition sample_parse_qs (query : pystr) : dict (list pystr) :=
  [(txt "table", [txt " "; txt " T1 "]); (txt "view", [txt " "])].

Definition sample_parse : pyresult BitableRef :=
  Fetcher.parse_bitable_url sample_urlparse sample_parse_qs
    (txt " https://x/wiki/base/ABC123/?table=T1&view=%20 ").

Definition parsed_ref (r : pyresult BitableRef) : BitableRef :=
  match r with
  | Ok ref => ref
  | Raise _ => mkRef [] [] [] [] []
  end.

(** The path of a URL, as [urlparse] gives it. *)
Definition path_of (urlparse : pystr -> pystr * pystr * pystr) (raw : pystr)
    : pystr :=
  snd (fst (urlparse (strip raw))).










(** The page size [fetch_records] asks for: the clamped size, or a positive
    limit below it. *)
Definition effective_page_size (page_size limit : Z) : Z :=
  if (limit >? 0) && (limit <? Fetcher.clamp_page_size page_size) then limit
  else Fetcher.clamp_page_size page_size.

(** The search a scan sends on a cursor. *)
Definition page_request (base_url token : pystr) (ref : BitableRef)
    (page_size : Z) (ignore_view : bool) (view_id : pystr)
    (filter_obj : option value) (cursor : pystr) : option request :=
  match Fetcher.search_query page_size cursor with
  | Ok qs =>
      Some (mkReq (txt "POST") (Fetcher.search_url base_url ref qs)
              (Some token) (Fetcher.search_body ignore_view view_id filter_obj))
  | Raise _ => None
  end.

(** The calls [delta] are a scan from [cursor]: each is the search on the
    cursor of the reply before it, and nothing follows a call that failed. *)
Fixpoint chained (request_on : pystr -> option request) (cursor : pystr)
    (delta : list (request * pyresult response)) : Prop :=
  match delta with
  | [] => True
  | (q, outcome) :: rest =>
      request_on cursor = Some q
      /\ match outcome with
         | Ok resp => chained request_on (cursor_of resp) rest
         | Raise _ => rest = []
         end
  end.

(** What is known of the head of the fetch script by the way it ended: it
    goes on to the scan with a reference and a token that are usable, and
    an exception it lets through is not a [RuntimeError]. *)
Definition head_ended (args_task_url : pystr)
    (r : pyresult Fetcher.head_outcome) : Prop :=
  match r with
  | Ok (Fetcher.Ready base_url ref token fields filter_obj) =>
      raw_url ref = strip args_task_url
      /\ app_token ref <> []
      /\ table_id ref <> []
      /\ token <> []
      /\ strip token = token
  | Ok (Fetcher.HeadExit2 message) => True
  | Raise e => is_subclass (exn_cls e) RuntimeError = false
  end.

(** *** The head of the fetch script, rule by rule *)

Section HeadRules.
Variable St : Type.
Variable send_token : St -> request -> pyresult Fetcher.token_reply * St.
Variable send_node : St -> request -> pyresult Fetcher.node_reply * St.
Variable urlparse : pystr -> pystr * pystr * pystr.
Variable parse_qs : pystr -> dict (list pystr).
Variable environ : dict pystr.
Variables args_task_url args_app args_scene args_status args_date : pystr.
Variable s : St.

Definition head_app_id : pystr := Fetcher.env environ (txt "FEISHU_APP_ID") [].

Definition head_app_secret : pystr :=
  Fetcher.env environ (txt "FEISHU_APP_SECRET") [].

Definition head_base_url : pystr :=
  Fetcher.env environ (txt "FEISHU_BASE_URL") Fetcher.DEFAULT_BASE_URL.

(** The call for a tenant token, and the lookup of a wiki node. *)
Definition token_request : request :=
  mkReq (txt "POST")
    (head_base_url ++ txt "/open-apis/auth/v3/tenant_access_token/internal")
    None
    (Some (VDict [(txt "app_id", VStr head_app_id);
                  (txt "app_secret", VStr head_app_secret)])).

Definition node_request (token wiki_token : pystr) : request :=
  mkReq (txt "GET")
    (head_base_url ++ txt "/open-apis/wiki/v2/spaces/get_node?token="
     ++ strip wiki_token)
    (Some token) None.

(** The script goes on to the scan with [ref] and [token], the base URL of
    the environment, and the fields and the filter built from the
    environment and the arguments. *)
Definition goes_on (ref : BitableRef) (token : pystr)
    : pyresult Fetcher.head_outcome :=
  Ok (Fetcher.Ready head_base_url ref token
        (Fetcher.load_task_fields_from_env environ)
        (Fetcher.build_filter (Fetcher.load_task_fields_from_env environ)
           args_app args_scene args_status args_date)).

(** The script prints [message] and exits with code 2. *)
Definition exits_2 (message : pystr) : pyresult Fetcher.head_outcome :=
  Ok (Fetcher.HeadExit2 message).

(** The task URL and the two credentials are there, and the URL parses to
    [ref]. *)
Definition configured (ref : BitableRef) : Prop :=
  strip args_task_url <> []
  /\ head_app_id <> []
  /\ head_app_secret <> []
  /\ Fetcher.parse_bitable_url urlparse parse_qs (strip args_task_url) = Ok ref.

(** The token of a reply, stripped. *)
Definition granted (resp : Fetcher.token_reply) : pystr :=
  strip (Fetcher.or_blank (Fetcher.tenant_access_token resp)).

(** The token call, made in [s], was answered with code 0 and the usable
    token [token], leaving the service in [s1]. *)
Definition token_granted (ref : BitableRef) (s1 : St) (token : pystr) : Prop :=
  configured ref
  /\ exists resp,
       send_token s token_request = (Ok resp, s1)
       /\ Fetcher.token_code resp = Some 0
       /\ token = granted resp
       /\ token <> [].

(** The node of a reply, and its type and token, stripped. *)
Definition node_of (resp : Fetcher.node_reply) : Fetcher.wiki_node :=
  match Fetcher.node_reply_data resp with
  | Some d =>
      match Fetcher.node d with
      | Some n => n
      | None => Fetcher.mkNode None None
      end
  | None => Fetcher.mkNode None None
  end.

Definition node_type (resp : Fetcher.node_reply) : pystr :=
  strip (Fetcher.or_blank (Fetcher.obj_type (node_of resp))).

Definition node_token (resp : Fetcher.node_reply) : pystr :=
  strip (Fetcher.or_blank (Fetcher.obj_token (node_of resp))).

(** With a token granted, the URL gave no app token but a wiki token, and
    the lookup of its node, made in [s1], had the outcome [o] and left the
    service in [s2]. *)
Definition wiki_asked (ref : BitableRef) (s1 s2 : St) (token : pystr)
    (o : pyresult Fetcher.node_reply) : Prop :=
  token_granted ref s1 token
  /\ app_token ref = []
  /\ strip (wiki_token ref) <> []
  /\ send_node s1 (node_request token (wiki_token ref)) = (o, s2).

(** The reference with the app token the wiki node gave. *)
Definition with_app_token (ref : BitableRef) (app : pystr) : BitableRef :=
  mkRef (raw_url ref) app (table_id ref) (view_id ref) (wiki_token ref).

(** The ways the head of the script ends, each with the state the service
    is left in. *)
Inductive head_rule : pyresult Fetcher.head_outcome * St -> Prop :=
| head_no_url :
    strip args_task_url = [] ->
    head_rule (exits_2 (txt "TASK_BITABLE_URL is required"), s)
| head_no_credentials :
    strip args_task_url <> [] ->
    head_app_id = [] \/ head_app_secret = [] ->
    head_rule (exits_2 (txt "FEISHU_APP_ID/FEISHU_APP_SECRET are required"), s)
| head_bad_url e :
    strip args_task_url <> [] ->
    head_app_id <> [] ->
    head_app_secret <> [] ->
    Fetcher.parse_bitable_url urlparse parse_qs (strip args_task_url) = Raise e ->
    exn_cls e = ValueError ->
    head_rule (Raise e, s)
| head_token_call_failed ref e s1 :
    configured ref ->
    send_token s token_request = (Raise e, s1) ->
    is_subclass (exn_cls e) RuntimeError = true ->
    head_rule (exits_2 (exn_msg e), s1)
| head_token_call_raised ref e s1 :
    configured ref ->
    send_token s token_request = (Raise e, s1) ->
    is_subclass (exn_cls e) RuntimeError = false ->
    head_rule (Raise e, s1)
| head_token_refused ref resp s1 :
    configured ref ->
    send_token s token_request = (Ok resp, s1) ->
    Fetcher.token_code resp <> Some 0 ->
    head_rule (exits_2 (txt "tenant token error: code="
                        ++ fmt_int (Fetcher.token_code resp) ++ txt " msg="
                        ++ fmt_str (Fetcher.token_msg resp)), s1)
| head_token_blank ref resp s1 :
    configured ref ->
    send_token s token_request = (Ok resp, s1) ->
    Fetcher.token_code resp = Some 0 ->
    granted resp = [] ->
    head_rule (exits_2 (txt "tenant token missing in response"), s1)
| head_ready_from_url ref s1 token :
    token_granted ref s1 token ->
    app_token ref <> [] ->
    head_rule (goes_on ref token, s1)
| head_no_app_token ref s1 token :
    token_granted ref s1 token ->
    app_token ref = [] ->
    wiki_token ref = [] ->
    head_rule (exits_2 (txt "bitable URL missing app_token and wiki_token"), s1)
| head_wiki_blank ref s1 token :
    token_granted ref s1 token ->
    app_token ref = [] ->
    wiki_token ref <> [] ->
    strip (wiki_token ref) = [] ->
    head_rule (exits_2 (txt "wiki token is empty"), s1)
| head_wiki_call_failed ref s1 s2 token e :
    wiki_asked ref s1 s2 token (Raise e) ->
    is_subclass (exn_cls e) RuntimeError = true ->
    head_rule (exits_2 (exn_msg e), s2)
| head_wiki_call_raised ref s1 s2 token e :
    wiki_asked ref s1 s2 token (Raise e) ->
    is_subclass (exn_cls e) RuntimeError = false ->
    head_rule (Raise e, s2)
| head_wiki_refused ref s1 s2 token resp :
    wiki_asked ref s1 s2 token (Ok resp) ->
    Fetcher.node_code resp <> Some 0 ->
    head_rule (exits_2 (txt "wiki node error: code="
                        ++ fmt_int (Fetcher.node_code resp) ++ txt " msg="
                        ++ fmt_str (Fetcher.node_msg resp)), s2)
| head_wiki_not_bitable ref s1 s2 token resp :
    wiki_asked ref s1 s2 token (Ok resp) ->
    Fetcher.node_code resp = Some 0 ->
    node_type resp <> txt "bitable" ->
    head_rule (exits_2 (txt "wiki node obj_type is " ++ node_type resp
                        ++ txt ", not bitable"), s2)
| head_wiki_no_token ref s1 s2 token resp :
    wiki_asked ref s1 s2 token (Ok resp) ->
    Fetcher.node_code resp = Some 0 ->
    node_type resp = txt "bitable" ->
    node_token resp = [] ->
    head_rule (exits_2 (txt "wiki node obj_token missing"), s2)
| head_ready_from_wiki ref s1 s2 token resp :
    wiki_asked ref s1 s2 token (Ok resp) ->
    Fetcher.node_code resp = Some 0 ->
    node_type resp = txt "bitable" ->
    node_token resp <> [] ->
    head_rule (goes_on (with_app_token ref (node_token resp)) token, s2).

End HeadRules.

(** A task URL that names a wiki node, a service that grants a token, and
    a wiki whose node is a bitable. *)
Definition wiki_urlparse (raw : pystr) : pystr * pystr * pystr :=
  (txt "https", txt "/wiki/WIKI9", txt "table=T1").

Definition wiki_parse_qs (query : pystr) : dict (list pystr) :=
  [(txt "table", [txt "T1"])].

Definition wiki_environ : dict pystr :=
  [(txt "FEISHU_APP_ID", txt "cli_a1"); (txt "FEISHU_APP_SECRET", txt "s3")].

Definition grant_token (n : nat) (q : request)
    : pyresult Fetcher.token_reply * nat :=
  (Ok (Fetcher.mkTokenReply (Some 0) (Some (txt "ok")) (Some (txt " t-abc "))),
   S n).

Definition bitable_node (n : nat) (q : request)
    : pyresult Fetcher.node_reply * nat :=
  (Ok (Fetcher.mkNodeReply (Some 0) (Some (txt "success"))
         (Some (Fetcher.mkNodeData
                  (Some (Fetcher.mkNode (Some (txt "bitable"))
                           (Some (txt " appX "))))))),
   S n).

Definition wiki_ref : BitableRef :=
  mkRef (txt "https://x/wiki/WIKI9?table=T1") [] (txt "T1") [] (txt "WIKI9").

(** A text with no white space at all. *)
Definition solid (s : pystr) : Prop := Forall (fun c => is_space c = false) s.

(** A part of a joined text: not empty, and trimmed. *)
Definition good (s : pystr) : Prop := nonempty s = true /\ trimmed s = true.

(** The normal form [norm] gives for a value, when it gives one, is
    trimmed. *)
Definition neat (norm : value -> pyresult pystr) (v : value) : Prop :=
  forall s, norm v = Ok s -> trimmed s = true.

(** A member of a list whose normal form is trimmed, and so are those of
    its own members when it is a dict. *)
Definition member_neat (norm : value -> pyresult pystr) (item : value)
    : Prop :=
  neat norm item
  /\ match item with
     | VDict d => Forall (fun kv => neat norm (snd kv)) d
     | _ => True
     end.

(** The journal of [w'] continues the journal of [w]. *)
Definition continues {St} (w w' : world St) : Prop :=
  exists delta, journal w' = journal w ++ delta.

(** Every record id taken as existing was confirmed by the store. *)
Definition all_confirmed {St} (base_url token : pystr) (ref : BitableRef)
    (ex : Manager.existing) (w : world St) : Prop :=
  forall rid, In rid (Manager.existing_record_ids ex) ->
              confirmed base_url token ref (journal w) rid.

(** Every value of [found] is the normal form of the cell under [column] of
    a row with a record id that the calls [j] delivered. *)
Definition backed (norm : value -> pyresult pystr) (column : pystr)
    (found : dict pystr) (j : list (request * pyresult response)) : Prop :=
  forall v, dict_has found v = true ->
    exists r, In r (received j)
              /\ norm (cell_of column r) = Ok v
              /\ row_id r <> [].

(* ===================================================================== *)
(** ** Basic facts *)
(* ===================================================================== *)

Lemma str_eqb_eq (a b : pystr) : str_eqb a b = true <-> a = b.
Proof.
  revert b; induction a as [|x a IH]; intros [|y b]; simpl; split;
    try congruence; try reflexivity.
  - intros H. apply andb_true_iff in H as [Hx Hr].
    apply Z.eqb_eq in Hx. apply IH in Hr. congruence.
  - intros H. injection H as -> ->. rewrite Z.eqb_refl. simpl. now apply IH.
Qed.

Lemma str_eqb_refl (a : pystr) : str_eqb a a = true.
Proof. now apply str_eqb_eq. Qed.

Lemma str_eqb_neq (a b : pystr) : str_eqb a b = false <-> a <> b.
Proof.
  split.
  - intros H E. apply str_eqb_eq in E. congruence.
  - intros H. destruct (str_eqb a b) eqn:E; [|reflexivity].
    apply str_eqb_eq in E. contradiction.
Qed.

Lemma bind_ok {A B} (a : A) (k : A -> pyresult B) : bind (Ok a) k = k a.
Proof. reflexivity. Qed.

Lemma nonempty_false (s : pystr) : nonempty s = false <-> s = [].
Proof. destruct s; simpl; split; congruence. Qed.

Lemma nonempty_true (s : pystr) : nonempty s = true <-> s <> [].
Proof. destruct s; simpl; split; congruence. Qed.

(* ===================================================================== *)
(** ** The value normaliser on booleans *)
(* ===================================================================== *)

(** C1. On a boolean the normaliser answers through its [int] branch, which
    stands before the [bool] branch: [True] gives the text [True] and
    [False] the text [False], not the lower-case texts of the [bool] branch. *)
Theorem normalize_bool_takes_int_branch :
  Fetcher.normalize_bitable_value (VBool true) = Ok (txt "True")
  /\ Fetcher.normalize_bitable_value (VBool false) = Ok (txt "False")
  /\ txt "True" <> txt "true" /\ txt "False" <> txt "false".
Proof. repeat split; try reflexivity; discriminate. Qed.

(* ===================================================================== *)
(** ** The filter builder *)
(* ===================================================================== *)

(** C10. With the date preset [Any], or an empty one, the filter is the one
    built from the App, Scene and Status terms alone, whatever the field map
    says of Date; with nothing else to filter on, there is no filter. *)
Theorem build_filter_any_date_is_unfiltered :
  forall (fields : dict pystr) (app scene status : pystr),
    let terms := Fetcher.add fields (txt "App") app
                 ++ Fetcher.add fields (txt "Scene") scene
                 ++ Fetcher.add fields (txt "Status") status in
    Fetcher.build_filter fields app scene status (txt "Any") = conjunction_of terms
    /\ Fetcher.build_filter fields app scene status [] = conjunction_of terms
    /\ Fetcher.build_filter fields [] [] [] (txt "Any") = None
    /\ Fetcher.build_filter default_fields [] [] [] (txt "Today")
       = Some (VDict [(txt "conjunction", VStr (txt "and"));
                      (txt "conditions",
                       VList [Fetcher.condition (txt "Date") (txt "Today")])]).
Proof.
  intros fields app scene status terms.
  assert (Hany : forall a s st,
             Fetcher.build_filter fields a s st (txt "Any")
             = conjunction_of (Fetcher.add fields (txt "App") a
                               ++ Fetcher.add fields (txt "Scene") s
                               ++ Fetcher.add fields (txt "Status") st)).
  { intros a s st. unfold Fetcher.build_filter.
    change (nonempty (txt "Any") && negb (str_eqb (txt "Any") (txt "Any")))
      with false.
    cbv iota. now rewrite !app_nil_r. }
  split; [|split; [|split]].
  - apply Hany.
  - unfold Fetcher.build_filter. simpl nonempty. cbv iota.
    simpl andb. cbv iota. now rewrite !app_nil_r.
  - rewrite Hany. unfold Fetcher.add.
    assert (E : nonempty (strip []) = false) by reflexivity.
    rewrite E, !andb_false_r. reflexivity.
  - reflexivity.
Qed.

(* ===================================================================== *)
(** ** The task decoder *)
(* ===================================================================== *)

(** C3. A row whose TaskID cell reads [inf], with a URL: the decoder does
    not answer none, it raises the [OverflowError] that [int(float(...))]
    raises on an infinity and that [except ValueError] does not catch. *)
Theorem decode_task_infinite_id_raises :
  Fetcher.decode_task
    [(txt "TaskID", VStr (txt "inf")); (txt "URL", VStr (txt "u"))]
    default_fields
  = Raise (mkExn OverflowError (txt "cannot convert float infinity to integer")).
Proof. vm_compute. reflexivity. Qed.

(* ===================================================================== *)
(** ** The paginated fetcher *)
(* ===================================================================== *)

Lemma request_json_journal {St} (send : St -> request -> pyresult response * St)
    m u t p (w w' : world St) r :
  request_json send m u t p w = (r, w') ->
  journal w' = journal w ++ [(mkReq m u t p, r)].
Proof.
  unfold request_json. destruct (send (store w) _) as [r0 s']. intros H.
  injection H as <- <-. reflexivity.
Qed.

Lemma received_app j1 j2 : received (j1 ++ j2) = received j1 ++ received j2.
Proof. unfold received. apply flat_map_app. Qed.

Lemma received_ok q resp : received [(q, Ok resp)] = batch_of resp.
Proof. unfold received. simpl. apply app_nil_r. Qed.

Lemma len_app {A} (a b : list A) : Fetcher.len (a ++ b) = Fetcher.len a + Fetcher.len b.
Proof. unfold Fetcher.len. rewrite length_app. lia. Qed.

Lemma len_nonneg {A} (a : list A) : 0 <= Fetcher.len a.
Proof. unfold Fetcher.len. lia. Qed.

Lemma len_upto {A} (n : Z) (l : list A) :
  0 <= n -> Fetcher.len (Fetcher.upto n l) = Z.min n (Fetcher.len l).
Proof.
  intros Hn. unfold Fetcher.len, Fetcher.upto. rewrite length_firstn. lia.
Qed.

Lemma upto_all {A} (n : Z) (l : list A) :
  Fetcher.len l <= n -> Fetcher.upto n l = l.
Proof.
  intros H. unfold Fetcher.upto. apply firstn_all2. unfold Fetcher.len in H. lia.
Qed.

Section FetchFacts.
Variable St : Type.
Variable send : St -> request -> pyresult response * St.
Variables (base_url token : pystr) (ref : BitableRef) (page_size limit : Z)
          (ignore_view : bool) (view_id : pystr) (filter_obj : option value)
          (max_pages : Z).

Let loop := Fetcher.fetch_loop St send base_url token ref page_size limit
              ignore_view view_id filter_obj max_pages.

(** Where the loop stops: the journal grew by the calls of the scan, all but
    the last of which left the accumulated rows under a positive limit; the
    rows are those received, cut at the limit; the cursor is the one of the
    last reply; the page counter counted the calls. *)
Lemma fetch_loop_stops fuel :
  forall items page_token pages (w w' : world St) rows cursor pages',
    loop fuel items page_token pages w = Some (Ok (rows, cursor, pages'), w') ->
    (0 < limit -> Fetcher.len items < limit) ->
    exists j q resp,
      journal w' = journal w ++ j ++ [(q, Ok resp)]
      /\ (0 < limit -> Fetcher.len (items ++ received j) < limit)
      /\ rows = (if 0 <? limit
                 then Fetcher.upto limit (items ++ received (j ++ [(q, Ok resp)]))
                 else items ++ received (j ++ [(q, Ok resp)]))
      /\ cursor = cursor_of resp
      /\ pages' = pages + Fetcher.len (j ++ [(q, Ok resp)]).
Proof.
  induction fuel as [|fuel IH]; intros items page_token pages w w' rows cursor
    pages' H Hlt; [discriminate|].
  unfold loop in H. simpl in H.
  destruct (Fetcher.search_query page_size page_token) as [qs|e]; [|discriminate].
  destruct (request_json send _ _ _ _ w) as [[resp|e] w1] eqn:Ereq; [|discriminate].
  apply request_json_journal in Ereq.
  destruct (code_not_zero resp); [discriminate|].
  set (batch := Fetcher.or_empty _) in H.
  assert (Hb : batch = batch_of resp).
  { unfold batch, batch_of. destruct (resp_data resp); reflexivity. }
  set (tok := strip _) in H.
  assert (Ht : tok = cursor_of resp).
  { unfold tok, cursor_of. destruct (resp_data resp); reflexivity. }
  clearbody batch tok. subst batch tok.
  match type of Ereq with _ = _ ++ [(?q0, _)] => set (q := q0) in * end.
  assert (Hstop : forall rs, (rs = if 0 <? limit
                                   then Fetcher.upto limit (items ++ batch_of resp)
                                   else items ++ batch_of resp) ->
            exists j q0 resp0,
              journal w1 = journal w ++ j ++ [(q0, Ok resp0)]
              /\ (0 < limit -> Fetcher.len (items ++ received j) < limit)
              /\ rs = (if 0 <? limit
                       then Fetcher.upto limit (items ++ received (j ++ [(q0, Ok resp0)]))
                       else items ++ received (j ++ [(q0, Ok resp0)]))
              /\ cursor_of resp = cursor_of resp0
              /\ pages + 1 = pages + Fetcher.len (j ++ [(q0, Ok resp0)])).
  { intros rs Hrs. exists [], q, resp. simpl app. rewrite !app_nil_r.
    repeat split; auto. }
  destruct ((limit >? 0) && (Fetcher.len (items ++ batch_of resp) >=? limit)) eqn:Elim.
  { injection H as <- <- <- <-. apply Hstop.
    apply andb_true_iff in Elim as [E1 E2].
    apply Z.gtb_lt in E1. apply Z.ltb_lt in E1. now rewrite E1. }
  assert (Hunder : 0 < limit -> Fetcher.len (items ++ batch_of resp) < limit).
  { intros Hl. apply andb_false_iff in Elim as [E|E].
    - rewrite Z.gtb_ltb in E. rewrite Z.ltb_ge in E. lia.
    - rewrite Z.geb_leb in E. apply Z.leb_gt in E. exact E. }
  assert (Hall : (if 0 <? limit
                  then Fetcher.upto limit (items ++ batch_of resp)
                  else items ++ batch_of resp) = items ++ batch_of resp).
  { destruct (0 <? limit) eqn:E; [|reflexivity].
    apply Z.ltb_lt in E. apply upto_all. specialize (Hunder E). lia. }
  destruct ((max_pages >? 0) && (pages + 1 >=? max_pages)).
  { injection H as <- <- <- <-. apply Hstop. now rewrite Hall. }
  destruct (negb _ || negb _).
  { injection H as <- <- <- <-. apply Hstop. now rewrite Hall. }
  apply IH in H; [|exact Hunder].
  destruct H as (j & q0 & resp0 & Hj & Hbelow & Hrows & Hcur & Hpages).
  exists ((q, Ok resp) :: j), q0, resp0.
  rewrite Hj, Ereq. simpl app. rewrite <- !app_assoc. simpl app.
  split; [reflexivity|].
  change ((q, Ok resp) :: j ++ [(q0, Ok resp0)])
    with ([(q, Ok resp)] ++ (j ++ [(q0, Ok resp0)])).
  change ((q, Ok resp) :: j) with ([(q, Ok resp)] ++ j).
  rewrite !received_app, received_ok.
  rewrite <- !app_assoc in *. rewrite received_app in Hrows.
  rewrite !len_app in *.
  split; [|split; [|split]].
  - intros Hl. specialize (Hbelow Hl). lia.
  - rewrite received_ok in Hrows. exact Hrows.
  - exact Hcur.
  - rewrite Hpages. unfold Fetcher.len. simpl length. lia.
Qed.

End FetchFacts.

Section FetchTheorems.
Variable St : Type.
Variable send : St -> request -> pyresult response * St.

(** More fuel does not change a scan that stopped. *)
Lemma fetch_loop_fuel_mono base_url token ref page_size limit ignore_view
    view_id filter_obj max_pages fuel :
  forall fuel' items page_token pages (w : world St) r,
    Fetcher.fetch_loop St send base_url token ref page_size limit ignore_view
      view_id filter_obj max_pages fuel items page_token pages w = Some r ->
    (fuel <= fuel')%nat ->
    Fetcher.fetch_loop St send base_url token ref page_size limit ignore_view
      view_id filter_obj max_pages fuel' items page_token pages w = Some r.
Proof.
  induction fuel as [|fuel IH]; intros fuel' items page_token pages w r H Hle;
    [discriminate|].
  destruct fuel' as [|fuel']; [lia|].
  simpl in H |- *.
  destruct (Fetcher.search_query page_size page_token); [|exact H].
  destruct (request_json send _ _ _ _ w) as [[resp|e] w1]; [|exact H].
  destruct (code_not_zero resp); [exact H|].
  destruct (_ && _); [exact H|].
  destruct (_ && _); [exact H|].
  destruct (_ || _); [exact H|].
  apply IH; [exact H|lia].
Qed.

Lemma fetch_records_fuel_mono base_url token ref page_size limit ignore_view
    view_id filter_obj max_pages fuel fuel' (w : world St) r :
  Fetcher.fetch_records St send fuel base_url token ref page_size limit
    ignore_view view_id filter_obj max_pages w = Some r ->
  (fuel <= fuel')%nat ->
  Fetcher.fetch_records St send fuel' base_url token ref page_size limit
    ignore_view view_id filter_obj max_pages w = Some r.
Proof.
  unfold Fetcher.fetch_records. intros H Hle.
  destruct (Fetcher.fetch_loop _ _ _ _ _ _ _ _ _ _ _ fuel _ _ _ _) as [r0|] eqn:E;
    [|discriminate].
  now rewrite (fetch_loop_fuel_mono _ _ _ _ _ _ _ _ _ _ _ _ _ _ _ _ E Hle).
Qed.

(** What [fetch_records] returns, read off the journal of its calls. *)
Lemma fetch_records_returns fuel base_url token ref page_size limit ignore_view
    view_id filter_obj max_pages (w w' : world St) rows info :
  Fetcher.fetch_records St send fuel base_url token ref page_size limit
    ignore_view view_id filter_obj max_pages w = Some (Ok (rows, info), w') ->
  exists j q resp,
    journal w' = journal w ++ j ++ [(q, Ok resp)]
    /\ (0 < limit -> Fetcher.len (received j) < limit)
    /\ rows = (if 0 <? limit
               then Fetcher.upto limit (received (j ++ [(q, Ok resp)]))
               else received (j ++ [(q, Ok resp)]))
    /\ Fetcher.next_page_token info = cursor_of resp
    /\ Fetcher.has_more info = nonempty (cursor_of resp)
    /\ Fetcher.pages info = Fetcher.len (j ++ [(q, Ok resp)]).
Proof.
  unfold Fetcher.fetch_records. intros H.
  destruct (Fetcher.fetch_loop _ _ _ _ _ _ _ _ _ _ _ _ _ _ _ _)
    as [[[[[rows0 cursor] pages']|e] w1]|] eqn:E; try discriminate.
  injection H as <- <- <-.
  apply fetch_loop_stops in E; [|intros; unfold Fetcher.len; simpl; lia].
  destruct E as (j & q & resp & Hj & Hbelow & Hrows & Hcur & Hpages).
  exists j, q, resp. simpl app in *. simpl. subst cursor.
  repeat split; auto.
Qed.

End FetchTheorems.

(** C4. Whenever a fetch returns, the cursor it reports is the one of the
    last reply received, and its [has_more] flag is true exactly when that
    cursor is not empty; the flag the store sent does not enter. *)
Theorem fetch_has_more_is_cursor_presence :
  forall (St : Type) (send : St -> request -> pyresult response * St)
         fuel base_url token ref page_size limit ignore_view view_id filter_obj
         max_pages (w w' : world St) rows info,
    Fetcher.fetch_records St send fuel base_url token ref page_size limit
      ignore_view view_id filter_obj max_pages w = Some (Ok (rows, info), w') ->
    exists j q resp,
      journal w' = journal w ++ j ++ [(q, Ok resp)]
      /\ Fetcher.next_page_token info = cursor_of resp
      /\ (Fetcher.has_more info = true <-> cursor_of resp <> []).
Proof.
  intros St send fuel base_url token ref page_size limit ignore_view view_id
    filter_obj max_pages w w' rows info H.
  apply fetch_records_returns in H.
  destruct H as (j & q & resp & Hj & _ & _ & Hcur & Hmore & _).
  exists j, q, resp. repeat split; auto.
  - rewrite Hmore. apply nonempty_true.
  - rewrite Hmore. apply nonempty_true.
Qed.

(** A store that says there is nothing more and still hands out a cursor:
    the fetch reports [has_more]. *)
Lemma fetch_has_more_witness :
  (exists j q resp,
      journal (world_of (fresh tt) scan_stale_cursor)
      = journal (fresh tt) ++ j ++ [(q, Ok resp)]
      /\ Fetcher.next_page_token (info_of scan_stale_cursor) = cursor_of resp
      /\ (Fetcher.has_more (info_of scan_stale_cursor) = true
          <-> cursor_of resp <> []))
  /\ Fetcher.has_more (info_of scan_stale_cursor) = true
  /\ map (fun entry => match snd entry with
                       | Ok resp => option_map data_has_more (resp_data resp)
                       | Raise _ => None
                       end)
         (journal (world_of (fresh tt) scan_stale_cursor))
     = [Some (Some false)].
Proof.
  split; [|split; reflexivity].
  apply (fetch_has_more_is_cursor_presence unit stale_cursor 1%nat (txt "https://x")
           (txt "t-abc") sample_ref 200 0 true [] None 0 (fresh tt)
           (world_of (fresh tt) scan_stale_cursor) (rows_of scan_stale_cursor)
           (info_of scan_stale_cursor)).
  reflexivity.
Defined.

(** The page that brings the accumulated rows to a positive limit ends the
    loop at once, with the first [limit] rows. *)
Lemma fetch_loop_stops_at_limit :
  forall (St : Type) (send : St -> request -> pyresult response * St)
         base_url token ref page_size limit ignore_view view_id filter_obj
         max_pages fuel items page_token pages (w : world St) qs resp s',
    0 < limit ->
    Fetcher.search_query page_size page_token = Ok qs ->
    send (store w)
      (mkReq (txt "POST") (Fetcher.search_url base_url ref qs) (Some token)
         (Fetcher.search_body ignore_view view_id filter_obj)) = (Ok resp, s') ->
    code_not_zero resp = false ->
    limit <= Fetcher.len (items ++ batch_of resp) ->
    Fetcher.fetch_loop St send base_url token ref page_size limit ignore_view
      view_id filter_obj max_pages (S fuel) items page_token pages w
    = Some (Ok (Fetcher.upto limit (items ++ batch_of resp), cursor_of resp,
                pages + 1),
            mkWorld s'
              (journal w
               ++ [(mkReq (txt "POST") (Fetcher.search_url base_url ref qs)
                      (Some token)
                      (Fetcher.search_body ignore_view view_id filter_obj),
                    Ok resp)]))
    /\ Fetcher.len (Fetcher.upto limit (items ++ batch_of resp)) = limit.
Proof.
  intros St send base_url token ref page_size limit ignore_view view_id
    filter_obj max_pages fuel items page_token pages w qs resp s' Hl Hq Hs Hc Hge.
  split; [|rewrite len_upto by lia; lia].
  simpl. rewrite Hq. unfold request_json. rewrite Hs, Hc.
  replace (Fetcher.or_empty _) with (batch_of resp)
    by (unfold batch_of; now destruct (resp_data resp)).
  replace (strip _) with (cursor_of resp)
    by (unfold cursor_of; now destruct (resp_data resp)).
  assert (E : (limit >? 0) && (Fetcher.len (items ++ batch_of resp) >=? limit)
              = true).
  { apply andb_true_iff. split; [apply Z.gtb_lt; lia|].
    rewrite Z.geb_leb. apply Z.leb_le. lia. }
  now rewrite E.
Qed.

(** C6. Under a positive limit a fetch that returns has stopped at the first
    page that brought the accumulated rows to the limit or beyond, and
    returns the first [limit] of them; the three-page store gives its six
    rows in three pages without a limit, and exactly four rows with limit 4. *)
Theorem fetch_limit_truncates :
  (forall (St : Type) (send : St -> request -> pyresult response * St)
          fuel base_url token ref page_size limit ignore_view view_id filter_obj
          max_pages (w w' : world St) rows info,
      0 < limit ->
      Fetcher.fetch_records St send fuel base_url token ref page_size limit
        ignore_view view_id filter_obj max_pages w = Some (Ok (rows, info), w') ->
      exists j last,
        journal w' = journal w ++ j ++ [last]
        /\ Fetcher.len (received j) < limit
        /\ rows = Fetcher.upto limit (received (j ++ [last]))
        /\ Fetcher.len rows <= limit
        /\ (limit <= Fetcher.len (received (j ++ [last])) ->
            Fetcher.len rows = limit)
        /\ Fetcher.pages info = Fetcher.len (j ++ [last]))
  /\ (forall (St : Type) (send : St -> request -> pyresult response * St)
          base_url token ref page_size limit ignore_view view_id filter_obj
          max_pages fuel items page_token pages (w : world St) qs resp s',
        0 < limit ->
        Fetcher.search_query page_size page_token = Ok qs ->
        send (store w)
          (mkReq (txt "POST") (Fetcher.search_url base_url ref qs) (Some token)
             (Fetcher.search_body ignore_view view_id filter_obj))
        = (Ok resp, s') ->
        code_not_zero resp = false ->
        limit <= Fetcher.len (items ++ batch_of resp) ->
        Fetcher.fetch_loop St send base_url token ref page_size limit
          ignore_view view_id filter_obj max_pages (S fuel) items page_token
          pages w
        = Some (Ok (Fetcher.upto limit (items ++ batch_of resp),
                    cursor_of resp, pages + 1),
                mkWorld s'
                  (journal w
                   ++ [(mkReq (txt "POST") (Fetcher.search_url base_url ref qs)
                          (Some token)
                          (Fetcher.search_body ignore_view view_id filter_obj),
                        Ok resp)]))
        /\ Fetcher.len (Fetcher.upto limit (items ++ batch_of resp)) = limit)
  /\ (forall fuel, (3 <= fuel)%nat ->
        scan_outcome (scan_three_pages fuel 0 0)
        = Some (map numbered_row [1; 2; 3; 4; 5; 6],
                Fetcher.mkPageInfo false [] 3, 3%nat))
  /\ (forall fuel, (2 <= fuel)%nat ->
        scan_outcome (scan_three_pages fuel 4 0)
        = Some (map numbered_row [1; 2; 3; 4],
                Fetcher.mkPageInfo true (txt "p3") 2, 2%nat)).
Proof.
  split; [|split; [|split]].
  - intros St send fuel base_url token ref page_size limit ignore_view view_id
      filter_obj max_pages w w' rows info Hl H.
    apply fetch_records_returns in H.
    destruct H as (j & q & resp & Hj & Hbelow & Hrows & _ & _ & Hpages).
    exists j, (q, Ok resp).
    assert (E : (0 <? limit) = true) by now apply Z.ltb_lt.
    rewrite E in Hrows.
    repeat split; auto.
    + subst rows. rewrite len_upto by lia. lia.
    + intros Hge. subst rows. rewrite len_upto by lia. lia.
  - exact fetch_loop_stops_at_limit.
  - intros fuel Hf. unfold scan_three_pages.
    assert (E : scan_three_pages 3%nat 0 0 =
                Some (Ok (map numbered_row [1; 2; 3; 4; 5; 6],
                          Fetcher.mkPageInfo false [] 3),
                      world_of (fresh tt) (scan_three_pages 3%nat 0 0)))
      by (vm_compute; reflexivity).
    rewrite (fetch_records_fuel_mono _ _ _ _ _ _ _ _ _ _ _ _ _ _ _ E Hf).
    vm_compute. reflexivity.
  - intros fuel Hf. unfold scan_three_pages.
    assert (E : scan_three_pages 2%nat 4 0 =
                Some (Ok (map numbered_row [1; 2; 3; 4],
                          Fetcher.mkPageInfo true (txt "p3") 2),
                      world_of (fresh tt) (scan_three_pages 2%nat 4 0)))
      by (vm_compute; reflexivity).
    rewrite (fetch_records_fuel_mono _ _ _ _ _ _ _ _ _ _ _ _ _ _ _ E Hf).
    vm_compute. reflexivity.
Qed.

(** The three-page store under limit 4: the fetch stops at the second page
    with four rows. *)
Lemma fetch_limit_witness :
  exists j last,
    journal (world_of (fresh tt) (scan_three_pages 2%nat 4 0))
    = journal (fresh tt) ++ j ++ [last]
    /\ Fetcher.len (received j) < 4
    /\ rows_of (scan_three_pages 2%nat 4 0) = Fetcher.upto 4 (received (j ++ [last]))
    /\ Fetcher.len (rows_of (scan_three_pages 2%nat 4 0)) <= 4
    /\ (4 <= Fetcher.len (received (j ++ [last])) ->
        Fetcher.len (rows_of (scan_three_pages 2%nat 4 0)) = 4)
    /\ Fetcher.pages (info_of (scan_three_pages 2%nat 4 0)) = Fetcher.len (j ++ [last]).
Proof.
  apply (proj1 fetch_limit_truncates unit three_pages 2%nat (txt "https://x")
           (txt "t-abc") sample_ref 200 4 true [] None 0 (fresh tt)
           (world_of (fresh tt) (scan_three_pages 2%nat 4 0))
           (rows_of (scan_three_pages 2%nat 4 0))
           (info_of (scan_three_pages 2%nat 4 0))).
  - lia.
  - reflexivity.
Defined.

(* ===================================================================== *)
(** ** The existence probe *)
(* ===================================================================== *)

(** C9. The probe answers with a boolean; when the lookup fails, by any
    exception of the transport or of the decoding, the answer is [false]
    and nothing is raised; a blank record id is answered [false] without a
    call. *)
Theorem record_exists_absorbs_failures :
  forall (St : Type) (send : St -> request -> pyresult response * St)
         base_url token ref record_id (w : world St),
    (forall e, fst (send (store w) (probe_request base_url token ref record_id))
               = Raise e ->
               is_subclass (exn_cls e) Exception = true) ->
    exists b w',
      Manager.record_exists St send base_url token ref record_id w = (Ok b, w')
      /\ (forall e, fst (send (store w) (probe_request base_url token ref record_id))
                    = Raise e -> strip record_id <> [] ->
                    b = false
                    /\ journal w' = journal w
                         ++ [(probe_request base_url token ref record_id, Raise e)])
      /\ (strip record_id = [] -> b = false /\ w' = w).
Proof.
  intros St send base_url token ref record_id w Hexc.
  unfold Manager.record_exists. cbv zeta.
  destruct (nonempty (strip record_id)) eqn:En;
    cbv beta iota zeta delta [negb rbind rtry request_json ret].
  - apply nonempty_true in En.
    fold (probe_request base_url token ref record_id).
    destruct (send (store w) (probe_request base_url token ref record_id))
      as [[resp|e] s'] eqn:Es.
    + eexists _, _. split; [reflexivity|]. split.
      * intros e He. discriminate.
      * intros E. contradiction.
    + simpl in Hexc. simpl exn_cls. rewrite (Hexc e eq_refl).
      eexists _, _. split; [reflexivity|]. split.
      * intros e0 He0 _. simpl in He0. injection He0 as <-. split; reflexivity.
      * intros E. contradiction.
  - apply nonempty_false in En. exists false, w. split; [reflexivity|]. split.
    + intros e _ Hne. contradiction.
    + intros _. split; reflexivity.
Qed.

(** On a transport that cannot reach the store the probe answers [false]. *)
Lemma record_exists_witness :
  exists b w',
    Manager.record_exists unit unreachable (txt "https://x") (txt "t-abc")
      sample_ref (txt "rec123") (fresh tt) = (Ok b, w')
    /\ (forall e, fst (unreachable (store (fresh tt))
                         (probe_request (txt "https://x") (txt "t-abc")
                            sample_ref (txt "rec123"))) = Raise e ->
                  strip (txt "rec123") <> [] ->
                  b = false
                  /\ journal w' = journal (fresh tt)
                       ++ [(probe_request (txt "https://x") (txt "t-abc")
                              sample_ref (txt "rec123"), Raise e)])
    /\ (strip (txt "rec123") = [] -> b = false /\ w' = fresh tt).
Proof.
  apply (record_exists_absorbs_failures unit unreachable (txt "https://x")
           (txt "t-abc") sample_ref (txt "rec123") (fresh tt)).
  intros e He. simpl in He. injection He as <-. reflexivity.
Defined.

(* ===================================================================== *)
(** ** Ranges and slices *)
(* ===================================================================== *)

Lemma range_from_bound fuel : forall i stop step x,
  In x (Manager.range_from fuel i stop step) -> (x < stop)%nat.
Proof.
  induction fuel as [|fuel IH]; intros i stop step x H; simpl in H; [contradiction|].
  destruct (i <? stop)%nat eqn:E; [|contradiction].
  destruct H as [<-|H]; [now apply Nat.ltb_lt|eauto].
Qed.


Lemma length_slice {A} (l : list A) (i j : nat) :
  length (Manager.slice l i j) = Nat.min (j - i) (length l - i).
Proof. unfold Manager.slice. now rewrite length_firstn, length_skipn. Qed.


(* ===================================================================== *)
(** ** The batch create dispatch *)
(* ===================================================================== *)

Section CreateFacts.
Variable St : Type.
Variable send : St -> request -> pyresult response * St.
Variables (base_url token : pystr) (ref : BitableRef).

Lemma serve_length (reqs : list request) : forall s,
  length (serve send s reqs) = length reqs.
Proof.
  induction reqs as [|q reqs IH]; intros s; simpl; [reflexivity|].
  destruct (send s q) as [o s']. simpl. now rewrite IH.
Qed.

(** One batch call: its outcome follows the transport's. *)
Lemma batch_create_records_run (batch : list (dict value)) (w : world St) :
  let q := batch_request base_url token ref batch in
  let o := fst (send (store w) q) in
  let w1 := mkWorld (snd (send (store w) q)) (journal w ++ [(q, o)]) in
  Manager.batch_create_records St send base_url token ref batch w
  = (match batch_failure o with
     | Some e => Raise e
     | None => Ok tt
     end, w1).
Proof.
  unfold Manager.batch_create_records, rbind, request_json, Manager.check_code,
    batch_failure. cbv zeta.
  fold (batch_request base_url token ref batch).
  destruct (send (store w) (batch_request base_url token ref batch))
    as [[resp|e] s']; simpl; [|reflexivity].
  destruct (code_not_zero resp); reflexivity.
Qed.

Lemma accepted_no_failure o : accepted o = true -> batch_failure o = None.
Proof.
  destruct o as [resp|e]; simpl; [|discriminate].
  now destruct (code_not_zero resp).
Qed.


(** When every call is accepted the loop sends every batch and counts every
    record. *)
Lemma create_batches_all_accepted (batches : list (list (dict value))) :
  forall created (w : world St),
    forallb accepted
      (serve send (store w) (map (batch_request base_url token ref) batches))
    = true ->
    Manager.create_batches St send base_url token ref batches created w
    = (created + Fetcher.len (concat batches), Ok tt,
       mkWorld (served send (store w)
                  (map (batch_request base_url token ref) batches))
         (journal w
          ++ combine (map (batch_request base_url token ref) batches)
               (serve send (store w)
                  (map (batch_request base_url token ref) batches)))).
Proof.
  induction batches as [|b batches IH]; intros created w Hacc.
  - simpl. unfold Fetcher.len. simpl. rewrite Z.add_0_r, app_nil_r.
    now destruct w.
  - simpl in Hacc |- *.
    rewrite batch_create_records_run.
    destruct (send (store w) (batch_request base_url token ref b)) as [o0 s'] eqn:Es.
    simpl in Hacc. apply andb_true_iff in Hacc as [Ha Hacc].
    simpl fst. simpl snd. rewrite (accepted_no_failure _ Ha).
    rewrite IH by exact Hacc. simpl. rewrite <- app_assoc. simpl.
    rewrite len_app. f_equal. f_equal. lia.
Qed.

End CreateFacts.




(* ===================================================================== *)
(** ** The value normaliser on bytes *)
(* ===================================================================== *)

(** C2. The normaliser is not total: its [bytes] branch decodes strictly
    ([value.decode("utf-8")], with no handler around it), so on the one byte
    [0xff], which is not valid UTF-8, it raises [UnicodeDecodeError] where
    the contract says it returns a string and never raises. *)
Theorem normalize_raises_on_undecodable_bytes :
  Fetcher.normalize_bitable_value (VBytes [255])
  = Raise (mkExn UnicodeDecodeError (txt "'utf-8' codec can't decode bytes")).
Proof. reflexivity. Qed.

(* ===================================================================== *)
(** ** Division by 1000 through binary64 *)
(* ===================================================================== *)

Lemma round_half_even_cases (num den : Z) :
  0 < den ->
  (round_half_even num den = num / den /\ 2 * (num mod den) <= den)
  \/ (round_half_even num den = num / den + 1 /\ den <= 2 * (num mod den)).
Proof.
  intros Hd. unfold round_half_even.
  destruct (Z.compare_spec (2 * (num mod den)) den) as [E|E|E].
  - destruct (Z.even (num / den)); [left|right]; split; auto; lia.
  - left. split; auto; lia.
  - right. split; auto; lia.
Qed.

(** The exponent chosen for [p / 1000] leaves at least nine fractional bits
    as long as the quotient is below [2^44]. *)
Lemma binary64_exponent_1000 (p : Z) :
  0 < p < 1000 * 2 ^ 44 ->
  -1074 < binary64_exponent p 1000 <= -9.
Proof.
  intros [Hp Hlt]. unfold binary64_exponent.
  change (Z.log2 1000) with 9.
  assert (H0 : 0 <= Z.log2 p) by apply Z.log2_nonneg.
  assert (H1 : Z.log2 p < 54).
  { apply Z.log2_lt_pow2; [lia|]. change (2 ^ 54) with 18014398509481984.
    change (2 ^ 44) with 17592186044416 in Hlt. lia. }
  destruct (pow2_le p 1000 (Z.log2 p - 9)) eqn:E; [|lia].
  assert (Z.log2 p - 9 <= 43); [|lia].
  destruct (Z.le_gt_cases (Z.log2 p - 9) 43) as [|Hk]; [assumption|exfalso].
  assert (Ek : Z.log2 p - 9 = 44) by lia.
  rewrite Ek in E. unfold pow2_le in E. simpl (0 <=? 44) in E. cbv iota in E.
  apply Z.leb_le in E. lia.
Qed.

(** Rounding [p / 1000] to binary64 and truncating gives the quotient. *)
Lemma round_binary64_1000 (neg : bool) (p : Z) :
  0 < p < 1000 * 2 ^ 44 ->
  exists m e,
    round_binary64 neg p 1000 = Some (FFin neg m e)
    /\ e < 0 /\ m / 2 ^ (- e) = p / 1000.
Proof.
  intros Hp. pose proof (binary64_exponent_1000 p Hp) as He.
  unfold round_binary64.
  assert (E0 : (p =? 0) = false) by (apply Z.eqb_neq; lia). rewrite E0.
  set (e := binary64_exponent p 1000) in *. cbv zeta.
  assert (E1 : (0 <=? e) = false) by (apply Z.leb_gt; lia). rewrite E1.
  set (t := 2 ^ (- e)).
  assert (Ht : 512 <= t).
  { change 512 with (2 ^ 9). apply Z.pow_le_mono_r; lia. }
  set (m := round_half_even (p * t) 1000).
  set (k := p / 1000).
  assert (Hk : p = 1000 * k + p mod 1000) by (apply Z.div_mod; lia).
  assert (Hr0 : 0 <= p mod 1000 < 1000) by (apply Z.mod_pos_bound; lia).
  assert (Hq : p * t = 1000 * (p * t / 1000) + (p * t) mod 1000)
    by (apply Z.div_mod; lia).
  assert (Hr : 0 <= (p * t) mod 1000 < 1000) by (apply Z.mod_pos_bound; lia).
  assert (Hm : k * t <= m < (k + 1) * t).
  { assert (Hpt : p * t = 1000 * (k * t) + (p mod 1000) * t) by (rewrite Hk at 1; ring).
    assert (Hr0t : 0 <= (p mod 1000) * t <= 999 * t) by nia.
    destruct (round_half_even_cases (p * t) 1000) as [[Em _]|[Em Hup]]; [lia| |];
      fold m in Em; rewrite Em; lia. }
  assert (Hdiv : m / t = k).
  { symmetry. apply Z.div_unique with (r := m - k * t); lia. }
  destruct (m =? 2 ^ 53) eqn:Ec.
  - apply Z.eqb_eq in Ec.
    assert (E2 : (971 <? e + 1) = false) by (apply Z.ltb_ge; lia). rewrite E2.
    exists (2 ^ 52), (e + 1). split; [reflexivity|]. split; [lia|].
    rewrite <- Hdiv, Ec. subst t.
    replace (- e) with (1 + (- (e + 1))) by lia.
    rewrite Z.pow_add_r by lia. change (2 ^ 53) with (2 * 2 ^ 52).
    change (2 ^ 1) with 2.
    rewrite Z.div_mul_cancel_l; [reflexivity| |lia].
    apply Z.pow_nonzero; lia.
  - assert (E2 : (971 <? e) = false) by (apply Z.ltb_ge; lia). rewrite E2.
    exists m, e. split; [reflexivity|]. split; [lia|exact Hdiv].
Qed.

Lemma int_truediv_1000_nonneg (a : Z) :
  0 <= a < 1000 * 2 ^ 44 ->
  exists x, int_truediv a 1000 = Ok x /\ int_of_float x = Ok (a / 1000).
Proof.
  intros Ha. unfold int_truediv. change (1000 =? 0) with false. cbv iota.
  change (1000 <? 0) with false.
  assert (E : (a <? 0) = false) by (apply Z.ltb_ge; lia). rewrite E.
  rewrite Z.abs_eq by lia. change (Z.abs 1000) with 1000. simpl xorb.
  destruct (Z.eq_dec a 0) as [->|Hne].
  - exists (FFin false 0 0). split; reflexivity.
  - destruct (round_binary64_1000 false a) as (m & e & -> & He & Hd); [lia|].
    exists (FFin false m e). split; [reflexivity|]. simpl.
    assert (E1 : (0 <=? e) = false) by (apply Z.leb_gt; lia).
    now rewrite E1, Hd.
Qed.

Lemma int_truediv_1000_neg (a : Z) :
  - (1000 * 2 ^ 44) < a < 0 ->
  exists x n, int_truediv a 1000 = Ok x /\ int_of_float x = Ok n /\ n <= 0.
Proof.
  intros Ha. unfold int_truediv. change (1000 =? 0) with false. cbv iota.
  change (1000 <? 0) with false.
  assert (E : (a <? 0) = true) by (apply Z.ltb_lt; lia). rewrite E.
  rewrite Z.abs_neq by lia. change (Z.abs 1000) with 1000. simpl xorb.
  destruct (round_binary64_1000 true (- a)) as (m & e & -> & He & Hd); [lia|].
  exists (FFin true m e), (- (m / 2 ^ (- e))). split; [reflexivity|]. simpl.
  assert (E1 : (0 <=? e) = false) by (apply Z.leb_gt; lia).
  rewrite E1. split; [reflexivity|]. rewrite Hd.
  assert (0 <= - a / 1000) by (apply Z.div_pos; lia). lia.
Qed.

(** The elapsed seconds between two timestamps less than [1000 * 2^44]
    milliseconds apart. *)
Lemma elapsed_between_floor (s e : Z) :
  Z.abs (e - s) < 1000 * 2 ^ 44 ->
  Manager.elapsed_between s e = Ok (Z.max 0 ((e - s) / 1000)).
Proof.
  intros Hb. unfold Manager.elapsed_between.
  destruct (Z.le_gt_cases 0 (e - s)) as [Hpos|Hneg].
  - destruct (int_truediv_1000_nonneg (e - s)) as (x & -> & Hx); [lia|].
    simpl. rewrite Hx. reflexivity.
  - destruct (int_truediv_1000_neg (e - s)) as (x & n & -> & Hx & Hn); [lia|].
    simpl. rewrite Hx. simpl. f_equal.
    assert ((e - s) / 1000 < 0) by (apply Z.div_lt_upper_bound; lia). lia.
Qed.

(* ===================================================================== *)
(** ** Dictionaries *)
(* ===================================================================== *)

Lemma dict_get_set_same {A} (d : dict A) (k : pystr) (v : A) :
  dict_get (dict_set d k v) k = Some v.
Proof.
  induction d as [|[k' v'] d IH]; simpl.
  - now rewrite str_eqb_refl.
  - destruct (str_eqb k' k) eqn:E; simpl; rewrite E; auto.
Qed.

Lemma dict_get_set_other {A} (d : dict A) (k k' : pystr) (v : A) :
  k <> k' -> dict_get (dict_set d k v) k' = dict_get d k'.
Proof.
  intros Hne. induction d as [|[k0 v0] d IH]; simpl.
  - apply str_eqb_neq in Hne. now rewrite Hne.
  - destruct (str_eqb k0 k) eqn:E; simpl.
    + apply str_eqb_eq in E. subst k0.
      apply str_eqb_neq in Hne. now rewrite Hne.
    + destruct (str_eqb k0 k'); auto.
Qed.

Lemma dict_get_cons_other {A} (d : dict A) (k k' : pystr) (v : A) :
  str_eqb k k' = false -> dict_get ((k, v) :: d) k' = dict_get d k'.
Proof. intros H. simpl. now rewrite H. Qed.

Lemma dict_get_in {A} (d : dict A) (k : pystr) (v : A) :
  dict_get d k = Some v -> In v (map snd d).
Proof.
  induction d as [|[k0 v0] d IH]; simpl; [discriminate|].
  destruct (str_eqb k0 k); [intros H; injection H as ->; auto|auto].
Qed.

Lemma existsb_str_in (x : pystr) (l : list pystr) :
  In x l -> existsb (str_eqb x) l = true.
Proof.
  intros H. apply existsb_exists. exists x. split; [exact H|apply str_eqb_refl].
Qed.

(** Distinct logical fields of a map with distinct columns are mapped to
    distinct columns. *)
Lemma mapped_injective (fields_map : dict pystr) (l1 l2 c : pystr) :
  columns_distinct fields_map = true ->
  Manager.mapped fields_map l1 = Some c ->
  Manager.mapped fields_map l2 = Some c ->
  l1 = l2.
Proof.
  unfold Manager.mapped, columns_distinct.
  intros Hd H1 H2.
  destruct (dict_get fields_map l1) as [n1|] eqn:E1; [|discriminate].
  destruct (nonempty n1) eqn:N1; [|discriminate]. injection H1 as ->.
  destruct (dict_get fields_map l2) as [n2|] eqn:E2; [|discriminate].
  destruct (nonempty n2) eqn:N2; [|discriminate]. injection H2 as ->.
  induction fields_map as [|[k v] fm IH]; simpl in *; [discriminate|].
  assert (Htail : no_repeat (filter nonempty (map snd fm)) = true).
  { destruct (nonempty v); [|exact Hd].
    simpl in Hd. now apply andb_true_iff in Hd as [_ Hd]. }
  assert (Hin : forall l, dict_get fm l = Some c -> v = c -> False).
  { intros l Hl ->. rewrite N1 in Hd. simpl in Hd.
    apply andb_true_iff in Hd as [Hd _].
    apply dict_get_in in Hl.
    rewrite existsb_str_in in Hd; [discriminate|].
    apply filter_In. auto. }
  destruct (str_eqb k l1) eqn:K1, (str_eqb k l2) eqn:K2.
  - apply str_eqb_eq in K1, K2. congruence.
  - injection E1 as E1. exfalso. eauto.
  - injection E2 as E2. exfalso. eauto.
  - auto.
Qed.

(* ===================================================================== *)
(** ** The create-fields builder *)
(* ===================================================================== *)

Lemma put_if_other cond fields_map logical v fields col :
  Manager.mapped fields_map logical <> Some col ->
  dict_get (Manager.put_if cond fields_map logical v fields) col
  = dict_get fields col.
Proof.
  intros H. unfold Manager.put_if. destruct cond; [|reflexivity].
  destruct (Manager.mapped fields_map logical) as [c|]; [|reflexivity].
  apply dict_get_set_other. congruence.
Qed.

Lemma put_if_hit fields_map logical v fields col :
  Manager.mapped fields_map logical = Some col ->
  dict_get (Manager.put_if true fields_map logical v fields) col = Some v.
Proof.
  intros H. unfold Manager.put_if. rewrite H. apply dict_get_set_same.
Qed.

Lemma put_opt_other o fields_map logical fields col :
  Manager.mapped fields_map logical <> Some col ->
  dict_get (Manager.put_opt o fields_map logical fields) col
  = dict_get fields col.
Proof.
  intros H. unfold Manager.put_opt. destruct o; [|reflexivity].
  now apply put_if_other.
Qed.

Lemma put_opt_hit v fields_map logical fields col :
  Manager.mapped fields_map logical = Some col ->
  dict_get (Manager.put_opt (Some v) fields_map logical fields) col = Some v.
Proof. intros H. unfold Manager.put_opt. now apply put_if_hit. Qed.

Lemma merge_overrides_other (extra_fields : dict value) :
  forall fields col,
    dict_get extra_fields col = None ->
    dict_get (Manager.merge_overrides extra_fields fields) col
    = dict_get fields col.
Proof.
  induction extra_fields as [|[k v] rest IH]; intros fields col H; simpl;
    [reflexivity|].
  simpl in H. destruct (str_eqb k col) eqn:E; [discriminate|].
  apply str_eqb_neq in E. rewrite IH by exact H.
  destruct k; [reflexivity|].
  destruct v; try reflexivity; now apply dict_get_set_other.
Qed.

(** A logical field other than the one mapped to [col] is mapped elsewhere. *)
Lemma other_logical fields_map l1 l2 col :
  columns_distinct fields_map = true ->
  Manager.mapped fields_map l2 = Some col ->
  l1 <> l2 ->
  Manager.mapped fields_map l1 <> Some col.
Proof.
  intros Hd H2 Hne H1. apply Hne. eapply mapped_injective; eauto.
Qed.

Lemma put_overrides_other item fields col :
  dict_get (overrides_of item) col = None ->
  dict_get (Manager.put_overrides item fields) col = dict_get fields col.
Proof.
  unfold overrides_of, Manager.put_overrides. intros H.
  destruct (get_value item (txt "fields")); try reflexivity.
  now apply merge_overrides_other.
Qed.

Lemma put_extra_other normalize_extra fields_map item fields col :
  Manager.mapped fields_map (txt "Extra") <> Some col ->
  dict_get (Manager.put_extra normalize_extra fields_map item fields) col
  = dict_get fields col.
Proof.
  intros H. unfold Manager.put_extra.
  destruct (get_value item (txt "extra")); try reflexivity;
    now apply put_if_other.
Qed.

Lemma put_date_other coerce_date_payload fields_map item fields col :
  Manager.mapped fields_map (txt "Date") <> Some col ->
  dict_get (Manager.put_date coerce_date_payload fields_map item fields) col
  = dict_get fields col.
Proof.
  intros H. unfold Manager.put_date.
  destruct (get_value item (txt "date")); try reflexivity;
    (destruct (Manager.mapped fields_map (txt "Date")) eqn:E;
     [rewrite <- E in H; now apply put_opt_other|reflexivity]).
Qed.

Ltac step_build H :=
  cbv beta iota zeta in H;
  match type of H with
  | (match ?c with _ => _ end) = _ => destruct c eqn:?; [|discriminate]
  end.

Ltac frame Hd Hcol :=
  repeat first
    [ rewrite put_opt_other
        by (apply (other_logical _ _ _ _ Hd Hcol); discriminate)
    | rewrite put_if_other
        by (apply (other_logical _ _ _ _ Hd Hcol); discriminate) ].

Section BuilderFacts.
Variable coerce_millis : value -> option Z.
Variable coerce_int : value -> option Z.
Variable coerce_date_payload : value -> option value.
Variable normalize_extra : value -> value.

Let build := Manager.build_create_fields coerce_millis coerce_int
               coerce_date_payload normalize_extra.

Lemma build_elapsed fields_map item out s e col :
  build fields_map item = Ok out ->
  columns_distinct fields_map = true ->
  coerce_int (get_value item (txt "elapsed_seconds")) = None ->
  Manager.start_ms_of coerce_millis item = Some s ->
  Manager.end_ms_of coerce_millis item = Some e ->
  Z.abs (e - s) < 1000 * 2 ^ 44 ->
  Manager.mapped fields_map (txt "ElapsedSeconds") = Some col ->
  dict_get (overrides_of item) col = None ->
  dict_get out col = Some (VInt (Z.max 0 ((e - s) / 1000))).
Proof.
  intros H Hd Hel Hs He Hb Hcol Hov.
  unfold build, Manager.build_create_fields, bind in H.
  assert (Eel : Manager.elapsed_of coerce_millis coerce_int item
                = Ok (Some (Z.max 0 ((e - s) / 1000)))).
  { unfold Manager.elapsed_of. rewrite Hel, Hs, He.
    rewrite elapsed_between_floor by exact Hb. reflexivity. }
  rewrite Eel in H.
  do 16 step_build H.
  cbv beta iota zeta in H. injection H as <-.
  rewrite (put_overrides_other item _ col Hov).
  rewrite put_extra_other
    by (apply (other_logical _ _ _ _ Hd Hcol); discriminate).
  frame Hd Hcol. apply put_opt_hit; exact Hcol.
Qed.

Lemma build_group fields_map item out app book user col :
  build fields_map item = Ok out ->
  columns_distinct fields_map = true ->
  Manager.stripped item (txt "group_id") = Ok [] ->
  Manager.stripped item (txt "app") = Ok app ->
  Manager.stripped item (txt "book_id") = Ok book ->
  Manager.stripped item (txt "user_id") = Ok user ->
  app <> [] -> book <> [] -> user <> [] ->
  Manager.mapped fields_map (txt "GroupID") = Some col ->
  dict_get (overrides_of item) col = None ->
  dict_get out col
  = Some (VStr (app_label app ++ txt "_" ++ book ++ txt "_" ++ user)).
Proof.
  intros H Hd Hg Ha Hbk Hu Nea Neb Neu Hcol Hov.
  unfold build, Manager.build_create_fields, bind in H.
  rewrite Hg, Ha, Hbk, Hu in H.
  do 13 step_build H.
  cbv beta iota zeta in H. injection H as <-.
  rewrite (put_overrides_other item _ col Hov).
  rewrite put_extra_other
    by (apply (other_logical _ _ _ _ Hd Hcol); discriminate).
  frame Hd Hcol.
  rewrite put_date_other
    by (apply (other_logical _ _ _ _ Hd Hcol); discriminate).
  apply nonempty_true in Nea, Neb, Neu. rewrite Nea, Neb, Neu.
  apply put_if_hit; exact Hcol.
Qed.

End BuilderFacts.

(** C7, as the code has it. The quotient is taken in binary64 before it is
    truncated: [2^53 * 1000 - 1] milliseconds give [2^53] seconds, one more
    than the floor of the division. *)
Lemma elapsed_rounds_up_on_far_timestamps :
  built_column (build_with_integers default_fields far_item) (txt "ElapsedSeconds")
  = Some (VInt 9007199254740992)
  /\ Z.max 0 ((9007199254740991999 - 0) / 1000) = 9007199254740991.
Proof. split; vm_compute; reflexivity. Qed.

(** C7, amended. For a field map with pairwise distinct columns and a build
    that returns: when no elapsed_seconds is given, the resolved start and
    end are [s] and [e], less than [1000 * 2^44] milliseconds apart, the
    emitted elapsed value is [max 0 (floor ((e - s) / 1000))]; when no
    group id is given and app, book id and user id are all present, the
    emitted group id is the app label, the book id and the user id joined
    by underscores. Either column must be mapped and not named in the
    item's own [fields] overrides. *)
Theorem create_fields_elapsed_and_group :
  forall (coerce_millis coerce_int : value -> option Z)
         (coerce_date_payload : value -> option value)
         (normalize_extra : value -> value)
         (fields_map : dict pystr) (item out : dict value),
    Manager.build_create_fields coerce_millis coerce_int coerce_date_payload
      normalize_extra fields_map item = Ok out ->
    columns_distinct fields_map = true ->
    (forall s e col,
        coerce_int (get_value item (txt "elapsed_seconds")) = None ->
        Manager.start_ms_of coerce_millis item = Some s ->
        Manager.end_ms_of coerce_millis item = Some e ->
        Z.abs (e - s) < 1000 * 2 ^ 44 ->
        Manager.mapped fields_map (txt "ElapsedSeconds") = Some col ->
        dict_get (overrides_of item) col = None ->
        dict_get out col = Some (VInt (Z.max 0 ((e - s) / 1000))))
    /\ (forall app book user col,
        Manager.stripped item (txt "group_id") = Ok [] ->
        Manager.stripped item (txt "app") = Ok app ->
        Manager.stripped item (txt "book_id") = Ok book ->
        Manager.stripped item (txt "user_id") = Ok user ->
        app <> [] -> book <> [] -> user <> [] ->
        Manager.mapped fields_map (txt "GroupID") = Some col ->
        dict_get (overrides_of item) col = None ->
        dict_get out col
        = Some (VStr (app_label app ++ txt "_" ++ book ++ txt "_" ++ user))).
Proof.
  intros cm ci cd ne fields_map item out H Hd. split.
  - intros s e col. now apply (build_elapsed cm ci cd ne).
  - intros app book user col. now apply (build_group cm ci cd ne).
Qed.

(** The spec's examples: 1000 ms to 4000 ms give 3 seconds, and [acme],
    [b1], [u1] give the group id [acme_b1_u1]. *)
Lemma create_fields_witness :
  dict_get (built (build_with_integers default_fields sample_item))
    (txt "ElapsedSeconds") = Some (VInt 3)
  /\ dict_get (built (build_with_integers default_fields sample_item))
       (txt "GroupID") = Some (VStr (txt "acme_b1_u1")).
Proof.
  destruct (create_fields_elapsed_and_group coerce_integer coerce_integer
              coerce_no_date extra_as_is default_fields sample_item
              (built (build_with_integers default_fields sample_item))
              eq_refl eq_refl) as [Hel Hgr].
  split.
  - apply (Hel 1000 4000 (txt "ElapsedSeconds")); reflexivity.
  - apply (Hgr (txt "acme") (txt "b1") (txt "u1") (txt "GroupID"));
      try reflexivity; discriminate.
Defined.

(* ===================================================================== *)
(** ** Chunking *)
(* ===================================================================== *)

Lemma slices_concat {A} (l : list A) (size : nat) :
  (0 < size)%nat ->
  forall fuel i,
    (length l <= i + fuel * size)%nat ->
    concat (map (fun idx => Manager.slice l idx (idx + size))
              (Manager.range_from fuel i (length l) size))
    = skipn i l.
Proof.
  intros Hs. induction fuel as [|fuel IH]; intros i Hfuel; simpl.
  - symmetry. apply skipn_all2. lia.
  - destruct (i <? length l)%nat eqn:E.
    + simpl. rewrite IH by lia. unfold Manager.slice.
      replace (i + size - i)%nat with size by lia.
      rewrite Nat.add_comm, <- skipn_skipn. apply firstn_skipn.
    + apply Nat.ltb_ge in E. symmetry. apply skipn_all2. lia.
Qed.

Lemma chunked_concat {A} (values : list A) (size : Z) :
  0 < size -> concat (Manager.chunked values size) = values.
Proof.
  intros Hs. unfold Manager.chunked.
  assert (E : (size <=? 0) = false) by (apply Z.leb_gt; lia). rewrite E.
  unfold Manager.py_range. rewrite slices_concat; [reflexivity|lia|nia].
Qed.

Lemma chunked_bound {A} (values : list A) (size : Z) :
  0 < size ->
  Forall (fun c => 0 < Fetcher.len c <= size) (Manager.chunked values size).
Proof.
  intros Hs. unfold Manager.chunked.
  assert (E : (size <=? 0) = false) by (apply Z.leb_gt; lia). rewrite E.
  apply Forall_map, Forall_forall. intros i Hi.
  apply range_from_bound in Hi. unfold Fetcher.len.
  rewrite length_slice. lia.
Qed.

(* ===================================================================== *)
(** ** The existing-record resolver *)
(* ===================================================================== *)

Lemma id_conditions_none (field_name : pystr) (values : list pystr) :
  forall seen,
    existsb (fun v => nonempty (strip v)) values = false ->
    Manager.id_conditions field_name seen values = [].
Proof.
  induction values as [|v values IH]; intros seen H; simpl in *; [reflexivity|].
  apply orb_false_iff in H as [Hv H]. rewrite Hv. simpl. auto.
Qed.

Lemma id_conditions_some (field_name : pystr) (values : list pystr) :
  existsb (fun v => nonempty (strip v)) values = true ->
  Manager.id_conditions field_name [] values <> [].
Proof.
  induction values as [|v values IH]; intros H; simpl in *; [discriminate|].
  destruct (nonempty (strip v)) eqn:Hv; simpl; [discriminate|].
  simpl in H. auto.
Qed.

(** A filter is built exactly for the searchable batches. *)
Lemma build_id_filter_searchable (field_name : pystr) (batch : list pystr) :
  match Manager.build_id_filter field_name batch with
  | Some _ => searchable field_name batch = true
  | None => searchable field_name batch = false
  end.
Proof.
  unfold Manager.build_id_filter, searchable.
  destruct (nonempty (strip field_name)); simpl; [|reflexivity].
  destruct (existsb (fun v => nonempty (strip v)) batch) eqn:E.
  - pose proof (id_conditions_some (strip field_name) batch E) as Hne.
    destruct (Manager.id_conditions (strip field_name) [] batch);
      [contradiction|reflexivity].
  - now rewrite id_conditions_none.
Qed.

Lemma first_record_app norm field_name v (a b : list row) :
  first_record norm field_name v (a ++ b)
  = match first_record norm field_name v a with
    | Some r => Some r
    | None => first_record norm field_name v b
    end.
Proof.
  induction a as [|r a IH]; simpl; [reflexivity|].
  destruct (norm _) as [x|e]; [|exact IH].
  destruct (nonempty _ && str_eqb x v); [reflexivity|exact IH].
Qed.

Section ResolverFacts.
Variable St : Type.
Variable send : St -> request -> pyresult response * St.
Variable clamp : Z -> Z.
Variable max_page_size : Z.
Variable norm : value -> pyresult pystr.
Variables (base_url token : pystr) (ref : BitableRef) (field_name : pystr).

Lemma note_rows_spec (items : list row) :
  forall existing existing',
    Manager.note_rows norm field_name items existing = Ok existing' ->
    forall v, dict_get existing' v = noted norm field_name existing items v.
Proof.
  induction items as [|item items IH]; intros existing existing' H v.
  - simpl in H. injection H as <-. unfold noted. simpl.
    destruct (dict_get existing v); [reflexivity|]. now destruct (nonempty v).
  - simpl in H. unfold noted. simpl.
    destruct (norm _) as [x|e]; [|discriminate]. simpl in H.
    rewrite (IH _ _ H v). unfold noted.
    set (rid := strip match record_id item with Some r => r | None => [] end).
    destruct (nonempty rid && nonempty x && negb (dict_has existing x)) eqn:C.
    + apply andb_true_iff in C as [C Hhas]. apply andb_true_iff in C as [Hr Hx].
      rewrite Hr. simpl andb.
      destruct (str_eqb x v) eqn:E.
      * apply str_eqb_eq in E. subst x. rewrite dict_get_set_same.
        unfold dict_has in Hhas. destruct (dict_get existing v); [discriminate|].
        now rewrite Hx.
      * apply str_eqb_neq in E. rewrite dict_get_set_other by exact E.
        reflexivity.
    + destruct (dict_get existing v) eqn:G; [reflexivity|].
      destruct (nonempty v) eqn:Nv; [|reflexivity].
      destruct (nonempty rid) eqn:Hr; [|reflexivity]. simpl andb.
      destruct (str_eqb x v) eqn:E; [|reflexivity].
      apply str_eqb_eq in E. subst x. unfold dict_has in C.
      rewrite Nv, G in C. discriminate.
Qed.

Lemma manager_fetch_records_run filter_obj page_size (w w' : world St) items :
  Manager.fetch_records St send clamp base_url token ref filter_obj page_size w
  = (Ok items, w') ->
  exists q resp,
    q = mkReq (txt "POST")
          (Manager.records_url base_url ref ++ txt "/search?page_size="
           ++ str_of_int (clamp page_size))
          (Some token)
          (match filter_obj with
           | Some f => if truthy f then Some (VDict [(txt "filter", f)]) else None
           | None => None
           end)
    /\ journal w' = journal w ++ [(q, Ok resp)]
    /\ items = batch_of resp.
Proof.
  unfold Manager.fetch_records, rbind. cbv zeta. intros H.
  destruct (request_json send _ _ _ _ w) as [[resp|e] w1] eqn:Ereq; [|discriminate].
  apply request_json_journal in Ereq.
  unfold Manager.check_code in H. destruct (code_not_zero resp); [discriminate|].
  unfold ret in H. injection H as <- <-.
  eexists _, resp. split; [reflexivity|]. split; [exact Ereq|].
  unfold batch_of. now destruct (resp_data resp).
Qed.

Lemma filter_truthy field batch f :
  Manager.build_id_filter field batch = Some f -> truthy f = true.
Proof.
  unfold Manager.build_id_filter.
  destruct (negb _); [discriminate|].
  destruct (Manager.id_conditions _ _ _); [discriminate|].
  intros H. injection H as <-. reflexivity.
Qed.

Lemma noted_noted existing existing1 rows1 rows2 :
  (forall v, dict_get existing1 v = noted norm field_name existing rows1 v) ->
  forall v,
    match dict_get existing1 v with
    | Some r => Some r
    | None => if nonempty v then first_record norm field_name v rows2 else None
    end = noted norm field_name existing (rows1 ++ rows2) v.
Proof.
  intros H v. rewrite H. unfold noted.
  destruct (dict_get existing v); [reflexivity|].
  destruct (nonempty v); [|reflexivity].
  now rewrite first_record_app.
Qed.

(** The loop over the batches: one search per searchable batch, in order,
    and the first record id seen for every value. *)
Lemma resolve_batches_spec (batches : list (list pystr)) :
  forall existing (w w' : world St) existing',
    Manager.resolve_batches St send clamp max_page_size norm base_url token ref
      field_name batches existing w = (Ok existing', w') ->
    exists delta,
      journal w' = journal w ++ delta
      /\ map fst delta
         = map (search_request clamp max_page_size base_url token ref field_name)
             (filter (searchable field_name) batches)
      /\ forall v, dict_get existing' v = noted norm field_name existing (received delta) v.
Proof.
  induction batches as [|batch batches IH]; intros existing w w' existing' H.
  - simpl in H. unfold ret in H. injection H as <- <-.
    exists []. rewrite app_nil_r. repeat split; auto.
    intros v. unfold noted. simpl. destruct (dict_get existing v); auto.
    now destruct (nonempty v).
  - simpl in H. pose proof (build_id_filter_searchable field_name batch) as Hs.
    simpl filter.
    destruct (Manager.build_id_filter field_name batch) as [f|] eqn:Ef.
    + rewrite Hs. unfold rbind in H.
      destruct (Manager.fetch_records _ _ _ _ _ _ _ _ w) as [[items|e] w1] eqn:Efetch;
        [|discriminate].
      apply manager_fetch_records_run in Efetch
        as (q & resp & Hq & Hj & Hitems).
      unfold lift in H.
      destruct (Manager.note_rows norm field_name items existing)
        as [existing1|e] eqn:En; [|discriminate].
      apply IH in H as (delta & Hj' & Hreqs & Hget).
      exists ((q, Ok resp) :: delta). split; [|split].
      * rewrite Hj', Hj, <- app_assoc. reflexivity.
      * simpl. rewrite Hreqs. f_equal. rewrite Hq.
        unfold search_request. rewrite Ef.
        now rewrite (filter_truthy _ _ _ Ef).
      * intros v. rewrite Hget. unfold noted at 1.
        change ((q, Ok resp) :: delta) with ([(q, Ok resp)] ++ delta).
        rewrite received_app, received_ok, <- Hitems.
        apply noted_noted. now apply note_rows_spec.
    + rewrite Hs. now apply IH.
Qed.

End ResolverFacts.

Lemma first_record_in norm field_name v rows rid :
  first_record norm field_name v rows = Some rid ->
  exists r, In r rows
            /\ norm (cell_of field_name r) = Ok v
            /\ strip (match record_id r with Some i => i | None => [] end) = rid
            /\ rid <> [].
Proof.
  induction rows as [|r rows IH]; simpl; [discriminate|].
  fold (cell_of field_name r).
  destruct (norm (cell_of field_name r)) as [x|e] eqn:En.
  - destruct (nonempty _) eqn:Hr; simpl.
    + destruct (str_eqb x v) eqn:E.
      * intros H. injection H as <-. apply str_eqb_eq in E. subst x.
        exists r. repeat split; auto. now apply nonempty_true.
      * intros H. destruct (IH H) as (r0 & Hin & Hrest). exists r0. auto.
    + intros H. destruct (IH H) as (r0 & Hin & Hrest). exists r0. auto.
  - intros H. destruct (IH H) as (r0 & Hin & Hrest). exists r0. auto.
Qed.

(** C8, as the code has it. A chunk made of a blank value is not empty, and
    no search is sent for it. *)
Lemma resolver_skips_blank_chunk :
  Manager.chunked [txt " "] Manager.MAX_FILTER_VALUES = [[txt " "]]
  /\ journal (snd (resolve_candidates [txt " "])) = [].
Proof. split; vm_compute; reflexivity. Qed.

(** C8, amended. The candidate values are split into chunks of 1 to 50
    values that make up the list; a resolution that returns has sent one
    search per chunk that holds a value that is not blank (the field name
    not being blank either), in order, and no other call; its mapping gives
    for every value the record id of the first row received whose cell
    normalises to that value and that carries a record id, and nothing for
    a value no such row carries. 120 distinct candidates give three searches
    of 50, 50 and 20 conditions. *)
Theorem resolver_searches_and_first_seen :
  (forall (St : Type) (send : St -> request -> pyresult response * St)
          (clamp : Z -> Z) (max_page_size : Z) (norm : value -> pyresult pystr)
          base_url token ref field_name (values : list pystr)
          (w w' : world St) (existing : dict pystr),
      Manager.resolve_existing_by_field St send clamp max_page_size norm
        base_url token ref field_name values w = (Ok existing, w') ->
      Forall (fun c => 0 < Fetcher.len c <= 50)
        (Manager.chunked values Manager.MAX_FILTER_VALUES)
      /\ concat (Manager.chunked values Manager.MAX_FILTER_VALUES) = values
      /\ exists delta,
          journal w' = journal w ++ delta
          /\ map fst delta
             = map (search_request clamp max_page_size base_url token ref
                      field_name)
                 (filter (searchable field_name)
                    (Manager.chunked values Manager.MAX_FILTER_VALUES))
          /\ (forall v, dict_get existing v
                        = if nonempty v
                          then first_record norm field_name v (received delta)
                          else None)
          /\ (forall v rid, dict_get existing v = Some rid ->
                exists r, In r (received delta)
                          /\ norm (cell_of field_name r) = Ok v
                          /\ strip (match record_id r with
                                    | Some i => i
                                    | None => []
                                    end) = rid))
  /\ (condition_counts (journal (snd (resolve_candidates (candidates 120))))
      = [50; 50; 20]%nat
      /\ resolved (resolve_candidates (candidates 120))
         = [(txt "v3", txt "recA"); (txt "v77", txt "recC")]
      /\ dict_get (resolved (resolve_candidates (candidates 120))) (txt "v5")
         = None).
Proof.
  split; [|repeat split; vm_compute; reflexivity].
  intros St send clamp max_page_size norm base_url token ref field_name values
    w w' existing H.
  split; [apply chunked_bound; reflexivity|].
  split; [apply chunked_concat; reflexivity|].
  assert (Hspec : exists delta,
             journal w' = journal w ++ delta
             /\ map fst delta
                = map (search_request clamp max_page_size base_url token ref
                         field_name)
                    (filter (searchable field_name)
                       (Manager.chunked values Manager.MAX_FILTER_VALUES))
             /\ forall v, dict_get existing v
                          = noted norm field_name [] (received delta) v).
  { unfold Manager.resolve_existing_by_field in H.
    destruct values as [|v0 values].
    - unfold ret in H. injection H as <- <-. exists [].
      rewrite app_nil_r. repeat split; auto.
      intros v. unfold noted. simpl. now destruct (nonempty v).
    - now apply resolve_batches_spec in H. }
  destruct Hspec as (delta & Hj & Hreqs & Hget).
  exists delta. repeat split; auto.
  intros v rid Hv. rewrite Hget in Hv. unfold noted in Hv. simpl in Hv.
  destruct (nonempty v); [|discriminate].
  apply first_record_in in Hv as (r & Hin & Hn & Hr & _). eauto.
Qed.

(** The resolution of the 120 candidates against the store that knows two
    of them. *)
Lemma resolver_witness :
  Forall (fun c => 0 < Fetcher.len c <= 50)
    (Manager.chunked (candidates 120) Manager.MAX_FILTER_VALUES)
  /\ concat (Manager.chunked (candidates 120) Manager.MAX_FILTER_VALUES)
     = candidates 120
  /\ exists delta,
      journal (snd (resolve_candidates (candidates 120)))
      = journal (fresh O) ++ delta
      /\ map fst delta
         = map (search_request Fetcher.clamp_page_size Fetcher.MAX_PAGE_SIZE
                  (txt "https://x") (txt "t-abc") sample_ref (txt "BizTaskID"))
             (filter (searchable (txt "BizTaskID"))
                (Manager.chunked (candidates 120) Manager.MAX_FILTER_VALUES))
      /\ (forall v, dict_get (resolved (resolve_candidates (candidates 120))) v
                    = if nonempty v
                      then first_record Fetcher.bitable_value_to_string
                             (txt "BizTaskID") v (received delta)
                      else None)
      /\ (forall v rid,
            dict_get (resolved (resolve_candidates (candidates 120))) v
            = Some rid ->
            exists r, In r (received delta)
                      /\ Fetcher.bitable_value_to_string
                           (cell_of (txt "BizTaskID") r) = Ok v
                      /\ strip (match record_id r with
                                | Some i => i
                                | None => []
                                end) = rid).
Proof.
  apply (proj1 resolver_searches_and_first_seen nat known_rows
           Fetcher.clamp_page_size Fetcher.MAX_PAGE_SIZE
           Fetcher.bitable_value_to_string (txt "https://x") (txt "t-abc")
           sample_ref (txt "BizTaskID") (candidates 120) (fresh O)
           (snd (resolve_candidates (candidates 120)))
           (resolved (resolve_candidates (candidates 120)))).
  vm_compute. reflexivity.
Defined.

(* ===================================================================== *)
(** ** The task decoder when it returns *)
(* ===================================================================== *)

Section DecoderFacts.
Variable get : pystr -> pyresult pystr.

Let entry (kn : pystr * pystr) : pyresult (pystr * value) :=
  (s <- get (snd kn) ;; Ok (fst kn, VStr s))%py.

Lemma texts_found (l : list (pystr * pystr)) :
  forall texts key v,
    sequence (map entry l) = Ok texts ->
    dict_get texts key = Some v ->
    exists logical s, In (key, logical) l /\ get logical = Ok s /\ v = VStr s.
Proof.
  induction l as [|[k n] l IH]; intros texts key v H Hg; simpl in H.
  - injection H as <-. discriminate.
  - unfold entry at 1 in H. simpl in H.
    destruct (get n) as [s|e] eqn:Es; [|discriminate]. simpl in H.
    destruct (sequence (map entry l)) as [t|e] eqn:Et; [|discriminate].
    simpl in H. injection H as <-. simpl in Hg.
    destruct (str_eqb k key) eqn:E.
    + apply str_eqb_eq in E. subst k. injection Hg as <-.
      exists n, s. simpl. auto.
    + destruct (IH t key v eq_refl Hg) as (lg & s0 & Hin & Hget & Hv).
      exists lg, s0. simpl. auto.
Qed.

Lemma texts_present (l : list (pystr * pystr)) :
  forall texts key logical s,
    sequence (map entry l) = Ok texts ->
    NoDup (map fst l) ->
    In (key, logical) l ->
    get logical = Ok s ->
    dict_get texts key = Some (VStr s).
Proof.
  induction l as [|[k n] l IH]; intros texts key logical s H Hnd Hin Hget;
    simpl in H; [contradiction|].
  unfold entry at 1 in H. simpl in H.
  destruct (get n) as [s0|e] eqn:Es; [|discriminate]. simpl in H.
  destruct (sequence (map entry l)) as [t|e] eqn:Et; [|discriminate].
  simpl in H. injection H as <-. simpl.
  simpl in Hnd. inversion Hnd as [|? ? Hnotin Hnd']. subst.
  destruct Hin as [Heq|Hin].
  - injection Heq as -> ->. rewrite str_eqb_refl.
    congruence.
  - destruct (str_eqb k key) eqn:E.
    + apply str_eqb_eq in E. subst k. exfalso. apply Hnotin.
      apply in_map_iff. exists (key, logical). auto.
    + eapply IH; eauto.
Qed.

End DecoderFacts.

Lemma task_keys_distinct : NoDup (map fst Fetcher.task_text_fields).
Proof.
  simpl. repeat (constructor; [simpl; intuition discriminate|]). constructor.
Qed.

(** X1. When the decoder returns, it returns a task exactly when the task id it
    read is not 0 and one of the six payload fields reads as a text that is
    not empty. *)
Lemma decode_task_some_iff (fields : dict value) (mapping : dict pystr)
    (r : option (dict value)) :
  Fetcher.decode_task fields mapping = Ok r ->
  (r <> None <->
   (exists tid, task_id_of fields mapping = Ok tid /\ tid <> 0)
   /\ (exists key logical s,
          In (key, logical) Fetcher.task_text_fields
          /\ In key Fetcher.payload_keys
          /\ payload_text fields mapping logical = Ok s
          /\ s <> [])).
Proof.
  unfold Fetcher.decode_task, task_id_of. intros H.
  destruct fields as [|f0 fields].
  { injection H as <-. split; [intros Hn; exfalso; now apply Hn|].
    intros [[tid [Ht Hne]] _]. exfalso. apply Hne.
    destruct (Fetcher.subscript mapping (txt "TaskID")); simpl in Ht;
      [|discriminate].
    now injection Ht as <-. }
  set (fs := f0 :: fields) in *. clearbody fs.
  destruct (Fetcher.subscript mapping (txt "TaskID")) as [id_name|e];
    [|discriminate]. rewrite !bind_ok in *.
  destruct (Fetcher.field_int fs id_name) as [tid|e]; [|discriminate].
  rewrite bind_ok in H.
  destruct (tid =? 0) eqn:Ez.
  { injection H as <-. apply Z.eqb_eq in Ez. split; [intros Hn; exfalso; now apply Hn|].
    intros [[t [Ht Hne]] _]. injection Ht as <-. contradiction. }
  apply Z.eqb_neq in Ez.
  destruct (sequence _) as [texts|e] eqn:Etexts; [|discriminate].
  rewrite bind_ok in H.
  destruct (existsb _ Fetcher.payload_keys) eqn:Ex; injection H as <-.
  - split; [intros _|intros _; discriminate]. split; [exists tid; auto|].
    apply existsb_exists in Ex as (key & Hkey & Htruthy).
    assert (Hk : str_eqb (txt "task_id") key = false).
    { simpl in Hkey. intuition (subst; reflexivity). }
    unfold get_value in Htruthy.
    rewrite (dict_get_cons_other _ _ _ _ Hk) in Htruthy.
    destruct (dict_get texts key) as [v|] eqn:Eg; [|discriminate].
    destruct (texts_found (payload_text fs mapping) _ _ _ _ Etexts Eg)
      as (logical & s & Hin & Hget & ->).
    exists key, logical, s. repeat split; auto.
    simpl in Htruthy. now apply nonempty_true.
  - split; [intros Hn; exfalso; now apply Hn|]. intros [_ (key & logical & s & Hin & Hkey & Hget & Hne)].
    exfalso.
    assert (Htrue : existsb
              (fun key => truthy (get_value ((txt "task_id", VInt tid) :: texts) key))
              Fetcher.payload_keys = true).
    { apply existsb_exists. exists key. split; [exact Hkey|].
      assert (Hk : str_eqb (txt "task_id") key = false).
      { simpl in Hkey. intuition (subst; reflexivity). }
      unfold get_value. rewrite (dict_get_cons_other _ _ _ _ Hk).
      rewrite (texts_present (payload_text fs mapping) _ _ _ _ _ Etexts
                 task_keys_distinct Hin Hget).
      simpl. now apply nonempty_true. }
    congruence.
Qed.

(* ===================================================================== *)
(** ** Further properties of fetch_tasks.py *)
(* ===================================================================== *)

(** A row with the task id 7 and a URL decodes to a task. *)
Lemma decode_task_some_witness :
  decoded (Fetcher.decode_task url_only_row default_fields) <> None <->
  (exists tid, task_id_of url_only_row default_fields = Ok tid /\ tid <> 0)
  /\ (exists key logical s,
         In (key, logical) Fetcher.task_text_fields
         /\ In key Fetcher.payload_keys
         /\ payload_text url_only_row default_fields logical = Ok s
         /\ s <> []).
Proof.
  apply (decode_task_some_iff url_only_row default_fields
           (decoded (Fetcher.decode_task url_only_row default_fields))).
  reflexivity.
Defined.

Lemma float_of_str_raises (s : pystr) e :
  float_of_str s = Raise e -> exn_cls e = ValueError.
Proof.
  unfold float_of_str. destruct (underscores_ok _ _).
  - destruct (parse_float_ascii _); [discriminate|].
    intros H. injection H as <-. reflexivity.
  - intros H. injection H as <-. reflexivity.
Qed.

(** X2. [field_int] on a cell whose text is [raw]: 0 when the text does not
    read as a number or reads as a NaN, the number truncated toward zero
    when it reads as a finite one, and an [OverflowError] when it reads as
    an infinity; nothing else is raised. *)
Lemma field_int_outcomes (fields : dict value) (name raw : pystr) :
  Fetcher.field_string fields name = Ok raw ->
  match float_of_str raw with
  | Raise _ => Fetcher.field_int fields name = Ok 0
  | Ok FNan => Fetcher.field_int fields name = Ok 0
  | Ok (FFin neg m e) =>
      Fetcher.field_int fields name
      = Ok ((if neg then -1 else 1) * (if 0 <=? e then m * 2 ^ e else m / 2 ^ (- e)))
  | Ok (FInf _) =>
      Fetcher.field_int fields name
      = Raise (mkExn OverflowError (txt "cannot convert float infinity to integer"))
  end.
Proof.
  intros H. unfold Fetcher.field_int. rewrite H, bind_ok.
  destruct raw as [|c raw]; [reflexivity|].
  set (s := c :: raw). change (negb (nonempty s)) with false. cbv iota.
  destruct (float_of_str s) as [x|e] eqn:E.
  - rewrite bind_ok. destruct x as [|neg|neg m e]; try reflexivity.
    simpl. f_equal. destruct neg; lia.
  - simpl. apply float_of_str_raises in E. rewrite E. reflexivity.
Qed.

(** A cell holding the text [7.9] reads as 7. *)
Lemma field_int_outcomes_witness :
  Fetcher.field_int [(txt "TaskID", VStr (txt " 7.9 "))] (txt "TaskID")
  = Ok ((if false then -1 else 1)
        * (if 0 <=? -50 then 8894609263432499 * 2 ^ (-50)
           else 8894609263432499 / 2 ^ (- (-50)))).
Proof.
  apply (field_int_outcomes [(txt "TaskID", VStr (txt " 7.9 "))] (txt "TaskID")
           (txt "7.9")).
  reflexivity.
Defined.

Section EnvFolds.
Variable override : pystr * pystr -> pystr.

Let step (fields : dict pystr) (ed : pystr * pystr) : dict pystr :=
  if nonempty (override ed) then dict_set fields (snd ed) (override ed)
  else fields.

Lemma fold_overrides_other (l : list (pystr * pystr)) :
  forall fields k,
    ~ In k (map snd l) ->
    dict_get (fold_left step l fields) k = dict_get fields k.
Proof.
  induction l as [|ed l IH]; intros fields k Hk; simpl; [reflexivity|].
  simpl in Hk. rewrite IH by tauto. unfold step.
  destruct (nonempty (override ed)); [|reflexivity].
  apply dict_get_set_other. tauto.
Qed.

Lemma fold_overrides_hit (l : list (pystr * pystr)) :
  forall fields ed,
    NoDup (map snd l) ->
    In ed l ->
    dict_get (fold_left step l fields) (snd ed)
    = if nonempty (override ed) then Some (override ed)
      else dict_get fields (snd ed).
Proof.
  induction l as [|ed0 l IH]; intros fields ed Hnd Hin; [contradiction|].
  simpl in Hnd. inversion Hnd as [|? ? Hnotin Hnd']. subst.
  destruct Hin as [->|Hin]; simpl.
  - rewrite fold_overrides_other by exact Hnotin. unfold step.
    destruct (nonempty (override ed)); [apply dict_get_set_same|reflexivity].
  - rewrite IH by assumption.
    destruct (nonempty (override ed)); [reflexivity|].
    unfold step. destruct (nonempty (override ed0)); [|reflexivity].
    apply dict_get_set_other. intros E. apply Hnotin. rewrite E.
    now apply in_map.
Qed.

End EnvFolds.

Lemma env_map_names_distinct : NoDup (map snd Fetcher.TASK_FIELD_ENV_MAP).
Proof.
  simpl. repeat (constructor; [simpl; intuition discriminate|]). constructor.
Qed.

(** X3. Whatever the environment, the loaded field map has every logical
    field: mapped to the stripped value of its environment variable when
    that is not blank, to its own name otherwise; so no logical field is
    ever missing from it or mapped to an empty column. *)
Lemma loaded_fields_complete (environ : dict pystr) :
  Forall (fun ed =>
            dict_get (Fetcher.load_task_fields_from_env environ) (snd ed)
            = Some (if nonempty (Fetcher.env environ (fst ed) [])
                    then Fetcher.env environ (fst ed) []
                    else snd ed)
            /\ Manager.mapped (Fetcher.load_task_fields_from_env environ) (snd ed)
               <> None)
    Fetcher.TASK_FIELD_ENV_MAP.
Proof.
  assert (Hget : forall ed, In ed Fetcher.TASK_FIELD_ENV_MAP ->
             dict_get (Fetcher.load_task_fields_from_env environ) (snd ed)
             = Some (if nonempty (Fetcher.env environ (fst ed) [])
                     then Fetcher.env environ (fst ed) []
                     else snd ed)).
  { intros ed Hin. unfold Fetcher.load_task_fields_from_env.
    rewrite (fold_overrides_hit (fun ed => Fetcher.env environ (fst ed) []))
      by (exact env_map_names_distinct || exact Hin).
    destruct (nonempty _); [reflexivity|].
    revert ed Hin. apply Forall_forall. repeat constructor. }
  apply Forall_forall. intros ed Hin. split; [now apply Hget|].
  unfold Manager.mapped. rewrite (Hget ed Hin).
  destruct (nonempty (Fetcher.env environ (fst ed) [])) eqn:E.
  - rewrite E. discriminate.
  - assert (Hne : nonempty (snd ed) = true).
    { revert ed Hin E Hget. intros ed Hin _ _. revert ed Hin.
      apply Forall_forall. repeat constructor. }
    rewrite Hne. discriminate.
Qed.

(* ===================================================================== *)
(** ** Further properties of create_tasks.py *)
(* ===================================================================== *)

Lemma range_from_length (size : nat) :
  (0 < size)%nat ->
  forall fuel i stop,
    (stop <= i + fuel * size)%nat ->
    length (Manager.range_from fuel i stop size)
    = ((stop - i + size - 1) / size)%nat.
Proof.
  intros Hs. induction fuel as [|fuel IH]; intros i stop Hf; simpl.
  - replace (stop - i + size - 1)%nat with (size - 1)%nat by lia.
    symmetry. apply Nat.div_small. lia.
  - destruct (i <? stop)%nat eqn:E.
    + apply Nat.ltb_lt in E. simpl. rewrite IH by lia.
      destruct (Nat.le_gt_cases (i + size) stop) as [Hfull|Hlast].
      * replace (stop - i + size - 1)%nat
          with ((stop - (i + size) + size - 1) + 1 * size)%nat by lia.
        rewrite Nat.div_add by lia. lia.
      * replace (stop - (i + size) + size - 1)%nat with (size - 1)%nat by lia.
        replace (stop - i + size - 1)%nat
          with ((stop - i - 1) + 1 * size)%nat by lia.
        rewrite Nat.div_add by lia.
        rewrite !Nat.div_small by lia. reflexivity.
    + apply Nat.ltb_ge in E.
      replace (stop - i + size - 1)%nat with (size - 1)%nat by lia.
      symmetry. apply Nat.div_small. lia.
Qed.

(** X4. [chunked] with a positive size cuts the list into
    [ceil (len / size)] chunks of 1 to [size] elements whose concatenation
    is the list; with a size that is not positive it returns the list as one
    chunk. *)
Lemma chunked_partitions {A} (values : list A) (size : Z) :
  (0 < size ->
   concat (Manager.chunked values size) = values
   /\ Forall (fun c => 0 < Fetcher.len c <= size) (Manager.chunked values size)
   /\ Fetcher.len (Manager.chunked values size)
      = (Fetcher.len values + size - 1) / size)
  /\ (size <= 0 -> Manager.chunked values size = [values]).
Proof.
  split.
  - intros Hs. split; [now apply chunked_concat|].
    split; [now apply chunked_bound|].
    unfold Manager.chunked.
    assert (E : (size <=? 0) = false) by (apply Z.leb_gt; lia). rewrite E.
    unfold Fetcher.len, Manager.py_range. rewrite length_map.
    rewrite range_from_length by nia.
    rewrite Nat.sub_0_r, Nat2Z.inj_div.
    f_equal; lia.
  - intros Hs. unfold Manager.chunked.
    assert (E : (size <=? 0) = true) by (apply Z.leb_le; lia). now rewrite E.
Qed.

(** Seven values in chunks of three: three chunks. *)
Lemma chunked_partitions_witness :
  concat (Manager.chunked [1; 2; 3; 4; 5; 6; 7] 3) = [1; 2; 3; 4; 5; 6; 7]
  /\ Forall (fun c => 0 < Fetcher.len c <= 3)
       (Manager.chunked [1; 2; 3; 4; 5; 6; 7] 3)
  /\ Fetcher.len (Manager.chunked [1; 2; 3; 4; 5; 6; 7] 3)
     = (Fetcher.len [1; 2; 3; 4; 5; 6; 7] + 3 - 1) / 3.
Proof.
  apply (proj1 (chunked_partitions [1; 2; 3; 4; 5; 6; 7] 3)). reflexivity.
Defined.

Lemma id_conditions_spec (field_name : pystr) (values : list pystr) :
  forall seen,
    exists vs,
      Manager.id_conditions field_name seen values
      = map (Fetcher.condition field_name) vs
      /\ NoDup vs
      /\ forall v, In v vs <-> v <> [] /\ In v (map strip values) /\ ~ In v seen.
Proof.
  induction values as [|x values IH]; intros seen; simpl.
  - exists []. split; [reflexivity|]. split; [constructor|].
    intros v. simpl. tauto.
  - destruct (nonempty (strip x)) eqn:Nx; simpl.
    + destruct (existsb (str_eqb (strip x)) seen) eqn:Eseen.
      * destruct (IH seen) as (vs & Hc & Hnd & Hin). exists vs.
        split; [exact Hc|]. split; [exact Hnd|].
        intros v. rewrite Hin. apply existsb_exists in Eseen as (y & Hy & Ey).
        apply str_eqb_eq in Ey. subst y.
        split; [tauto|]. intros (Hne & [Hx|Hv] & Hns); [|tauto].
        subst v. contradiction.
      * destruct (IH (strip x :: seen)) as (vs & Hc & Hnd & Hin).
        exists (strip x :: vs). split; [simpl; now rewrite Hc|].
        assert (Hnew : ~ In (strip x) seen).
        { intros Hs. apply existsb_str_in in Hs. congruence. }
        split.
        -- constructor; [|exact Hnd]. rewrite Hin. simpl. tauto.
        -- intros v. simpl. rewrite Hin. simpl.
           apply nonempty_true in Nx.
           split.
           ++ intros [<-|(Hne & Hv & Hns)]; [tauto|tauto].
           ++ intros (Hne & [Hx|Hv] & Hns); [tauto|].
              destruct (list_eq_dec Z.eq_dec (strip x) v); [tauto|]. right. tauto.
    + destruct (IH seen) as (vs & Hc & Hnd & Hin). exists vs.
      split; [exact Hc|]. split; [exact Hnd|].
      intros v. rewrite Hin. apply nonempty_false in Nx.
      split; [tauto|]. intros (Hne & [Hx|Hv] & Hns); [|tauto]. congruence.
Qed.

(** X5. [build_id_filter] gives no filter when the field name is blank or
    no value is left after stripping; otherwise an [or] filter with exactly
    one condition on the stripped field name for every distinct non-blank
    stripped value. *)
Lemma build_id_filter_conditions (field_name : pystr) (values : list pystr) :
  match Manager.build_id_filter field_name values with
  | None => strip field_name = [] \/ forall x, In x values -> strip x = []
  | Some f =>
      strip field_name <> []
      /\ exists vs,
          f = VDict [(txt "conjunction", VStr (txt "or"));
                     (txt "conditions",
                      VList (map (Fetcher.condition (strip field_name)) vs))]
          /\ vs <> [] /\ NoDup vs
          /\ forall v, In v vs <-> v <> [] /\ In v (map strip values)
  end.
Proof.
  unfold Manager.build_id_filter.
  destruct (nonempty (strip field_name)) eqn:Nf; simpl.
  - apply nonempty_true in Nf.
    destruct (id_conditions_spec (strip field_name) values [])
      as (vs & Hc & Hnd & Hin).
    rewrite Hc. destruct vs as [|v0 vs]; simpl.
    + right. intros x Hx.
      destruct (strip x) as [|c r] eqn:Ex; [reflexivity|exfalso].
      apply (proj2 (Hin (c :: r))). split; [discriminate|].
      split; [|tauto]. rewrite <- Ex. now apply in_map.
    + split; [exact Nf|]. exists (v0 :: vs). split; [reflexivity|].
      split; [discriminate|]. split; [exact Hnd|].
      intros v. rewrite Hin. simpl. tauto.
  - left. now apply nonempty_false.
Qed.

(* ===================================================================== *)
(** ** The fetcher's page budget and failures *)
(* ===================================================================== *)



Section FetchBudget.
Variable St : Type.
Variable send : St -> request -> pyresult response * St.
Variables (base_url token : pystr) (ref : BitableRef) (page_size limit : Z)
          (ignore_view : bool) (view_id : pystr) (filter_obj : option value)
          (max_pages : Z).

Let loop := Fetcher.fetch_loop St send base_url token ref page_size limit
              ignore_view view_id filter_obj max_pages.

(** A loop that stopped went on accepted replies only, and its page counter
    stays within a positive page budget. *)
Lemma fetch_loop_budget fuel :
  forall items page_token pages (w w' : world St) rows cursor pages',
    loop fuel items page_token pages w = Some (Ok (rows, cursor, pages'), w') ->
    exists delta,
      journal w' = journal w ++ delta
      /\ forallb accepted_entry delta = true
      /\ pages' = pages + Fetcher.len delta
      /\ 0 < Fetcher.len delta
      /\ (0 < max_pages -> pages < max_pages -> pages' <= max_pages).
Proof.
  induction fuel as [|fuel IH]; intros items page_token pages w w' rows cursor
    pages' H; [discriminate|].
  unfold loop in H. simpl in H.
  destruct (Fetcher.search_query page_size page_token) as [qs|e]; [|discriminate].
  destruct (request_json send _ _ _ _ w) as [[resp|e] w1] eqn:Ereq; [|discriminate].
  apply request_json_journal in Ereq.
  destruct (code_not_zero resp) eqn:Ecode; [discriminate|].
  match type of Ereq with _ = _ ++ [(?q0, _)] => set (q := q0) in * end.
  assert (Hone : forall p, p = pages + 1 ->
            exists delta,
              journal w1 = journal w ++ delta
              /\ forallb accepted_entry delta = true
              /\ p = pages + Fetcher.len delta
              /\ 0 < Fetcher.len delta
              /\ (0 < max_pages -> pages < max_pages -> p <= max_pages)).
  { intros p ->. exists [(q, Ok resp)]. split; [exact Ereq|].
    unfold accepted_entry, accepted, Fetcher.len. simpl. rewrite Ecode.
    repeat split; auto; lia. }
  destruct (_ && _); [injection H as <- <- <- <-; now apply Hone|].
  destruct ((max_pages >? 0) && (pages + 1 >=? max_pages)) eqn:Emax;
    [injection H as <- <- <- <-; now apply Hone|].
  destruct (_ || _); [injection H as <- <- <- <-; now apply Hone|].
  apply IH in H as (delta & Hj & Hacc & Hp & Hpos & Hmax).
  exists ((q, Ok resp) :: delta). split; [|split; [|split; [|split]]].
  - rewrite Hj, Ereq, <- app_assoc. reflexivity.
  - simpl. unfold accepted_entry at 1, accepted. simpl. now rewrite Ecode.
  - rewrite Hp. unfold Fetcher.len. simpl length. lia.
  - unfold Fetcher.len. simpl length. lia.
  - intros Hm Hlt. apply Hmax; [exact Hm|].
    apply andb_false_iff in Emax as [E|E].
    + rewrite Z.gtb_ltb in E. apply Z.ltb_ge in E. lia.
    + rewrite Z.geb_leb in E. apply Z.leb_gt in E. lia.
Qed.


End FetchBudget.

(** X6. A fetch that returns has made at least one call and as many calls
    as it reports pages, never more than a positive [max_pages], and every
    reply it went on had the code 0. *)
Lemma fetch_records_page_budget :
  forall (St : Type) (send : St -> request -> pyresult response * St)
         fuel base_url token ref page_size limit ignore_view view_id filter_obj
         max_pages (w w' : world St) rows info,
    Fetcher.fetch_records St send fuel base_url token ref page_size limit
      ignore_view view_id filter_obj max_pages w = Some (Ok (rows, info), w') ->
    exists delta,
      journal w' = journal w ++ delta
      /\ forallb accepted_entry delta = true
      /\ Fetcher.pages info = Fetcher.len delta
      /\ 1 <= Fetcher.pages info
      /\ (0 < max_pages -> Fetcher.pages info <= max_pages).
Proof.
  intros St send fuel base_url token ref page_size limit ignore_view view_id
    filter_obj max_pages w w' rows info H.
  unfold Fetcher.fetch_records in H.
  destruct (Fetcher.fetch_loop _ _ _ _ _ _ _ _ _ _ _ _ _ _ _ _)
    as [[[[[rows0 cursor] pages']|e] w1]|] eqn:E; try discriminate.
  injection H as <- <- <-.
  apply fetch_loop_budget in E as (delta & Hj & Hacc & Hp & Hpos & Hmax).
  exists delta. simpl. repeat split; auto; lia.
Qed.

(** The three-page store under a budget of two pages. *)
Lemma fetch_records_page_budget_witness :
  exists delta,
    journal (world_of (fresh tt) (scan_three_pages 5 0 2))
    = journal (fresh tt) ++ delta
    /\ forallb accepted_entry delta = true
    /\ Fetcher.pages (info_of (scan_three_pages 5 0 2)) = Fetcher.len delta
    /\ 1 <= Fetcher.pages (info_of (scan_three_pages 5 0 2))
    /\ (0 < 2 -> Fetcher.pages (info_of (scan_three_pages 5 0 2)) <= 2).
Proof.
  apply (fetch_records_page_budget unit three_pages 5 (txt "https://x")
           (txt "t-abc") sample_ref 200 0 true [] None 2 (fresh tt)
           (world_of (fresh tt) (scan_three_pages 5 0 2))
           (rows_of (scan_three_pages 5 0 2))).
  reflexivity.
Defined.




(* ===================================================================== *)
(** ** The create dispatch when calls are accepted, and on one payload *)
(* ===================================================================== *)

Lemma batches_of_concat (records : list (dict value)) :
  concat (Manager.batches_of records) = records.
Proof.
  unfold Manager.batches_of, Manager.py_range.
  rewrite slices_concat; [reflexivity|vm_compute; lia|].
  change (Z.to_nat Manager.MAX_BATCH_SIZE) with 500%nat. lia.
Qed.

Lemma main_create_accepted_run :
  forall (St : Type) (send : St -> request -> pyresult response * St)
         base_url token ref (records : list (dict value)) errors skipped
         (w : world St),
    Fetcher.len records <> 1 ->
    forallb accepted
      (serve send (store w)
         (map (batch_request base_url token ref) (Manager.batches_of records)))
    = true ->
    exists w',
      Manager.main_create St send base_url token ref records errors skipped w
      = (Ok (Manager.mkReport (Fetcher.len records) (Fetcher.len records)
               skipped (Fetcher.len errors) errors, exit_code errors), w')
      /\ map fst (skipn (length (journal w)) (journal w'))
         = map (batch_request base_url token ref) (Manager.batches_of records)
      /\ Fetcher.len (Manager.batches_of records)
         = (Fetcher.len records + 499) / 500.
Proof.
  intros St send base_url token ref records errors skipped w Hlen Hacc.
  unfold Manager.main_create.
  assert (Hrun := create_batches_all_accepted St send base_url token ref
                    (Manager.batches_of records) 0 w Hacc).
  rewrite batches_of_concat in Hrun.
  assert (Hcount : Fetcher.len (Manager.batches_of records)
                   = (Fetcher.len records + 499) / 500).
  { unfold Manager.batches_of, Manager.py_range, Fetcher.len.
    rewrite length_map, range_from_length;
      [|vm_compute; lia|change (Z.to_nat Manager.MAX_BATCH_SIZE) with 500%nat; lia].
    change (Z.to_nat Manager.MAX_BATCH_SIZE) with 500%nat.
    rewrite Nat.sub_0_r, Nat2Z.inj_div. f_equal; lia. }
  assert (Hjournal : forall (j : list (request * pyresult response)) reqs outs,
             length reqs = length outs ->
             map fst (skipn (length j) (j ++ combine reqs outs)) = reqs).
  { intros j reqs outs Hl. rewrite skipn_app, skipn_all, Nat.sub_diag.
    simpl. clear -Hl. revert outs Hl.
    induction reqs as [|q reqs IH]; intros [|o outs] Hl; simpl in *;
      try discriminate; [reflexivity|]. f_equal. apply IH. lia. }
  destruct records as [|r1 [|r2 records]].
  - eexists. rewrite Hrun. cbv zeta. split; [reflexivity|].
    split; [|exact Hcount]. cbn [journal]. apply Hjournal.
    now rewrite serve_length.
  - exfalso. apply Hlen. reflexivity.
  - eexists. rewrite Hrun. cbv zeta. split; [reflexivity|].
    split; [|exact Hcount]. cbn [journal]. apply Hjournal.
    now rewrite serve_length.
Qed.

(** X8. With no payload, or two and more, when the store accepts every
    batch call: one call per batch of 500 in order, [created] equal to
    [requested], the errors as they were before the dispatch, and the exit
    code 0 exactly when there was no earlier error. *)
Lemma main_create_all_accepted :
  forall (St : Type) (send : St -> request -> pyresult response * St)
         base_url token ref (records : list (dict value)) errors skipped
         (w : world St),
    Fetcher.len records <> 1 ->
    forallb accepted
      (serve send (store w)
         (map (batch_request base_url token ref) (Manager.batches_of records)))
    = true ->
    exists w',
      Manager.main_create St send base_url token ref records errors skipped w
      = (Ok (Manager.mkReport (Fetcher.len records) (Fetcher.len records)
               skipped (Fetcher.len errors) errors, exit_code errors), w')
      /\ map fst (skipn (length (journal w)) (journal w'))
         = map (batch_request base_url token ref) (Manager.batches_of records)
      /\ Fetcher.len (Manager.batches_of records)
         = (Fetcher.len records + 499) / 500.
Proof.
  intros St send base_url token ref records errors skipped w.
  apply main_create_accepted_run.
Qed.

(** 1200 payloads on a store that accepts everything. *)
Lemma main_create_all_accepted_witness :
  exists w',
    Manager.main_create nat accept_all (txt "https://x") (txt "t-abc")
      sample_ref (payloads 1200) [] 0 (fresh O)
    = (Ok (Manager.mkReport (Fetcher.len (payloads 1200))
             (Fetcher.len (payloads 1200)) 0 (Fetcher.len (@nil pystr)) [],
           exit_code []), w')
    /\ map fst (skipn (length (journal (fresh O))) (journal w'))
       = map (batch_request (txt "https://x") (txt "t-abc") sample_ref)
           (Manager.batches_of (payloads 1200))
    /\ Fetcher.len (Manager.batches_of (payloads 1200))
       = (Fetcher.len (payloads 1200) + 499) / 500.
Proof.
  apply (main_create_all_accepted nat accept_all (txt "https://x") (txt "t-abc")
           sample_ref (payloads 1200) [] 0 (fresh O)).
  - vm_compute. discriminate.
  - vm_compute. reflexivity.
Defined.

Lemma create_record_run :
  forall (St : Type) (send : St -> request -> pyresult response * St)
         base_url token ref (fields : dict value) (w : world St),
    let q := create_request base_url token ref fields in
    let o := fst (send (store w) q) in
    Manager.create_record St send base_url token ref fields w
    = (match create_failure o with None => Ok tt | Some e => Raise e end,
       mkWorld (snd (send (store w) q)) (journal w ++ [(q, o)])).
Proof.
  intros St send base_url token ref fields w q o.
  unfold Manager.create_record, rbind, request_json. cbv zeta.
  fold (create_request base_url token ref fields). fold q. subst o.
  destruct (send (store w) q) as [[resp|e] s']; cbn [fst snd create_failure];
    [|reflexivity].
  unfold Manager.check_code. destruct (code_not_zero resp); reflexivity.
Qed.

(** X9. Exactly one payload is sent through the single-create call, never
    as a batch: one POST of its fields to the records URL. When the store
    accepts it the report counts one created row and keeps the errors as
    they were; when the call fails with a [RuntimeError] (as a code other
    than 0 does) the report counts none, carries the message as one more
    error and the exit code is 1. *)
Lemma main_create_single :
  forall (St : Type) (send : St -> request -> pyresult response * St)
         base_url token ref (fields : dict value) errors skipped (w : world St),
    let q := create_request base_url token ref fields in
    let o := fst (send (store w) q) in
    let w' := mkWorld (snd (send (store w) q)) (journal w ++ [(q, o)]) in
    match create_failure o with
    | None =>
        Manager.main_create St send base_url token ref [fields] errors skipped w
        = (Ok (Manager.mkReport 1 1 skipped (Fetcher.len errors) errors,
               exit_code errors), w')
    | Some e =>
        is_subclass (exn_cls e) RuntimeError = true ->
        Manager.main_create St send base_url token ref [fields] errors skipped w
        = (Ok (Manager.mkReport 0 1 skipped (Fetcher.len errors + 1)
                 (errors ++ [exn_msg e]), 1), w')
    end.
Proof.
  intros St send base_url token ref fields errors skipped w q o w'.
  unfold Manager.main_create. rewrite create_record_run. fold q o w'.
  destruct (create_failure o) as [e|].
  - intros Hcls. cbv zeta. rewrite Hcls, len_app.
    replace (match errors ++ [exn_msg e] with [] => 0 | _ => 1 end) with 1;
      [reflexivity|now destruct errors].
  - reflexivity.
Qed.

(** One payload on a store that refuses it. *)
Lemma main_create_single_witness :
  Manager.main_create nat refuse_all (txt "https://x") (txt "t-abc") sample_ref
    [[(txt "App", VStr (txt "a"))]] [] 0 (fresh O)
  = (Ok (Manager.mkReport 0 1 0 1
           [txt "create record failed: code=1254001 msg=WrongRequestBody"], 1),
     mkWorld 1%nat
       [(create_request (txt "https://x") (txt "t-abc") sample_ref
           [(txt "App", VStr (txt "a"))],
         Ok (mkResp (Some 1254001) (Some (txt "WrongRequestBody")) None))]).
Proof.
  exact (main_create_single nat refuse_all (txt "https://x") (txt "t-abc")
           sample_ref [(txt "App", VStr (txt "a"))] [] 0 (fresh O) eq_refl).
Defined.

(* ===================================================================== *)
(** ** The normal form of a value is trimmed *)
(* ===================================================================== *)

Lemma lstrip_split (s : pystr) : exists p, s = p ++ lstrip s.
Proof.
  induction s as [|c s [p IH]]; simpl; [now exists []|].
  destruct (is_space c); [|now exists []].
  exists (c :: p). simpl. now f_equal.
Qed.

Lemma lstrip_head (s : pystr) :
  match lstrip s with [] => True | c :: _ => is_space c = false end.
Proof.
  induction s as [|c s IH]; simpl; [exact I|].
  destruct (is_space c) eqn:E; [exact IH|exact E].
Qed.

Lemma lstrip_fixed (c : Z) (s : pystr) :
  is_space c = false -> lstrip (c :: s) = c :: s.
Proof. simpl. now intros ->. Qed.

Lemma rev_last_cons (s : pystr) :
  s <> [] -> rev s = last s 0 :: rev (removelast s).
Proof.
  intros H. rewrite (app_removelast_last 0 H) at 1.
  now rewrite rev_app_distr.
Qed.

Lemma last_in (s : pystr) : s <> [] -> In (last s 0) s.
Proof.
  intros H. rewrite (app_removelast_last 0 H) at 2.
  apply in_or_app. right. now left.
Qed.

Lemma last_app_cons (a : pystr) (c : Z) (b : pystr) :
  last (a ++ c :: b) 0 = last (c :: b) 0.
Proof.
  assert (H : forall s, s <> [] -> last s 0 = hd 0 (rev s)).
  { intros s Hs. now rewrite (rev_last_cons s Hs). }
  rewrite H by (destruct a; discriminate).
  rewrite (H (c :: b)) by discriminate.
  rewrite rev_app_distr. destruct (rev (c :: b)) eqn:E; [|reflexivity].
  apply (f_equal (@length Z)) in E. rewrite length_rev in E. discriminate.
Qed.

Lemma trimmed_strip (s : pystr) : trimmed s = true -> strip s = s.
Proof.
  destruct s as [|c s]; [reflexivity|]. intros H. unfold trimmed in H.
  apply andb_true_iff in H as [Hc Hl]. apply negb_true_iff in Hc, Hl.
  unfold strip, rstrip. rewrite (lstrip_fixed c s Hc).
  rewrite (rev_last_cons (c :: s)) by discriminate.
  rewrite lstrip_fixed by exact Hl.
  rewrite <- rev_last_cons by discriminate. apply rev_involutive.
Qed.

Lemma strip_trimmed (s : pystr) : trimmed (strip s) = true.
Proof.
  unfold strip, rstrip.
  assert (Ht := lstrip_head s). set (t := lstrip s) in *. clearbody t.
  destruct (lstrip_split (rev t)) as [p Hp].
  assert (Hu := lstrip_head (rev t)).
  set (u := lstrip (rev t)) in *. clearbody u.
  assert (Et : t = rev u ++ rev p).
  { rewrite <- rev_app_distr, <- Hp. now rewrite rev_involutive. }
  destruct u as [|c u]; [reflexivity|].
  change (rev (c :: u)) with (rev u ++ [c]) in *.
  destruct (rev u) as [|x r].
  - unfold trimmed. simpl. now rewrite Hu.
  - rewrite Et in Ht. simpl in Ht. unfold trimmed.
    change ((x :: r) ++ [c]) with (x :: r ++ [c]). cbv beta iota.
    rewrite Ht. change (x :: r ++ [c]) with ((x :: r) ++ [c]).
    rewrite last_last. now rewrite Hu.
Qed.

Lemma solid_trimmed (s : pystr) : solid s -> trimmed s = true.
Proof.
  destruct s as [|c s]; [reflexivity|]. intros H. unfold trimmed.
  unfold solid in H. rewrite Forall_forall in H.
  rewrite (H c) by now left.
  rewrite (H (last (c :: s) 0)) by (apply last_in; discriminate).
  reflexivity.
Qed.

Lemma solid_app (a b : pystr) : solid a -> solid b -> solid (a ++ b).
Proof. intros Ha Hb. apply Forall_app. now split. Qed.

Lemma solid_uint (d : Decimal.uint) :
  solid (txt (NilEmpty.string_of_uint d)).
Proof.
  induction d; simpl; try (constructor; [reflexivity|exact IHd]).
  constructor.
Qed.

Lemma solid_uint_zero (d : Decimal.uint) :
  solid (txt (NilZero.string_of_uint d)).
Proof.
  unfold NilZero.string_of_uint.
  destruct d; try apply solid_uint. repeat constructor.
Qed.

Lemma solid_str_of_int (n : Z) : solid (str_of_int n).
Proof.
  unfold str_of_int, NilZero.string_of_int.
  destruct (Z.to_int n) as [d|d]; [apply solid_uint_zero|].
  change (solid (45 :: txt (NilZero.string_of_uint d))).
  constructor; [reflexivity|apply solid_uint_zero].
Qed.

Lemma solid_firstn (n : nat) (s : pystr) : solid s -> solid (firstn n s).
Proof.
  unfold solid. intros H. revert n.
  induction H as [|c s Hc _ IH]; intros [|n]; simpl; constructor; auto.
Qed.

Lemma solid_skipn (n : nat) (s : pystr) : solid s -> solid (skipn n s).
Proof.
  unfold solid. intros H. revert n.
  induction H as [|c s Hc Hs IH]; intros [|n]; simpl; try constructor; auto.
Qed.

Lemma solid_rev (s : pystr) : solid s -> solid (rev s).
Proof. apply Forall_rev. Qed.

Lemma solid_drop_trailing_zeros (s : pystr) :
  solid s -> solid (drop_trailing_zeros s).
Proof.
  induction 1 as [|c s Hc Hs IH]; [constructor|].
  destruct (Z.eq_dec c 48) as [->|Hne]; [exact IH|].
  assert (E : drop_trailing_zeros (c :: s) = c :: s).
  { destruct c as [|p|p]; try reflexivity.
    do 6 (destruct p as [p|p|]; try reflexivity). now elim Hne. }
  rewrite E. now constructor.
Qed.

Lemma solid_zeros (n : Z) : solid (zeros n).
Proof.
  unfold zeros, solid. induction (Z.to_nat n); simpl; constructor; auto.
Qed.

Lemma solid_format_short (ds : pystr) (decpt : Z) :
  solid ds -> solid (format_short ds decpt).
Proof.
  intros H. unfold format_short.
  destruct (_ || _).
  - apply solid_app.
    + destruct H as [|d rest Hd Hrest]; [constructor|].
      destruct rest; repeat constructor; auto.
      * now inversion Hrest.
      * now inversion Hrest.
    + apply solid_app; [repeat constructor|].
      apply solid_app; [destruct (_ <? 0); repeat constructor|].
      destruct (_ <? 10); [constructor; [reflexivity|]|]; apply solid_str_of_int.
  - destruct (decpt <=? 0).
    + apply solid_app; [repeat constructor|].
      apply solid_app; [apply solid_zeros|exact H].
    + destruct (_ <? _).
      * apply solid_app; [now apply solid_firstn|].
        apply solid_app; [repeat constructor|now apply solid_skipn].
      * apply solid_app; [exact H|].
        apply solid_app; [apply solid_zeros|repeat constructor].
Qed.

Lemma solid_float_repr (x : pyfloat) : solid (float_repr x).
Proof.
  destruct x as [|neg|neg m e]; unfold float_repr; cbv zeta.
  - repeat constructor.
  - destruct neg; repeat constructor.
  - assert (Hsign : solid (if neg then [45] else [])).
    { destruct neg; repeat constructor. }
    destruct (m <=? 0); [apply solid_app; [exact Hsign|repeat constructor]|].
    destruct (round_binary64 _ _ _) as [[| |neg' m' e']|];
      try (apply solid_app; [exact Hsign|repeat constructor]).
    destruct (first_candidate _ _ _ _ _ _) as [[c k]|];
      [|apply solid_app; [exact Hsign|repeat constructor]].
    apply solid_app; [exact Hsign|]. apply solid_format_short.
    apply solid_rev, solid_drop_trailing_zeros, solid_rev, solid_str_of_int.
Qed.

Lemma trimmed_wrap (c : Z) (s : pystr) (d : Z) :
  is_space c = false -> is_space d = false -> trimmed (c :: s ++ [d]) = true.
Proof.
  intros Hc Hd. unfold trimmed. rewrite Hc.
  change (c :: s ++ [d]) with ((c :: s) ++ [d]). now rewrite last_last, Hd.
Qed.

Lemma dump_or_empty_trimmed (obj : dict value) (s : pystr) :
  Fetcher.dump_or_empty obj = Ok s -> trimmed s = true.
Proof.
  unfold Fetcher.dump_or_empty, try_except. simpl json_dumps.
  destruct (sequence _) as [parts|e]; simpl.
  - intros H. injection H as <-.
    exact (trimmed_wrap 123 (join (txt ", ") parts) 125 eq_refl eq_refl).
  - destruct (is_subclass _ _); [|discriminate].
    intros H. now injection H as <-.
Qed.

Lemma good_app3 (a m b : pystr) : good a -> good b -> good (a ++ m ++ b).
Proof.
  intros [Na Ta] [Nb Tb].
  destruct a as [|x a]; [discriminate|]. destruct b as [|y b]; [discriminate|].
  split; [reflexivity|].
  unfold trimmed in *. apply andb_true_iff in Ta as [Hx _].
  apply andb_true_iff in Tb as [_ Hy].
  change ((x :: a) ++ m ++ y :: b) with (x :: a ++ m ++ y :: b).
  cbv beta iota. rewrite Hx. change (x :: a ++ m ++ y :: b) with ((x :: a) ++ m ++ y :: b).
  rewrite app_assoc, last_app_cons. exact Hy.
Qed.

Lemma good_join (sep : pystr) (parts : list pystr) :
  Forall good parts -> parts <> [] -> good (join sep parts).
Proof.
  induction 1 as [|p parts Hp Hparts IH]; intros Hne; [now elim Hne|].
  destruct parts as [|p' parts]; [exact Hp|].
  change (join sep (p :: p' :: parts)) with (p ++ sep ++ join sep (p' :: parts)).
  apply good_app3; [exact Hp|]. apply IH. discriminate.
Qed.

Lemma trimmed_join (sep : pystr) (parts : list pystr) :
  Forall good parts -> trimmed (join sep parts) = true.
Proof.
  intros H. destruct parts as [|p parts]; [reflexivity|].
  apply good_join; [exact H|discriminate].
Qed.

Lemma good_filter (parts : list pystr) :
  Forall (fun p => trimmed p = true) parts -> Forall good (filter nonempty parts).
Proof.
  induction 1 as [|p parts Hp _ IH]; simpl; [constructor|].
  destruct (nonempty p) eqn:E; [constructor; [now split|exact IH]|exact IH].
Qed.

Lemma sequence_trimmed (l : list (pyresult pystr)) :
  Forall (fun r => forall s, r = Ok s -> trimmed s = true) l ->
  forall parts, sequence l = Ok parts ->
  Forall (fun p => trimmed p = true) parts.
Proof.
  induction 1 as [|r l Hr _ IH]; simpl; intros parts H.
  - injection H as <-. constructor.
  - destruct r as [a|e]; [|discriminate]. simpl in H.
    destruct (sequence l) as [t|e]; [|discriminate]. simpl in H.
    injection H as <-. constructor; [now apply Hr|now apply IH].
Qed.

Section NormaliserTrimmed.
Variable norm : value -> pyresult pystr.

Lemma normalize_at_neat (obj : dict value) (key : pystr) :
  Forall (fun kv => neat norm (snd kv)) obj ->
  forall r s, Fetcher.normalize_at norm obj key = Some r -> r = Ok s ->
              trimmed s = true.
Proof.
  induction 1 as [|[k v] obj Hv _ IH]; simpl; intros r s Hr Hs; [discriminate|].
  destruct (str_eqb k key); [|now apply (IH r)].
  injection Hr as <-. now apply Hv.
Qed.

Lemma normalize_get_neat (obj : dict value) (key : pystr) :
  Forall (fun kv => neat norm (snd kv)) obj ->
  forall s, Fetcher.normalize_get norm obj key = Ok s -> trimmed s = true.
Proof.
  intros H s. unfold Fetcher.normalize_get.
  destruct (Fetcher.normalize_at norm obj key) as [r|] eqn:E.
  - now apply (normalize_at_neat obj key H r).
  - intros Hs. now injection Hs as <-.
Qed.

Lemma first_present_neat (obj : dict value) (keys : list pystr) otherwise :
  Forall (fun kv => neat norm (snd kv)) obj ->
  (forall s, otherwise = Ok s -> trimmed s = true) ->
  forall s, Fetcher.first_present norm obj keys otherwise = Ok s ->
            trimmed s = true.
Proof.
  intros H Ho. induction keys as [|key keys IH]; simpl; [exact Ho|].
  destruct (Fetcher.normalize_at norm obj key) as [r|] eqn:E; [|exact IH].
  destruct r as [t|e]; simpl; [|discriminate].
  destruct (nonempty t); [|exact IH].
  intros s Hs. injection Hs as <-.
  now apply (normalize_at_neat obj key H (Ok t)).
Qed.

Lemma first_nonempty_neat (obj : dict value) (keys : list pystr) otherwise :
  Forall (fun kv => neat norm (snd kv)) obj ->
  (forall s, otherwise = Ok s -> trimmed s = true) ->
  forall s, Fetcher.first_nonempty norm obj keys otherwise = Ok s ->
            trimmed s = true.
Proof.
  intros H Ho. induction keys as [|key keys IH]; simpl; [exact Ho|].
  destruct (Fetcher.normalize_get norm obj key) as [t|e] eqn:E; simpl;
    [|discriminate].
  destruct (nonempty t); [|exact IH].
  intros s Hs. injection Hs as <-.
  now apply (normalize_get_neat obj key H).
Qed.

Lemma own_text_good (obj : dict value) (t : pystr) :
  Fetcher.own_text obj = Some t -> good t.
Proof.
  unfold Fetcher.own_text.
  destruct (dict_get obj (txt "text")) as [[| | | |t0| | | |]|]; try discriminate.
  destruct (nonempty (strip t0)) eqn:E; [|discriminate].
  intros H. injection H as <-. split; [exact E|apply strip_trimmed].
Qed.

Lemma normalize_bitable_object_neat (obj : dict value) :
  Forall (fun kv => neat norm (snd kv)) obj ->
  forall s, Fetcher.normalize_bitable_object_with norm obj = Ok s ->
            trimmed s = true.
Proof.
  intros H. unfold Fetcher.normalize_bitable_object_with.
  destruct obj as [|kv obj]; [intros s Hs; now injection Hs as <-|].
  set (o := kv :: obj) in *. clearbody o.
  apply first_present_neat; [exact H|].
  destruct (Fetcher.own_text o) as [t|] eqn:Et.
  { intros s Hs. injection Hs as <-. now apply (own_text_good o). }
  apply first_nonempty_neat; [exact H|].
  destruct (existsb _ _); [|apply dump_or_empty_trimmed].
  intros s.
  destruct (sequence _) as [parts|e] eqn:E; unfold bind; [|discriminate].
  assert (Hparts : Forall (fun p => trimmed p = true) parts).
  { eapply sequence_trimmed; [|exact E].
    repeat constructor; now apply normalize_get_neat. }
  apply good_filter in Hparts.
  destruct (filter nonempty parts) as [|p ps] eqn:Ef;
    [apply dump_or_empty_trimmed|].
  intros Hs. injection Hs as <-.
  change (trimmed (join (txt ",") (p :: ps)) = true). now apply trimmed_join.
Qed.

Lemma rich_text_parts_good (items : list value) :
  Forall (member_neat norm) items ->
  forall parts, Fetcher.rich_text_parts norm items = Ok parts ->
                Forall good parts.
Proof.
  induction 1 as [|item items [Ht Hd] _ IH]; simpl; intros parts Hp.
  { injection Hp as <-. constructor. }
  assert (Hplain :
    forall parts,
      (text <- norm item ;;
       parts <- Fetcher.rich_text_parts norm items ;;
       Ok (if nonempty text then text :: parts else parts)) = Ok parts ->
      Forall good parts).
  { intros ps. destruct (norm item) as [text|e] eqn:E; simpl; [|discriminate].
    destruct (Fetcher.rich_text_parts norm items) as [rest|e]; simpl;
      [|discriminate].
    intros Hs. injection Hs as <-. specialize (IH rest eq_refl).
    destruct (nonempty text) eqn:En; [|exact IH].
    constructor; [split; [exact En|now apply Ht]|exact IH]. }
  destruct item as [| | | | | | |d|]; try (now apply Hplain).
  destruct (Fetcher.own_text d) as [t|] eqn:Et.
  - destruct (Fetcher.rich_text_parts norm items) as [rest|e]; simpl in Hp;
      [|discriminate].
    injection Hp as <-. constructor; [now apply (own_text_good d)|now apply IH].
  - destruct (Fetcher.normalize_get norm d (txt "value")) as [nested|e] eqn:En;
      simpl in Hp; [|discriminate].
    destruct (Fetcher.rich_text_parts norm items) as [rest|e]; simpl in Hp;
      [|discriminate].
    injection Hp as <-. specialize (IH rest eq_refl).
    destruct (nonempty nested) eqn:Ene; [|exact IH].
    constructor; [|exact IH]. split; [exact Ene|].
    now apply (normalize_get_neat d (txt "value") Hd).
Qed.

Lemma normalize_bitable_array_neat (items : list value) :
  Forall (member_neat norm) items ->
  forall s, Fetcher.normalize_bitable_array_with norm items = Ok s ->
            trimmed s = true.
Proof.
  intros H s. unfold Fetcher.normalize_bitable_array_with.
  destruct items as [|i items]; [intros Hs; now injection Hs as <-|].
  set (l := i :: items) in *. clearbody l.
  destruct (Fetcher.is_rich_text_array l).
  - unfold Fetcher.join_rich_text_with.
    destruct (Fetcher.rich_text_parts norm l) as [parts|e] eqn:E; simpl;
      [|discriminate].
    intros Hs. injection Hs as <-. apply trimmed_join.
    now apply (rich_text_parts_good l H).
  - destruct (sequence (map norm l)) as [parts|e] eqn:E; simpl; [|discriminate].
    intros Hs. injection Hs as <-. apply trimmed_join, good_filter.
    apply (sequence_trimmed (map norm l)); [|exact E].
    apply Forall_map. eapply Forall_impl; [|exact H].
    intros a [Ha _]. exact Ha.
Qed.

End NormaliserTrimmed.

Lemma normalize_neat_deep (v : value) :
  member_neat Fetcher.normalize_bitable_value v.
Proof.
  induction v as [|b|n|x|s|b|items H|entries H|t] using value_ind_deep;
    split; try exact I; try (intros r Hr).
  - simpl in Hr. now injection Hr as <-.
  - destruct b; simpl in Hr; now injection Hr as <-.
  - simpl in Hr. injection Hr as <-. apply solid_trimmed, solid_str_of_int.
  - simpl in Hr. destruct (is_integer x).
    + destruct (int_of_float x) as [n|e]; simpl in Hr; [|discriminate].
      injection Hr as <-. apply solid_trimmed, solid_str_of_int.
    + injection Hr as <-. apply solid_trimmed, solid_float_repr.
  - simpl in Hr. injection Hr as <-. apply strip_trimmed.
  - simpl in Hr. destruct (decode_utf8 b) as [s|e]; simpl in Hr; [|discriminate].
    injection Hr as <-. apply strip_trimmed.
  - simpl in Hr. apply (normalize_bitable_array_neat Fetcher.normalize_bitable_value items);
      [|exact Hr].
    exact H.
  - simpl in Hr. apply (normalize_bitable_object_neat Fetcher.normalize_bitable_value entries);
      [|exact Hr].
    eapply Forall_impl; [|exact H]. intros kv [Hkv _]. exact Hkv.
  - eapply Forall_impl; [|exact H]. intros kv [Hkv _]. exact Hkv.
  - simpl in Hr. injection Hr as <-. apply strip_trimmed.
Qed.

(** X10. Whatever the value, a normal form has no white space at either
    end: stripping it changes nothing, so [bitable_value_to_string] returns it
    as it is, and normalising the normal form again gives it back. *)
Theorem normal_form_is_trimmed :
  forall (v : value) (s : pystr),
    Fetcher.normalize_bitable_value v = Ok s ->
    strip s = s
    /\ Fetcher.bitable_value_to_string v = Ok s
    /\ Fetcher.normalize_bitable_value (VStr s) = Ok s.
Proof.
  intros v s H.
  assert (Hs : strip s = s).
  { apply trimmed_strip. exact (proj1 (normalize_neat_deep v) s H). }
  split; [exact Hs|]. split.
  - unfold Fetcher.bitable_value_to_string. rewrite H. simpl. now rewrite Hs.
  - simpl. now rewrite Hs.
Qed.

(** A rich-text array whose runs carry white space. *)
Lemma normal_form_is_trimmed_witness :
  strip (txt "a b,c 3") = txt "a b,c 3"
  /\ Fetcher.bitable_value_to_string
       (VList [VDict [(txt "text", VStr (txt "  a "))];
               VDict [(txt "value",
                       VList [VStr (txt " b "); VStr (txt "  "); VStr (txt "c")])];
               VFloat (FFin false 3 0)])
     = Ok (txt "a b,c 3")
  /\ Fetcher.normalize_bitable_value (VStr (txt "a b,c 3")) = Ok (txt "a b,c 3").
Proof.
  apply (normal_form_is_trimmed
           (VList [VDict [(txt "text", VStr (txt "  a "))];
                   VDict [(txt "value",
                           VList [VStr (txt " b "); VStr (txt "  ");
                                  VStr (txt "c")])];
                   VFloat (FFin false 3 0)])).
  vm_compute. reflexivity.
Defined.

(* ===================================================================== *)
(** ** The fields to skip on, and the second loop of the create script *)
(* ===================================================================== *)

Lemma len_cons {A} (a : A) (l : list A) :
  Fetcher.len (a :: l) = 1 + Fetcher.len l.
Proof. unfold Fetcher.len. simpl length. lia. Qed.

Lemma existsb_str_false (x : pystr) (l : list pystr) :
  existsb (str_eqb x) l = false -> ~ In x l.
Proof.
  intros H Hin. now rewrite (existsb_str_in x l Hin) in H.
Qed.

Lemma uniq_from_in (l : list pystr) :
  forall seen x,
    In x (Manager.uniq_from seen l) <-> In x l /\ ~ In x seen.
Proof.
  induction l as [|name rest IH]; intros seen x; simpl.
  - tauto.
  - destruct (existsb (str_eqb name) seen) eqn:E.
    + rewrite IH. split.
      * intros [H1 H2]. auto.
      * intros [[->|H1] H2]; [|auto].
        exfalso. apply existsb_exists in E as (y & Hy & Eq).
        apply str_eqb_eq in Eq. subst y. auto.
    + apply existsb_str_false in E. simpl. rewrite IH. simpl. split.
      * intros [->|[H1 H2]]; [auto|]. split; [auto|]. intros H. apply H2. auto.
      * intros [[->|H1] H2]; [auto|].
        destruct (list_eq_dec Z.eq_dec name x) as [->|Hne]; [auto|].
        right. split; [exact H1|]. intros [H|H]; auto.
Qed.

Lemma uniq_from_nodup (l : list pystr) :
  forall seen, NoDup (Manager.uniq_from seen l).
Proof.
  induction l as [|name rest IH]; intros seen; simpl; [constructor|].
  destruct (existsb (str_eqb name) seen); [apply IH|].
  constructor; [|apply IH].
  rewrite uniq_from_in. intros [_ H]. apply H. now left.
Qed.

(** X11. The skip fields are pairwise distinct, and they are exactly the
    non-empty names that the non-blank comma-separated parts of the option
    stand for: the alias of the stripped part when its lower case is one,
    else the stripped part itself. *)
Theorem normalize_skip_fields_names :
  forall (str_lower : pystr -> pystr) (raw : pystr),
    NoDup (Manager.normalize_skip_fields str_lower raw)
    /\ forall name,
         In name (Manager.normalize_skip_fields str_lower raw)
         <-> nonempty name = true
             /\ exists part,
                  In part (split_on 44 raw)
                  /\ nonempty (strip part) = true
                  /\ name = Manager.alias_of str_lower (strip part).
Proof.
  intros str_lower raw. unfold Manager.normalize_skip_fields.
  destruct (nonempty raw) eqn:Eraw; simpl negb; cbv iota.
  - split; [apply uniq_from_nodup|]. intros name.
    rewrite uniq_from_in, filter_In, in_map_iff. split.
    + intros [[(p & <- & Hp) Hn] _]. split; [exact Hn|].
      apply filter_In in Hp as [Hp Hne].
      apply in_map_iff in Hp as (part & <- & Hpart). eauto.
    + intros [Hn (part & Hpart & Hne & ->)]. split; [|tauto].
      split; [|exact Hn]. exists (strip part). split; [reflexivity|].
      apply filter_In. split; [|exact Hne]. apply in_map. exact Hpart.
  - apply nonempty_false in Eraw. subst raw. split; [constructor|].
    intros name. split; [intros []|].
    intros [_ (part & [<-|[]] & Hne & _)]. discriminate.
Qed.

Section Queue.
Variable norm : value -> pyresult pystr.
Variables (cm ci : value -> option Z) (cd : value -> option value)
          (ne : value -> value).
Variables (fields_map : dict pystr) (skip_fields : list pystr)
          (ex : Manager.existing).

Lemma queue_items_grows (creates : list (dict value)) :
  forall q q',
    Manager.queue_items norm cm ci cd ne fields_map skip_fields ex creates q
    = Ok q' ->
    exists rs es,
      Manager.queue_records q' = Manager.queue_records q ++ rs
      /\ Manager.queue_errors q' = Manager.queue_errors q ++ es
      /\ Forall (fun fields => fields <> []) rs
      /\ Forall (fun e => e = txt "task: no fields to create") es
      /\ Fetcher.len rs + Fetcher.len es
         + (Manager.queue_skipped q' - Manager.queue_skipped q)
         = Fetcher.len creates
      /\ Manager.queue_skipped q <= Manager.queue_skipped q'
      /\ (skip_fields = [] ->
          Manager.queue_skipped q' = Manager.queue_skipped q).
Proof.
  induction creates as [|item rest IH]; intros q q' H.
  - simpl in H. injection H as <-. exists [], [].
    rewrite !app_nil_r. repeat split; try constructor; try reflexivity.
    unfold Fetcher.len. simpl. lia.
  - cbn [Manager.queue_items] in H.
    set (decision := match skip_fields with
                     | [] => Ok false
                     | _ => Manager.all_match norm ci skip_fields item ex
                     end) in H.
    assert (Hdec : skip_fields = [] -> decision = Ok false).
    { intros E. subst decision. now rewrite E. }
    destruct decision as [[|]|e]; [| |discriminate]; rewrite bind_ok in H.
    + apply IH in H as (rs & es & Hr & He & Hrs & Hes & Hn & Hle & Hs).
      cbn [Manager.queue_records Manager.queue_errors Manager.queue_skipped]
        in *.
      exists rs, es. repeat split; auto.
      * rewrite len_cons. lia.
      * lia.
      * intros E. specialize (Hdec E). discriminate.
    + destruct (Manager.build_create_fields cm ci cd ne fields_map item)
        as [fields|e]; [|discriminate].
      rewrite bind_ok in H. destruct fields as [|kv fields].
      * apply IH in H as (rs & es & Hr & He & Hrs & Hes & Hn & Hle & Hs).
        cbn [Manager.queue_records Manager.queue_errors Manager.queue_skipped]
          in *.
        exists rs, (txt "task: no fields to create" :: es).
        rewrite <- app_assoc in He. repeat split; auto.
        rewrite !len_cons. lia.
      * apply IH in H as (rs & es & Hr & He & Hrs & Hes & Hn & Hle & Hs).
        cbn [Manager.queue_records Manager.queue_errors Manager.queue_skipped]
          in *.
        exists ((kv :: fields) :: rs), es.
        rewrite <- app_assoc in Hr. repeat split; auto.
        -- constructor; [discriminate|exact Hrs].
        -- rewrite !len_cons. lia.
Qed.
End Queue.

(** X12. The second loop accounts for every item once: when it ends, the
    records queued, the errors added and the items skipped add up to the
    number of items; what was queued or reported before is kept in front;
    no queued record is empty, every added error is the no-fields message,
    and with no skip field nothing is skipped. *)
Theorem queue_items_accounts_for_every_item :
  forall (norm : value -> pyresult pystr) (cm ci : value -> option Z)
         (cd : value -> option value) (ne : value -> value)
         (fields_map : dict pystr) (skip_fields : list pystr)
         (ex : Manager.existing) (creates : list (dict value))
         (q q' : Manager.queue),
    Manager.queue_items norm cm ci cd ne fields_map skip_fields ex creates q
    = Ok q' ->
    exists rs es,
      Manager.queue_records q' = Manager.queue_records q ++ rs
      /\ Manager.queue_errors q' = Manager.queue_errors q ++ es
      /\ Forall (fun fields => fields <> []) rs
      /\ Forall (fun e => e = txt "task: no fields to create") es
      /\ Fetcher.len rs + Fetcher.len es
         + (Manager.queue_skipped q' - Manager.queue_skipped q)
         = Fetcher.len creates
      /\ Manager.queue_skipped q <= Manager.queue_skipped q'
      /\ (skip_fields = [] ->
          Manager.queue_skipped q' = Manager.queue_skipped q).
Proof. intros. now apply (queue_items_grows norm cm ci cd ne fields_map
                            skip_fields ex creates). Qed.

(** One item skipped, one reported, one queued. *)
Lemma queue_items_witness :
  exists rs es,
    Manager.queue_records (queued queue_sample_run) = [] ++ rs
    /\ Manager.queue_errors (queued queue_sample_run) = [] ++ es
    /\ Forall (fun fields => fields <> []) rs
    /\ Forall (fun e => e = txt "task: no fields to create") es
    /\ Fetcher.len rs + Fetcher.len es
       + (Manager.queue_skipped (queued queue_sample_run) - 0)
       = Fetcher.len queue_sample
    /\ 0 <= Manager.queue_skipped (queued queue_sample_run)
    /\ ([txt "RecordID"] = [] ->
        Manager.queue_skipped (queued queue_sample_run) = 0).
Proof.
  apply (queue_items_accounts_for_every_item Fetcher.bitable_value_to_string
           coerce_integer coerce_integer coerce_no_date extra_as_is
           default_fields [txt "RecordID"] (Manager.mkExisting [txt "rec1"] [])
           queue_sample (Manager.mkQueue [] [] 0)).
  vm_compute. reflexivity.
Defined.

Section FirstLoop.
Variable St : Type.
Variable send : St -> request -> pyresult response * St.
Variable norm : value -> pyresult pystr.
Variable ci : value -> option Z.
Variables (base_url token : pystr) (ref : BitableRef).

Lemma note_item_silent (skip_fields : list pystr) (item : dict value) :
  ~ In (txt "RecordID") skip_fields ->
  forall ex (w : world St),
    snd (Manager.note_item St send norm ci base_url token ref skip_fields
           item ex w) = w
    /\ forall ex',
         fst (Manager.note_item St send norm ci base_url token ref skip_fields
                item ex w) = Ok ex' ->
         Manager.existing_record_ids ex' = Manager.existing_record_ids ex.
Proof.
  induction skip_fields as [|f rest IH]; intros Hnot ex w.
  - simpl. split; [reflexivity|]. intros ex' H. now injection H as <-.
  - cbn [Manager.note_item].
    destruct (str_eqb f (txt "RecordID")) eqn:E.
    { apply str_eqb_eq in E. exfalso. apply Hnot. now left. }
    assert (Hrest : ~ In (txt "RecordID") rest).
    { intros H. apply Hnot. now right. }
    unfold rbind, lift.
    destruct (Manager.extract_item_value norm ci item f) as [v|e].
    + destruct (nonempty v); simpl negb; cbv iota.
      * destruct (IH Hrest
                    (Manager.mkExisting (Manager.existing_record_ids ex)
                       (Manager.note_value (Manager.existing_by_field ex) f v))
                    w) as [Hw Hids].
        split; [exact Hw|]. intros ex' H. now apply Hids in H.
      * apply (IH Hrest).
    + split; [reflexivity|]. discriminate.
Qed.

Lemma note_items_silent (skip_fields : list pystr)
    (creates : list (dict value)) :
  ~ In (txt "RecordID") skip_fields ->
  forall ex (w : world St),
    snd (Manager.note_items St send norm ci base_url token ref skip_fields
           creates ex w) = w
    /\ forall ex',
         fst (Manager.note_items St send norm ci base_url token ref
                skip_fields creates ex w) = Ok ex' ->
         Manager.existing_record_ids ex' = Manager.existing_record_ids ex.
Proof.
  intros Hnot. induction creates as [|item rest IH]; intros ex w.
  - simpl. split; [reflexivity|]. intros ex' H. now injection H as <-.
  - cbn [Manager.note_items]. unfold rbind.
    destruct (note_item_silent skip_fields item Hnot ex w) as [Hw Hids].
    destruct (Manager.note_item St send norm ci base_url token ref skip_fields
                item ex w) as [[ex1|e] w1]; simpl in Hw; subst w1.
    + destruct (IH ex1 w) as [Hw' Hids']. split; [exact Hw'|].
      intros ex' H. rewrite (Hids' ex' H). now apply Hids.
    + split; [reflexivity|]. discriminate.
Qed.
End FirstLoop.

(** X13. When [RecordID] is not among the skip fields, the first loop over
    the items sends nothing to the store: the store and the journal are as
    before, and no record id is taken as existing. *)
Theorem first_loop_silent_without_record_id :
  forall (St : Type) (send : St -> request -> pyresult response * St)
         (norm : value -> pyresult pystr) (ci : value -> option Z)
         (base_url token : pystr) (ref : BitableRef)
         (skip_fields : list pystr) (creates : list (dict value))
         (ex : Manager.existing) (w : world St),
    ~ In (txt "RecordID") skip_fields ->
    snd (Manager.note_items St send norm ci base_url token ref skip_fields
           creates ex w) = w
    /\ forall ex',
         fst (Manager.note_items St send norm ci base_url token ref
                skip_fields creates ex w) = Ok ex' ->
         Manager.existing_record_ids ex' = Manager.existing_record_ids ex.
Proof.
  intros. now apply note_items_silent.
Qed.

(** The sample items, looked up by application. *)
Lemma first_loop_silent_witness :
  snd (Manager.note_items nat refuse_all Fetcher.bitable_value_to_string
         coerce_integer (txt "https://x") (txt "t-abc") sample_ref
         [txt "App"] queue_sample (Manager.mkExisting [] []) (fresh O))
  = fresh O
  /\ forall ex',
       fst (Manager.note_items nat refuse_all Fetcher.bitable_value_to_string
              coerce_integer (txt "https://x") (txt "t-abc") sample_ref
              [txt "App"] queue_sample (Manager.mkExisting [] []) (fresh O))
       = Ok ex' ->
       Manager.existing_record_ids ex'
       = Manager.existing_record_ids (Manager.mkExisting [] []).
Proof.
  apply (first_loop_silent_without_record_id nat refuse_all
           Fetcher.bitable_value_to_string coerce_integer (txt "https://x")
           (txt "t-abc") sample_ref [txt "App"] queue_sample
           (Manager.mkExisting [] []) (fresh O)).
  intros [H|[]]. discriminate.
Defined.

(** X14. With no skip field, and when the store accepts every batch call,
    a run over items that give no or several records looks nothing up and
    skips nothing: every item is either created or reported as having no
    fields, and the exit code is 0 exactly when none was reported. *)
Theorem main_tasks_without_skip_fields :
  forall (St : Type) (send : St -> request -> pyresult response * St)
         (clamp : Z -> Z) (max_page_size : Z)
         (norm : value -> pyresult pystr) (cm ci : value -> option Z)
         (cd : value -> option value) (ne : value -> value)
         (base_url token : pystr) (ref : BitableRef) (fields_map : dict pystr)
         (creates : list (dict value)) (q : Manager.queue) (w : world St),
    Manager.queue_items norm cm ci cd ne fields_map [] (Manager.mkExisting [] [])
      creates (Manager.mkQueue [] [] 0) = Ok q ->
    Fetcher.len (Manager.queue_records q) <> 1 ->
    forallb accepted
      (serve send (store w)
         (map (batch_request base_url token ref)
            (Manager.batches_of (Manager.queue_records q)))) = true ->
    exists w',
      Manager.main_tasks St send clamp max_page_size norm cm ci cd ne base_url
        token ref fields_map [] creates w
      = (Ok (Manager.mkReport (Fetcher.len (Manager.queue_records q))
               (Fetcher.len (Manager.queue_records q)) 0
               (Fetcher.len (Manager.queue_errors q)) (Manager.queue_errors q),
             exit_code (Manager.queue_errors q)), w')
      /\ Fetcher.len (Manager.queue_records q)
         + Fetcher.len (Manager.queue_errors q) = Fetcher.len creates
      /\ map fst (skipn (length (journal w)) (journal w'))
         = map (batch_request base_url token ref)
             (Manager.batches_of (Manager.queue_records q)).
Proof.
  intros St send clamp max_page_size norm cm ci cd ne base_url token ref
    fields_map creates q w Hq Hlen Hacc.
  destruct (queue_items_grows norm cm ci cd ne fields_map [] _ creates _ q Hq)
    as (rs & es & Hr & He & _ & _ & Hn & _ & Hs).
  specialize (Hs eq_refl).
  cbn [app Manager.queue_records Manager.queue_errors Manager.queue_skipped]
    in Hr, He, Hs, Hn.
  subst rs es.
  destruct (main_create_accepted_run St send base_url token ref
              (Manager.queue_records q) (Manager.queue_errors q) 0 w Hlen Hacc)
    as (w' & Hrun & Hj & _).
  exists w'. split; [|split; [lia|exact Hj]].
  unfold Manager.main_tasks, rbind, ret, lift. rewrite Hq, Hs. exact Hrun.
Qed.

(** Three items, one of them with nothing to create. *)
Lemma main_tasks_without_skip_fields_witness :
  exists w',
    Manager.main_tasks nat accept_all Fetcher.clamp_page_size
      Fetcher.MAX_PAGE_SIZE Fetcher.bitable_value_to_string coerce_integer
      coerce_integer coerce_no_date extra_as_is (txt "https://x") (txt "t-abc")
      sample_ref default_fields [] queue_sample (fresh O)
    = (Ok (Manager.mkReport
             (Fetcher.len (Manager.queue_records (queued plain_run)))
             (Fetcher.len (Manager.queue_records (queued plain_run))) 0
             (Fetcher.len (Manager.queue_errors (queued plain_run)))
             (Manager.queue_errors (queued plain_run)),
           exit_code (Manager.queue_errors (queued plain_run))), w')
    /\ Fetcher.len (Manager.queue_records (queued plain_run))
       + Fetcher.len (Manager.queue_errors (queued plain_run))
       = Fetcher.len queue_sample
    /\ map fst (skipn (length (journal (fresh O))) (journal w'))
       = map (batch_request (txt "https://x") (txt "t-abc") sample_ref)
           (Manager.batches_of (Manager.queue_records (queued plain_run))).
Proof.
  apply (main_tasks_without_skip_fields nat accept_all Fetcher.clamp_page_size
           Fetcher.MAX_PAGE_SIZE Fetcher.bitable_value_to_string coerce_integer
           coerce_integer coerce_no_date extra_as_is (txt "https://x")
           (txt "t-abc") sample_ref default_fields queue_sample
           (queued plain_run) (fresh O)).
  - vm_compute. reflexivity.
  - vm_compute. discriminate.
  - vm_compute. reflexivity.
Defined.

(* ===================================================================== *)
(** ** The create-fields builder: overrides, fallbacks and priorities *)
(* ===================================================================== *)

Lemma dict_get_absent {A} (d : dict A) (k : pystr) :
  ~ In k (map fst d) -> dict_get d k = None.
Proof.
  induction d as [|[k0 v0] d IH]; simpl; [reflexivity|]. intros H.
  destruct (str_eqb k0 k) eqn:E.
  - apply str_eqb_eq in E. exfalso. apply H. now left.
  - apply IH. intros Hin. apply H. now right.
Qed.

Lemma merge_overrides_hit (extra_fields : dict value) :
  forall fields k v,
    NoDup (map fst extra_fields) ->
    In (k, v) extra_fields -> k <> [] -> v <> VNone ->
    dict_get (Manager.merge_overrides extra_fields fields) k = Some v.
Proof.
  induction extra_fields as [|[k0 v0] rest IH]; intros fields k v Hnd Hin Hk Hv;
    [destruct Hin|].
  simpl in Hnd. inversion Hnd as [|? ? Hnot Hrest]; subst.
  destruct Hin as [Heq|Hin].
  - injection Heq as -> ->. simpl.
    rewrite merge_overrides_other by now apply dict_get_absent.
    destruct k; [now elim Hk|].
    destruct v; try apply dict_get_set_same. now elim Hv.
  - simpl. now apply IH.
Qed.

Section BuilderRules.
Variable coerce_millis : value -> option Z.
Variable coerce_int : value -> option Z.
Variable coerce_date_payload : value -> option value.
Variable normalize_extra : value -> value.

Let build := Manager.build_create_fields coerce_millis coerce_int
               coerce_date_payload normalize_extra.

Lemma build_override fields_map item out ov k v :
  build fields_map item = Ok out ->
  get_value item (txt "fields") = VDict ov ->
  NoDup (map fst ov) ->
  In (k, v) ov -> k <> [] -> v <> VNone ->
  dict_get out k = Some v.
Proof.
  intros H Hov Hnd Hin Hk Hv.
  unfold build, Manager.build_create_fields, bind in H.
  do 17 step_build H.
  cbv beta iota zeta in H. injection H as <-.
  unfold Manager.put_overrides. rewrite Hov.
  now apply merge_overrides_hit.
Qed.

Lemma build_device fields_map item out d dd col :
  build fields_map item = Ok out ->
  columns_distinct fields_map = true ->
  Manager.stripped item (txt "device_serial") = Ok d ->
  Manager.stripped item (txt "dispatched_device") = Ok dd ->
  (if nonempty dd then dd else d) <> [] ->
  Manager.mapped fields_map (txt "DispatchedDevice") = Some col ->
  dict_get (overrides_of item) col = None ->
  dict_get out col = Some (VStr (if nonempty dd then dd else d)).
Proof.
  intros H Hd Hds Hdd Hne Hcol Hov.
  unfold build, Manager.build_create_fields, bind in H.
  rewrite Hds, Hdd in H.
  do 15 step_build H.
  cbv beta iota zeta in H. injection H as <-.
  rewrite (put_overrides_other item _ col Hov).
  rewrite put_extra_other
    by (apply (other_logical _ _ _ _ Hd Hcol); discriminate).
  frame Hd Hcol.
  apply nonempty_true in Hne. rewrite Hne.
  apply put_if_hit; exact Hcol.
Qed.

Lemma build_start fields_map item out t col :
  build fields_map item = Ok out ->
  columns_distinct fields_map = true ->
  coerce_millis (get_value item (txt "start_at")) = None ->
  coerce_millis (get_value item (txt "dispatched_at")) = Some t ->
  Manager.mapped fields_map (txt "StartAt") = Some col ->
  dict_get (overrides_of item) col = None ->
  dict_get out col = Some (VInt t).
Proof.
  intros H Hd Hs Hdi Hcol Hov.
  unfold build, Manager.build_create_fields, bind in H.
  do 17 step_build H.
  cbv beta iota zeta in H. injection H as <-.
  rewrite (put_overrides_other item _ col Hov).
  rewrite put_extra_other
    by (apply (other_logical _ _ _ _ Hd Hcol); discriminate).
  frame Hd Hcol.
  unfold Manager.start_ms_of. rewrite Hs, Hdi.
  apply put_opt_hit; exact Hcol.
Qed.

Lemma build_end fields_map item out c col :
  build fields_map item = Ok out ->
  columns_distinct fields_map = true ->
  coerce_millis (get_value item (txt "completed_at")) = Some c ->
  Manager.mapped fields_map (txt "EndAt") = Some col ->
  dict_get (overrides_of item) col = None ->
  dict_get out col = Some (VInt c).
Proof.
  intros H Hd Hc Hcol Hov.
  unfold build, Manager.build_create_fields, bind in H.
  do 17 step_build H.
  cbv beta iota zeta in H. injection H as <-.
  rewrite (put_overrides_other item _ col Hov).
  rewrite put_extra_other
    by (apply (other_logical _ _ _ _ Hd Hcol); discriminate).
  frame Hd Hcol.
  unfold Manager.end_ms_of. rewrite Hc.
  apply put_opt_hit; exact Hcol.
Qed.

Lemma build_explicit_elapsed fields_map item out n col :
  build fields_map item = Ok out ->
  columns_distinct fields_map = true ->
  coerce_int (get_value item (txt "elapsed_seconds")) = Some n ->
  Manager.mapped fields_map (txt "ElapsedSeconds") = Some col ->
  dict_get (overrides_of item) col = None ->
  dict_get out col = Some (VInt n).
Proof.
  intros H Hd Hel Hcol Hov.
  unfold build, Manager.build_create_fields, bind in H.
  assert (Eel : Manager.elapsed_of coerce_millis coerce_int item = Ok (Some n)).
  { unfold Manager.elapsed_of. now rewrite Hel. }
  rewrite Eel in H.
  do 16 step_build H.
  cbv beta iota zeta in H. injection H as <-.
  rewrite (put_overrides_other item _ col Hov).
  rewrite put_extra_other
    by (apply (other_logical _ _ _ _ Hd Hcol); discriminate).
  frame Hd Hcol. apply put_opt_hit; exact Hcol.
Qed.

End BuilderRules.

(** X15. The [fields] overrides of an item are merged last: every entry of
    the override dict with a non-empty name and a value other than [None]
    is in the built fields under that name with that value, whatever the
    builder computed for the column. *)
Theorem create_fields_overrides_win :
  forall (coerce_millis coerce_int : value -> option Z)
         (coerce_date_payload : value -> option value)
         (normalize_extra : value -> value)
         (fields_map : dict pystr) (item out ov : dict value) (k : pystr)
         (v : value),
    Manager.build_create_fields coerce_millis coerce_int coerce_date_payload
      normalize_extra fields_map item = Ok out ->
    get_value item (txt "fields") = VDict ov ->
    NoDup (map fst ov) ->
    In (k, v) ov -> k <> [] -> v <> VNone ->
    dict_get out k = Some v.
Proof.
  intros cm ci cd ne fields_map item out ov k v.
  apply (build_override cm ci cd ne).
Qed.

(** The override of the logs column, which the item does not fill itself,
    taken as it is. *)
Lemma create_fields_overrides_witness :
  dict_get (built (build_with_integers default_fields fallback_item))
    (txt "Logs") = Some (VStr (txt "own")).
Proof.
  apply (create_fields_overrides_win coerce_integer coerce_integer
           coerce_no_date extra_as_is default_fields fallback_item
           (built (build_with_integers default_fields fallback_item))
           [(txt "Logs", VStr (txt "own")); (txt "Note", VInt 1)]
           (txt "Logs") (VStr (txt "own")) eq_refl eq_refl).
  - repeat constructor; simpl; intuition discriminate.
  - now left.
  - discriminate.
  - discriminate.
Defined.

(** X16. Fallbacks and priorities of the builder, for a field map with
    pairwise distinct columns and a build that returns, on a mapped column
    the overrides do not name: the dispatched device is the item's own when
    it has one, else its device serial; the start is the dispatch time when
    no start is usable; the end is the completion time whenever there is
    one; an elapsed time given by the item is written as it is. *)
Theorem create_fields_fallbacks :
  forall (coerce_millis coerce_int : value -> option Z)
         (coerce_date_payload : value -> option value)
         (normalize_extra : value -> value)
         (fields_map : dict pystr) (item out : dict value),
    Manager.build_create_fields coerce_millis coerce_int coerce_date_payload
      normalize_extra fields_map item = Ok out ->
    columns_distinct fields_map = true ->
    (forall d dd col,
        Manager.stripped item (txt "device_serial") = Ok d ->
        Manager.stripped item (txt "dispatched_device") = Ok dd ->
        (if nonempty dd then dd else d) <> [] ->
        Manager.mapped fields_map (txt "DispatchedDevice") = Some col ->
        dict_get (overrides_of item) col = None ->
        dict_get out col = Some (VStr (if nonempty dd then dd else d)))
    /\ (forall t col,
        coerce_millis (get_value item (txt "start_at")) = None ->
        coerce_millis (get_value item (txt "dispatched_at")) = Some t ->
        Manager.mapped fields_map (txt "StartAt") = Some col ->
        dict_get (overrides_of item) col = None ->
        dict_get out col = Some (VInt t))
    /\ (forall c col,
        coerce_millis (get_value item (txt "completed_at")) = Some c ->
        Manager.mapped fields_map (txt "EndAt") = Some col ->
        dict_get (overrides_of item) col = None ->
        dict_get out col = Some (VInt c))
    /\ (forall n col,
        coerce_int (get_value item (txt "elapsed_seconds")) = Some n ->
        Manager.mapped fields_map (txt "ElapsedSeconds") = Some col ->
        dict_get (overrides_of item) col = None ->
        dict_get out col = Some (VInt n)).
Proof.
  intros cm ci cd ne fields_map item out H Hd. repeat split.
  - intros d dd col. now apply (build_device cm ci cd ne).
  - intros t col. now apply (build_start cm ci cd ne).
  - intros c col. now apply (build_end cm ci cd ne).
  - intros n col. now apply (build_explicit_elapsed cm ci cd ne).
Qed.

(** The device serial stands in for the dispatched device, the dispatch
    time for the start, the completion time goes before the end, and the
    elapsed time of the item before the computed one. *)
Lemma create_fields_fallbacks_witness :
  dict_get (built (build_with_integers default_fields fallback_item))
    (txt "DispatchedDevice") = Some (VStr (txt "dev1"))
  /\ dict_get (built (build_with_integers default_fields fallback_item))
       (txt "StartAt") = Some (VInt 5)
  /\ dict_get (built (build_with_integers default_fields fallback_item))
       (txt "EndAt") = Some (VInt 7)
  /\ dict_get (built (build_with_integers default_fields fallback_item))
       (txt "ElapsedSeconds") = Some (VInt 42).
Proof.
  destruct (create_fields_fallbacks coerce_integer coerce_integer
              coerce_no_date extra_as_is default_fields fallback_item
              (built (build_with_integers default_fields fallback_item))
              eq_refl eq_refl) as (Hdev & Hstart & Hend & Hel).
  split; [|split; [|split]].
  - apply (Hdev (txt "dev1") [] (txt "DispatchedDevice"));
      try reflexivity; discriminate.
  - apply (Hstart 5 (txt "StartAt")); reflexivity.
  - apply (Hend 7 (txt "EndAt")); reflexivity.
  - apply (Hel 42 (txt "ElapsedSeconds")); reflexivity.
Defined.

(* ===================================================================== *)
(** ** Skipping on the record id *)
(* ===================================================================== *)

Section Probes.
Variable St : Type.
Variable send : St -> request -> pyresult response * St.
Variable norm : value -> pyresult pystr.
Variable ci : value -> option Z.
Variables (base_url token : pystr) (ref : BitableRef).

Lemma continues_refl (w : world St) : continues w w.
Proof. exists []. now rewrite app_nil_r. Qed.

Lemma continues_trans (w1 w2 w3 : world St) :
  continues w1 w2 -> continues w2 w3 -> continues w1 w3.
Proof.
  intros [d1 H1] [d2 H2]. exists (d1 ++ d2). now rewrite H2, H1, app_assoc.
Qed.

Lemma confirmed_later (w w' : world St) (rid : pystr) :
  continues w w' ->
  confirmed base_url token ref (journal w) rid ->
  confirmed base_url token ref (journal w') rid.
Proof.
  intros [d Hd] (resp & Hin & Hz). exists resp. split; [|exact Hz].
  rewrite Hd. apply in_or_app. now left.
Qed.

Lemma record_exists_run (rid : pystr) (w w' : world St) (b : bool) :
  Manager.record_exists St send base_url token ref rid w = (Ok b, w') ->
  continues w w'
  /\ (b = true -> confirmed base_url token ref (journal w') rid).
Proof.
  unfold Manager.record_exists. cbv zeta.
  destruct (nonempty (strip rid));
    cbv beta iota zeta delta [negb rbind rtry request_json ret].
  - fold (probe_request base_url token ref rid).
    destruct (send (store w) (probe_request base_url token ref rid))
      as [[resp|e] s'].
    + intros H. injection H as <- <-. split.
      * eexists. reflexivity.
      * intros Hz. exists resp. split; [|exact Hz].
        simpl. apply in_or_app. right. now left.
    + destruct (is_subclass (exn_cls e) Exception); [|discriminate].
      intros H. injection H as <- <-. split; [|discriminate].
      eexists. reflexivity.
  - intros H. injection H as <- <-. split; [apply continues_refl|discriminate].
Qed.

Lemma note_item_confirms (skip_fields : list pystr) (item : dict value) :
  forall ex w ex' w',
    Manager.note_item St send norm ci base_url token ref skip_fields item ex w
    = (Ok ex', w') ->
    all_confirmed base_url token ref ex w ->
    continues w w' /\ all_confirmed base_url token ref ex' w'.
Proof.
  induction skip_fields as [|f rest IH]; intros ex w ex' w' H Hinv.
  - simpl in H. injection H as <- <-. split; [apply continues_refl|exact Hinv].
  - cbn [Manager.note_item] in H. destruct (str_eqb f (txt "RecordID")).
    + unfold rbind at 1, lift in H.
      destruct (Manager.stripped item (txt "record_id")) as [rid|e];
        [|discriminate].
      destruct (nonempty rid && _); [|now apply IH in H].
      unfold rbind in H.
      destruct (Manager.record_exists St send base_url token ref rid w)
        as [[found|e] w1] eqn:Ep; [|discriminate].
      apply record_exists_run in Ep as [Hc Hconf].
      apply IH in H as [Hc' Hinv'].
      * split; [exact (continues_trans _ _ _ Hc Hc')|exact Hinv'].
      * destruct found.
        -- intros r Hr. cbn [Manager.existing_record_ids] in Hr.
           apply in_app_or in Hr as [Hr|[<-|[]]].
           ++ apply (confirmed_later w w1 r Hc). now apply Hinv.
           ++ now apply Hconf.
        -- intros r Hr. apply (confirmed_later w w1 r Hc). now apply Hinv.
    + unfold rbind, lift in H.
      destruct (Manager.extract_item_value norm ci item f) as [v|e];
        [|discriminate].
      destruct (negb (nonempty v)); apply IH in H; auto.
Qed.

Lemma note_items_confirm (skip_fields : list pystr)
    (creates : list (dict value)) :
  forall ex w ex' w',
    Manager.note_items St send norm ci base_url token ref skip_fields creates
      ex w = (Ok ex', w') ->
    all_confirmed base_url token ref ex w ->
    continues w w' /\ all_confirmed base_url token ref ex' w'.
Proof.
  induction creates as [|item rest IH]; intros ex w ex' w' H Hinv.
  - simpl in H. injection H as <- <-. split; [apply continues_refl|exact Hinv].
  - cbn [Manager.note_items] in H. unfold rbind in H.
    destruct (Manager.note_item St send norm ci base_url token ref skip_fields
                item ex w) as [[ex1|e] w1] eqn:E1; [|discriminate].
    apply note_item_confirms in E1 as [Hc1 Hinv1]; [|exact Hinv].
    apply IH in H as [Hc2 Hinv2]; [|exact Hinv1].
    split; [exact (continues_trans _ _ _ Hc1 Hc2)|exact Hinv2].
Qed.

Lemma all_match_record_id (skip_fields : list pystr) (item : dict value)
    (ex : Manager.existing) :
  In (txt "RecordID") skip_fields ->
  Manager.all_match norm ci skip_fields item ex = Ok true ->
  exists rid,
    Manager.stripped item (txt "record_id") = Ok rid
    /\ rid <> []
    /\ In rid (Manager.existing_record_ids ex).
Proof.
  induction skip_fields as [|f rest IH]; intros Hin H; [destruct Hin|].
  cbn [Manager.all_match] in H.
  destruct (str_eqb f (txt "RecordID")) eqn:E.
  - destruct (Manager.stripped item (txt "record_id")) as [rid|e];
      [|discriminate].
    rewrite bind_ok in H.
    destruct (nonempty rid) eqn:En; [|discriminate].
    destruct (existsb (str_eqb rid) (Manager.existing_record_ids ex)) eqn:Ex;
      [|discriminate].
    exists rid. split; [reflexivity|]. split; [now apply nonempty_true|].
    apply existsb_exists in Ex as (y & Hy & Eq).
    apply str_eqb_eq in Eq. now subst y.
  - destruct Hin as [->|Hin]; [now rewrite str_eqb_refl in E|].
    destruct (Manager.extract_item_value norm ci item f) as [v|e];
      [|discriminate].
    rewrite bind_ok in H. destruct (_ || _); [discriminate|].
    now apply IH.
Qed.

End Probes.

(** X17. Skipping on the record id is backed by the store: with
    [RecordID] among the skip fields, once the first loop has run, an item
    passes the match test of the second loop only if its stripped record id
    is not blank and the store answered the existence probe for that id
    with code 0 during the first loop. *)
Theorem skip_on_record_id_is_confirmed :
  forall (St : Type) (send : St -> request -> pyresult response * St)
         (norm : value -> pyresult pystr) (ci : value -> option Z)
         (base_url token : pystr) (ref : BitableRef)
         (skip_fields : list pystr) (creates : list (dict value))
         (w w' : world St) (ex' : Manager.existing)
         (item : dict value) (by_field : dict (dict pystr)),
    Manager.note_items St send norm ci base_url token ref skip_fields creates
      (Manager.mkExisting [] []) w = (Ok ex', w') ->
    In (txt "RecordID") skip_fields ->
    Manager.all_match norm ci skip_fields item
      (Manager.mkExisting (Manager.existing_record_ids ex') by_field)
    = Ok true ->
    exists rid,
      Manager.stripped item (txt "record_id") = Ok rid
      /\ rid <> []
      /\ confirmed base_url token ref (journal w') rid.
Proof.
  intros St send norm ci base_url token ref skip_fields creates w w' ex' item
    by_field Hrun Hin Hmatch.
  apply all_match_record_id in Hmatch as (rid & Hs & Hne & Hid); [|exact Hin].
  exists rid. split; [exact Hs|]. split; [exact Hne|].
  apply note_items_confirm in Hrun as [_ Hinv].
  - now apply Hinv.
  - intros r [].
Qed.

(** The first sample item carries the one record id the store knows. *)
Lemma skip_on_record_id_witness :
  exists rid,
    Manager.stripped (hd [] queue_sample) (txt "record_id") = Ok rid
    /\ rid <> []
    /\ confirmed (txt "https://x") (txt "t-abc") sample_ref
         (journal (snd probe_sample)) rid.
Proof.
  apply (skip_on_record_id_is_confirmed nat knows_rec1
           Fetcher.bitable_value_to_string coerce_integer (txt "https://x")
           (txt "t-abc") sample_ref [txt "RecordID"] queue_sample (fresh O)
           (snd probe_sample)
           (Manager.mkExisting (noted_ids (fst probe_sample)) [])
           (hd [] queue_sample) []).
  - vm_compute. reflexivity.
  - now left.
  - vm_compute. reflexivity.
Defined.

(* ===================================================================== *)
(** ** Skipping on a field value *)
(* ===================================================================== *)

Lemma dict_has_key {A} (d : dict A) (k : pystr) :
  dict_has d k = true -> In k (map fst d).
Proof.
  unfold dict_has. induction d as [|[k0 v0] d IH]; simpl; [discriminate|].
  destruct (str_eqb k0 k) eqn:E; [|auto].
  apply str_eqb_eq in E. auto.
Qed.

Section FieldLookup.
Variable St : Type.
Variable send : St -> request -> pyresult response * St.
Variable clamp : Z -> Z.
Variable max_page_size : Z.
Variable norm : value -> pyresult pystr.
Variable ci : value -> option Z.
Variables (base_url token : pystr) (ref : BitableRef).
Variable field_map : dict pystr.

Lemma backed_app column found d0 d d1 :
  backed norm column found d -> backed norm column found (d0 ++ d ++ d1).
Proof.
  intros H v Hv. destruct (H v Hv) as (r & Hin & Hrest).
  exists r. split; [|exact Hrest].
  rewrite !received_app. apply in_or_app. right. apply in_or_app. now left.
Qed.

Lemma resolve_existing_backed column values (w w' : world St) found :
  Manager.resolve_existing_by_field St send clamp max_page_size norm base_url
    token ref column values w = (Ok found, w') ->
  exists delta,
    journal w' = journal w ++ delta /\ backed norm column found delta.
Proof.
  unfold Manager.resolve_existing_by_field. intros H.
  destruct values as [|v0 values].
  - unfold ret in H. injection H as <- <-. exists [].
    split; [now rewrite app_nil_r|]. intros v Hv. discriminate.
  - apply resolve_batches_spec in H as (delta & Hj & _ & Hget).
    exists delta. split; [exact Hj|].
    intros v Hv. unfold dict_has in Hv. rewrite Hget in Hv.
    unfold noted in Hv. simpl dict_get in Hv. cbv iota in Hv.
    destruct (nonempty v); [|discriminate].
    destruct (first_record norm column v (received delta)) as [rid|] eqn:Ef;
      [|discriminate].
    apply first_record_in in Ef as (r & Hin & Hn & Hr & Hne).
    exists r. split; [exact Hin|]. split; [exact Hn|].
    unfold row_id. now rewrite Hr.
Qed.

Lemma resolve_fields_backed (entries : list (pystr * dict pystr)) :
  forall by_field (w w' : world St) by_field' d,
    Manager.resolve_fields St send clamp max_page_size norm base_url token ref
      field_map entries by_field w = (Ok by_field', w') ->
    (forall f found, dict_get by_field f = Some found ->
       In f (map fst entries) \/ backed norm (column_of field_map f) found d) ->
    exists d',
      journal w' = journal w ++ d'
      /\ forall f found, dict_get by_field' f = Some found ->
           backed norm (column_of field_map f) found (d ++ d').
Proof.
  induction entries as [|[f0 values_map] rest IH];
    intros by_field w w' by_field' d H Hinv.
  - simpl in H. unfold ret in H. injection H as <- <-. exists [].
    split; [now rewrite app_nil_r|]. intros f found Hf. rewrite app_nil_r.
    destruct (Hinv f found Hf) as [[]|Hb]. exact Hb.
  - cbn [Manager.resolve_fields] in H. cbv zeta in H. unfold rbind in H.
    fold (column_of field_map f0) in H.
    destruct (Manager.resolve_existing_by_field St send clamp max_page_size
                norm base_url token ref (column_of field_map f0)
                (map fst values_map) w) as [[found0|e] w1] eqn:E0;
      [|discriminate].
    apply resolve_existing_backed in E0 as (d0 & Hj0 & Hb0).
    apply (IH _ _ _ _ (d ++ d0)) in H as (d1 & Hj1 & Hall).
    + exists (d0 ++ d1). split.
      * now rewrite Hj1, Hj0, app_assoc.
      * intros f found Hf. rewrite app_assoc. now apply Hall.
    + intros f found Hf.
      destruct (list_eq_dec Z.eq_dec f0 f) as [->|Hne].
      * rewrite dict_get_set_same in Hf. injection Hf as <-. right.
        apply (backed_app _ _ d d0 []) in Hb0. now rewrite app_nil_r in Hb0.
      * rewrite dict_get_set_other in Hf by exact Hne.
        destruct (Hinv f found Hf) as [[Heq|Hin]|Hb].
        -- now elim Hne.
        -- now left.
        -- right. apply (backed_app _ _ [] d d0) in Hb. exact Hb.
Qed.

Lemma all_match_field (skip_fields : list pystr) (item : dict value)
    (ex : Manager.existing) (f : pystr) :
  In f skip_fields -> f <> txt "RecordID" ->
  Manager.all_match norm ci skip_fields item ex = Ok true ->
  exists v found,
    Manager.extract_item_value norm ci item f = Ok v
    /\ v <> []
    /\ dict_get (Manager.existing_by_field ex) f = Some found
    /\ dict_has found v = true.
Proof.
  intros Hin Hf. induction skip_fields as [|f0 rest IH]; intros H;
    [destruct Hin|].
  cbn [Manager.all_match] in H.
  destruct (str_eqb f0 (txt "RecordID")) eqn:E.
  - destruct Hin as [->|Hin].
    { apply str_eqb_eq in E. contradiction. }
    destruct (Manager.stripped item (txt "record_id")) as [rid|e];
      [|discriminate].
    rewrite bind_ok in H. destruct (_ || _); [discriminate|]. now apply IH.
  - destruct (Manager.extract_item_value norm ci item f0) as [v|e] eqn:Ev;
      [|discriminate].
    rewrite bind_ok in H.
    destruct (nonempty v) eqn:En; [|discriminate]. simpl negb in H.
    cbv iota in H. simpl orb in H.
    destruct (dict_has _ v) eqn:Eh; [|discriminate]. simpl in H.
    destruct Hin as [->|Hin]; [|now apply IH].
    exists v.
    destruct (dict_get (Manager.existing_by_field ex) f) as [found|] eqn:Eg;
      [|discriminate].
    exists found. rewrite Ev. repeat split; auto. now apply nonempty_true.
Qed.

End FieldLookup.

(** X18. Skipping on a field value is backed by the store: once the values
    gathered by the first loop have been resolved, an item passes the match
    test on a skip field other than [RecordID] only if its value for that
    field is not empty and one of the searches of the resolution delivered a
    row that carries a record id and whose cell under the column of that
    field has this value as its normal form. *)
Theorem skip_on_field_is_backed :
  forall (St : Type) (send : St -> request -> pyresult response * St)
         (clamp : Z -> Z) (max_page_size : Z)
         (norm : value -> pyresult pystr) (ci : value -> option Z)
         (base_url token : pystr) (ref : BitableRef) (field_map : dict pystr)
         (noted_by by_field : dict (dict pystr)) (w w' : world St)
         (ids skip_fields : list pystr) (item : dict value) (f : pystr),
    Manager.resolve_fields St send clamp max_page_size norm base_url token ref
      field_map noted_by noted_by w = (Ok by_field, w') ->
    In f skip_fields -> f <> txt "RecordID" ->
    Manager.all_match norm ci skip_fields item
      (Manager.mkExisting ids by_field) = Ok true ->
    exists v r,
      Manager.extract_item_value norm ci item f = Ok v
      /\ v <> []
      /\ In r (received (skipn (length (journal w)) (journal w')))
      /\ norm (cell_of (column_of field_map f) r) = Ok v
      /\ row_id r <> [].
Proof.
  intros St send clamp max_page_size norm ci base_url token ref field_map
    noted_by by_field w w' ids skip_fields item f Hres Hin Hf Hmatch.
  destruct (all_match_field norm ci skip_fields item _ f Hin Hf Hmatch)
    as (v & found & Hv & Hne & Hg & Hh).
  cbn [Manager.existing_by_field] in Hg.
  apply (resolve_fields_backed St send clamp max_page_size norm base_url token
           ref field_map noted_by noted_by w w' by_field []) in Hres
    as (d & Hj & Hall).
  - destruct (Hall f found Hg v Hh) as (r & Hr & Hn & Hid).
    exists v, r. repeat split; auto.
    rewrite Hj, skipn_app, skipn_all, Nat.sub_diag. exact Hr.
  - intros f0 found0 Hf0. left. apply dict_has_key.
    unfold dict_has. now rewrite Hf0.
Qed.

(** The item's business id, known to the store. *)
Lemma skip_on_field_witness :
  exists v r,
    Manager.extract_item_value Fetcher.bitable_value_to_string coerce_integer
      biz_item (txt "BizTaskID") = Ok v
    /\ v <> []
    /\ In r (received (skipn (length (journal (fresh O)))
                         (journal (snd biz_resolved))))
    /\ Fetcher.bitable_value_to_string
         (cell_of (column_of (Manager.skip_field_map default_fields
                                [txt "BizTaskID"] []) (txt "BizTaskID")) r)
       = Ok v
    /\ row_id r <> [].
Proof.
  apply (skip_on_field_is_backed nat known_rows Fetcher.clamp_page_size
           Fetcher.MAX_PAGE_SIZE Fetcher.bitable_value_to_string coerce_integer
           (txt "https://x") (txt "t-abc") sample_ref
           (Manager.skip_field_map default_fields [txt "BizTaskID"] [])
           biz_values (resolved_fields biz_resolved) (fresh O)
           (snd biz_resolved) [] [txt "BizTaskID"] biz_item (txt "BizTaskID")).
  - vm_compute. reflexivity.
  - now left.
  - discriminate.
  - vm_compute. reflexivity.
Defined.

(* ===================================================================== *)
(** ** The items as [load_creates] hands them to the builder *)
(* ===================================================================== *)

Lemma normalized_extra args fields_map item :
  get_value (Manager.normalize_item args fields_map item) (txt "extra")
  = if nonempty (Manager.first_cdn_url item Manager.CDN_KEYS)
    then VDict [(txt "cdn_url",
                 VStr (Manager.first_cdn_url item Manager.CDN_KEYS))]
    else Manager.pick item (txt "extra") (Manager.arg args "extra").
Proof. reflexivity. Qed.

Lemma normalized_force_extra args fields_map item :
  get_value (Manager.normalize_item args fields_map item) (txt "force_extra")
  = VBool (nonempty (Manager.first_cdn_url item Manager.CDN_KEYS)).
Proof. reflexivity. Qed.

Lemma normalized_fields args fields_map item :
  get_value (Manager.normalize_item args fields_map item) (txt "fields")
  = VDict
      (match get_value item (txt "fields") with
       | VDict raw_fields =>
           Manager.merge_overrides raw_fields
             (Manager.column_members
                (Manager.allowed_field_names fields_map) item [])
       | _ => Manager.column_members
                (Manager.allowed_field_names fields_map) item []
       end).
Proof. reflexivity. Qed.

Lemma normalized_keys args fields_map item :
  map fst (Manager.normalize_item args fields_map item) = merged_keys.
Proof. reflexivity. Qed.

Section Handover.
Variable coerce_millis : value -> option Z.
Variable coerce_int : value -> option Z.
Variable coerce_date_payload : value -> option value.
Variable normalize_extra : value -> value.

Let build := Manager.build_create_fields coerce_millis coerce_int
               coerce_date_payload normalize_extra.

Lemma build_extra fields_map item out col :
  build fields_map item = Ok out ->
  get_value item (txt "extra") <> VNone ->
  truthy (normalize_extra (get_value item (txt "extra")))
  || truthy (get_value item (txt "force_extra")) = true ->
  Manager.mapped fields_map (txt "Extra") = Some col ->
  dict_get (overrides_of item) col = None ->
  dict_get out col = Some (normalize_extra (get_value item (txt "extra"))).
Proof.
  intros H Hne Hforce Hcol Hov.
  unfold build, Manager.build_create_fields, bind in H.
  do 17 step_build H.
  cbv beta iota zeta in H. injection H as <-.
  rewrite (put_overrides_other item _ col Hov).
  unfold Manager.put_extra.
  destruct (get_value item (txt "extra")) eqn:E; try (now elim Hne);
    rewrite Hforce; apply put_if_hit; exact Hcol.
Qed.

End Handover.

(** X19. A CDN URL takes the place of the extra payload. When one of the
    members [CDNURL], [cdn_url], [cdnUrl], [cdnurl] of an input item holds a
    text that is not blank, the first of them in that order, stripped, is
    what the builder writes to the Extra column as [{"cdn_url": ...}] once
    normalised, whatever the item's own extra and the [--extra] option are,
    and even when the normalised payload is falsy. The column must be mapped
    and not named by the item's column members. *)
Theorem cdn_url_replaces_extra :
  forall (coerce_millis coerce_int : value -> option Z)
         (coerce_date_payload : value -> option value)
         (normalize_extra : value -> value)
         (args : Manager.namespace) (fields_map : dict pystr)
         (item out : dict value) (col : pystr),
    Manager.first_cdn_url item Manager.CDN_KEYS <> [] ->
    Manager.build_create_fields coerce_millis coerce_int coerce_date_payload
      normalize_extra fields_map
      (Manager.normalize_item args fields_map item) = Ok out ->
    Manager.mapped fields_map (txt "Extra") = Some col ->
    dict_get (overrides_of (Manager.normalize_item args fields_map item)) col
    = None ->
    dict_get out col
    = Some (normalize_extra
              (VDict [(txt "cdn_url",
                       VStr (Manager.first_cdn_url item Manager.CDN_KEYS))])).
Proof.
  intros cm ci cd ne args fields_map item out col Hcdn Hbuild Hcol Hov.
  apply nonempty_true in Hcdn.
  pose proof (build_extra cm ci cd ne fields_map _ out col Hbuild) as H.
  rewrite normalized_extra, normalized_force_extra, Hcdn in H.
  apply H; auto.
  - discriminate.
  - apply orb_true_r.
Qed.

(** The CDN URL of the sample item goes before its own extra. *)
Lemma cdn_url_replaces_extra_witness :
  dict_get (built cdn_built) (txt "Extra")
  = Some (extra_as_is
            (VDict [(txt "cdn_url",
                     VStr (Manager.first_cdn_url cdn_item Manager.CDN_KEYS))])).
Proof.
  apply (cdn_url_replaces_extra coerce_integer coerce_integer coerce_no_date
           extra_as_is input_args shelf_fields cdn_item (built cdn_built)
           (txt "Extra")).
  - vm_compute. discriminate.
  - vm_compute. reflexivity.
  - vm_compute. reflexivity.
  - vm_compute. reflexivity.
Defined.

Lemma dict_set_keys {A} (d : dict A) (k : pystr) (v : A) :
  NoDup (map fst d) -> NoDup (map fst (dict_set d k v)).
Proof.
  induction d as [|[k0 v0] d IH]; simpl; intros H.
  - constructor; [intros []|constructor].
  - inversion H as [|? ? Hnot Hrest]; subst.
    destruct (str_eqb k0 k) eqn:E; simpl; [now constructor|].
    constructor; [|now apply IH].
    intros Hin. apply Hnot. clear -Hin E.
    induction d as [|[k1 v1] d IH]; simpl in *.
    + destruct Hin as [->|[]]. now rewrite str_eqb_refl in E.
    + destruct (str_eqb k1 k); simpl in Hin; [exact Hin|].
      destruct Hin as [->|Hin]; [now left|right; now apply IH].
Qed.

Lemma merge_overrides_keys (extra_fields : dict value) :
  forall fields,
    NoDup (map fst fields) ->
    NoDup (map fst (Manager.merge_overrides extra_fields fields)).
Proof.
  induction extra_fields as [|[k v] rest IH]; intros fields H; simpl;
    [exact H|].
  apply IH. destruct k; [exact H|].
  destruct v; try exact H; now apply dict_set_keys.
Qed.

Lemma column_members_keys allowed (entries : dict value) :
  forall acc,
    NoDup (map fst acc) ->
    NoDup (map fst (Manager.column_members allowed entries acc)).
Proof.
  induction entries as [|[k v] rest IH]; intros acc H;
    cbn [Manager.column_members]; [exact H|].
  apply IH. destruct (existsb (str_eqb k) Manager.KNOWN_KEYS); [exact H|].
  destruct (_ && _); [now apply dict_set_keys|exact H].
Qed.

Lemma column_members_other allowed (entries : dict value) (k : pystr) :
  forall acc,
    ~ In k (map fst entries) ->
    dict_get (Manager.column_members allowed entries acc) k = dict_get acc k.
Proof.
  induction entries as [|[k0 v0] rest IH]; intros acc H;
    cbn [Manager.column_members]; [reflexivity|].
  cbn [map fst] in H. rewrite IH by (intros Hin; apply H; now right).
  destruct (existsb (str_eqb k0) Manager.KNOWN_KEYS); [reflexivity|].
  destruct (_ && _); [|reflexivity].
  apply dict_get_set_other. intros ->. apply H. now left.
Qed.

Lemma column_members_hit allowed (entries : dict value) (k : pystr) (v : value) :
  forall acc,
    NoDup (map fst entries) -> In (k, v) entries ->
    ~ In k Manager.KNOWN_KEYS -> In k allowed -> v <> VNone ->
    dict_get (Manager.column_members allowed entries acc) k = Some v.
Proof.
  induction entries as [|[k0 v0] rest IH]; intros acc Hnd Hin Hk Ha Hv;
    [destruct Hin|].
  cbn [map fst] in Hnd. inversion Hnd as [|? ? Hnot Hrest]; subst.
  cbn [Manager.column_members].
  destruct Hin as [Heq|Hin].
  - injection Heq as -> ->. rewrite column_members_other by exact Hnot.
    destruct (existsb (str_eqb k) Manager.KNOWN_KEYS) eqn:E.
    { apply existsb_exists in E as (y & Hy & Eq).
      apply str_eqb_eq in Eq. subst y. contradiction. }
    rewrite (existsb_str_in k allowed Ha).
    destruct v; try apply dict_get_set_same. now elim Hv.
  - now apply IH.
Qed.

Lemma merge_overrides_get (extra_fields : dict value) (k : pystr) (v : value) :
  forall fields,
    NoDup (map fst extra_fields) ->
    dict_get extra_fields k = Some v -> k <> [] -> v <> VNone ->
    dict_get (Manager.merge_overrides extra_fields fields) k = Some v.
Proof.
  intros fields Hnd Hget. apply merge_overrides_hit; [exact Hnd|].
  clear Hnd. induction extra_fields as [|[k0 v0] rest IH]; simpl in *;
    [discriminate|].
  destruct (str_eqb k0 k) eqn:E; [|right; now apply IH].
  apply str_eqb_eq in E. subst k0. injection Hget as ->. now left.
Qed.

(** X20. A member of an input item named after a column goes to that
    column. For an item with distinct keys: a member whose key is not one
    of the known keys but is a column of the field map, and whose value is
    not [None], is in the fields the builder returns, under its key and
    with its value, unless the item's [fields] member names that key. *)
Theorem column_member_is_written :
  forall (coerce_millis coerce_int : value -> option Z)
         (coerce_date_payload : value -> option value)
         (normalize_extra : value -> value)
         (args : Manager.namespace) (fields_map : dict pystr)
         (item out : dict value) (k : pystr) (v : value),
    NoDup (map fst item) ->
    In (k, v) item ->
    ~ In k Manager.KNOWN_KEYS ->
    In k (map snd fields_map) -> k <> [] ->
    v <> VNone ->
    dict_get (overrides_of item) k = None ->
    Manager.build_create_fields coerce_millis coerce_int coerce_date_payload
      normalize_extra fields_map
      (Manager.normalize_item args fields_map item) = Ok out ->
    dict_get out k = Some v.
Proof.
  intros cm ci cd ne args fields_map item out k v Hnd Hin Hk Hcol Hne Hv Hov
    Hbuild.
  assert (Hallowed : In k (Manager.allowed_field_names fields_map)).
  { apply filter_In. split; [exact Hcol|now apply nonempty_true]. }
  pose proof (column_members_hit (Manager.allowed_field_names fields_map)
                item k v [] Hnd Hin Hk Hallowed Hv) as Hmember.
  unfold Manager.build_create_fields, bind in Hbuild.
  do 17 step_build Hbuild.
  cbv beta iota zeta in Hbuild. injection Hbuild as <-.
  unfold Manager.put_overrides. rewrite normalized_fields.
  apply merge_overrides_get; auto.
  - unfold overrides_of in Hov.
    destruct (get_value item (txt "fields"));
      try (apply column_members_keys; constructor).
    apply merge_overrides_keys, column_members_keys. constructor.
  - unfold overrides_of in Hov.
    destruct (get_value item (txt "fields")); try exact Hmember.
    now rewrite merge_overrides_other.
Qed.

(** The member [Shelf] of the sample item, a column of the field map. *)
Lemma column_member_witness :
  dict_get (built cdn_built) (txt "Shelf") = Some (VInt 3).
Proof.
  apply (column_member_is_written coerce_integer coerce_integer coerce_no_date
           extra_as_is input_args shelf_fields cdn_item (built cdn_built)
           (txt "Shelf") (VInt 3)).
  - repeat constructor; simpl; intuition discriminate.
  - simpl. tauto.
  - vm_compute. intuition discriminate.
  - apply in_map_iff. exists (txt "ShelfNo", txt "Shelf").
    split; [reflexivity|]. apply in_or_app. right. now left.
  - discriminate.
  - discriminate.
  - reflexivity.
  - vm_compute. reflexivity.
Defined.

Section UnknownSkipField.
Variable norm : value -> pyresult pystr.
Variables (cm ci : value -> option Z) (cd : value -> option value)
          (ne : value -> value).
Variable f : pystr.
Hypothesis norm_none : norm VNone = Ok [].
Hypothesis not_special : ~ In f special_skip_fields.
Hypothesis not_merged : ~ In f merged_keys.

Lemma extract_unknown args fields_map item :
  Manager.extract_item_value norm ci
    (Manager.normalize_item args fields_map item) f = Ok [].
Proof.
  unfold Manager.extract_item_value.
  assert (Hs : forall name, In name special_skip_fields ->
                            str_eqb f name = false).
  { intros name Hin. apply str_eqb_neq. intros ->. contradiction. }
  rewrite !Hs by (simpl; tauto).
  unfold get_value. rewrite dict_get_absent; [exact norm_none|].
  now rewrite normalized_keys.
Qed.

Lemma all_match_unknown skip_fields args fields_map item ex :
  In f skip_fields ->
  no_match (Manager.all_match norm ci skip_fields
              (Manager.normalize_item args fields_map item) ex).
Proof.
  induction skip_fields as [|f0 rest IH]; intros Hin; [destruct Hin|].
  cbn [Manager.all_match].
  destruct (str_eqb f0 (txt "RecordID")) eqn:E.
  - destruct Hin as [->|Hin].
    { apply str_eqb_eq in E. exfalso. apply not_special. rewrite E.
      simpl. tauto. }
    destruct (Manager.stripped _ _) as [rid|e]; [|right; now exists e].
    rewrite bind_ok. destruct (_ || _); [now left|now apply IH].
  - destruct Hin as [->|Hin].
    + rewrite extract_unknown. rewrite bind_ok. now left.
    + destruct (Manager.extract_item_value _ _ _ f0) as [v|e];
        [|right; now exists e].
      rewrite bind_ok. destruct (_ || _); [now left|now apply IH].
Qed.

Lemma queue_items_unknown fields_map skip_fields ex args parsed_map :
  In f skip_fields ->
  forall items q q',
    Manager.queue_items norm cm ci cd ne fields_map skip_fields ex
      (map (Manager.normalize_item args parsed_map) items) q = Ok q' ->
    Manager.queue_skipped q' = Manager.queue_skipped q.
Proof.
  intros Hin. induction items as [|item items IH]; intros q q' H.
  - simpl in H. now injection H as <-.
  - cbn [map Manager.queue_items] in H.
    destruct skip_fields as [|f0 rest] eqn:Esf; [destruct Hin|].
    rewrite <- Esf in *.
    destruct (all_match_unknown skip_fields args parsed_map item ex Hin)
      as [Hm|[e Hm]]; rewrite Hm in H; [|rewrite Esf in H; discriminate].
    rewrite Esf in H. rewrite bind_ok in H. rewrite <- Esf in H.
    destruct (Manager.build_create_fields cm ci cd ne fields_map _)
      as [fields|e]; [|discriminate].
    rewrite bind_ok in H.
    destruct fields; apply IH in H; exact H.
Qed.

End UnknownSkipField.

Lemma load_creates_map args fields_map parsed :
  exists items,
    Manager.load_creates args fields_map parsed
    = map (Manager.normalize_item args fields_map) items.
Proof.
  unfold Manager.load_creates.
  destruct (truthy (Manager.arg args "input")).
  - induction parsed as [|p parsed [items IH]]; [now exists []|].
    simpl. rewrite IH.
    destruct p as [| | | | | | |d|]; try (now exists items).
    now exists (d :: items).
  - now exists [Manager.args_item args].
Qed.

(** X21. A skip field that [extract_item_value] cannot read disables
    skipping. The items of [load_creates] carry the keys of the normalised
    item only; a skip field that is neither one of the seven names read
    from a key of their own nor such a key has the value of [None] on every
    item, which (the cell normaliser giving the empty text for [None])
    matches nothing: with such a field among the skip fields, the second
    loop skips no item. *)
Theorem unknown_skip_field_skips_nothing :
  forall (norm : value -> pyresult pystr) (cm ci : value -> option Z)
         (cd : value -> option value) (ne : value -> value)
         (args : Manager.namespace) (fields_map : dict pystr)
         (parsed : list value) (skip_fields : list pystr) (f : pystr)
         (ex : Manager.existing) (q q' : Manager.queue),
    norm VNone = Ok [] ->
    In f skip_fields ->
    ~ In f special_skip_fields ->
    ~ In f merged_keys ->
    Manager.queue_items norm cm ci cd ne fields_map skip_fields ex
      (Manager.load_creates args fields_map parsed) q = Ok q' ->
    Manager.queue_skipped q' = Manager.queue_skipped q.
Proof.
  intros norm cm ci cd ne args fields_map parsed skip_fields f ex q q'
    Hnone Hin Hspecial Hmerged H.
  destruct (load_creates_map args fields_map parsed) as [items Hitems].
  rewrite Hitems in H.
  now apply (queue_items_unknown norm cm ci cd ne f Hnone Hspecial Hmerged
               fields_map skip_fields ex args fields_map Hin items q q').
Qed.

(** The application of the sample item is known to the store, and yet the
    item is not skipped: [Status] is among the skip fields. *)
Lemma unknown_skip_field_witness :
  Manager.queue_skipped (queued status_queue)
  = Manager.queue_skipped (Manager.mkQueue [] [] 0).
Proof.
  apply (unknown_skip_field_skips_nothing Fetcher.bitable_value_to_string
           coerce_integer coerce_integer coerce_no_date extra_as_is input_args
           default_fields [VDict cdn_item] [txt "App"; txt "Status"]
           (txt "Status")
           (Manager.mkExisting [] [(txt "App", [(txt "a", txt "rec1")])])
           (Manager.mkQueue [] [] 0) (queued status_queue)).
  - reflexivity.
  - simpl. tauto.
  - vm_compute. intuition discriminate.
  - vm_compute. intuition discriminate.
  - vm_compute. reflexivity.
Defined.

(* ===================================================================== *)
(** ** The table reference *)
(* ===================================================================== *)

Lemma strip_strip (s : pystr) : strip (strip s) = strip s.
Proof. apply trimmed_strip, strip_trimmed. Qed.

Lemma first_stripped_some (vals : list pystr) (v : pystr) :
  Fetcher.first_stripped vals = Some v -> v <> [] /\ strip v = v.
Proof.
  induction vals as [|val rest IH]; simpl; [discriminate|].
  destruct (nonempty val && nonempty (strip val)) eqn:E; [|exact IH].
  intros H. injection H as <-. apply andb_true_iff in E as [_ E].
  split; [now apply nonempty_true|apply strip_strip].
Qed.

Lemma first_query_value_trimmed (qs : dict (list pystr)) (keys : list pystr) :
  strip (Fetcher.first_query_value qs keys) = Fetcher.first_query_value qs keys.
Proof.
  induction keys as [|key rest IH]; simpl; [reflexivity|].
  destruct (Fetcher.first_stripped _) as [v|] eqn:E; [|exact IH].
  now apply first_stripped_some in E.
Qed.

Lemma scan_segments_step (p next : pystr) (rest : list pystr)
    (app_token wiki_token : pystr) :
  Fetcher.scan_segments (p :: next :: rest) app_token wiki_token
  = if nonempty (if str_eqb p (txt "base") then next else app_token)
    then (if str_eqb p (txt "base") then next else app_token,
          if str_eqb p (txt "base") then wiki_token
          else if str_eqb p (txt "wiki") then next else wiki_token)
    else Fetcher.scan_segments (next :: rest)
           (if str_eqb p (txt "base") then next else app_token)
           (if str_eqb p (txt "base") then wiki_token
            else if str_eqb p (txt "wiki") then next else wiki_token).
Proof. reflexivity. Qed.

Lemma scan_segments_base (pre : list pystr) (tok : pystr) (post : list pystr) :
  forall wiki_token,
    ~ In (txt "base") pre -> tok <> [] ->
    fst (Fetcher.scan_segments (pre ++ txt "base" :: tok :: post) []
           wiki_token) = tok.
Proof.
  induction pre as [|p pre IH]; intros wiki_token Hnot Htok.
  - change ([] ++ txt "base" :: tok :: post) with (txt "base" :: tok :: post).
    rewrite scan_segments_step. rewrite str_eqb_refl.
    apply nonempty_true in Htok. now rewrite Htok.
  - assert (Hp : str_eqb p (txt "base") = false).
    { apply str_eqb_neq. intros ->. apply Hnot. now left. }
    assert (Hpre : ~ In (txt "base") pre).
    { intros H. apply Hnot. now right. }
    change ((p :: pre) ++ txt "base" :: tok :: post)
      with (p :: (pre ++ txt "base" :: tok :: post)).
    destruct (pre ++ txt "base" :: tok :: post) as [|next rest] eqn:E.
    { destruct pre; discriminate. }
    rewrite scan_segments_step, Hp. cbn [nonempty]. now apply IH.
Qed.

Lemma scan_segments_plain (segments : list pystr) :
  forall wiki_token,
    ~ In (txt "base") segments -> ~ In (txt "wiki") segments ->
    Fetcher.scan_segments segments [] wiki_token = ([], wiki_token).
Proof.
  induction segments as [|p rest IH]; intros wiki_token Hb Hw; [reflexivity|].
  destruct rest as [|next rest]; [reflexivity|].
  assert (Hp : str_eqb p (txt "base") = false).
  { apply str_eqb_neq. intros ->. apply Hb. now left. }
  assert (Hq : str_eqb p (txt "wiki") = false).
  { apply str_eqb_neq. intros ->. apply Hw. now left. }
  rewrite scan_segments_step, Hp, Hq. cbn [nonempty]. apply IH.
  - intros H. apply Hb. now right.
  - intros H. apply Hw. now right.
Qed.

Lemma path_segments_nonempty (path seg : pystr) :
  In seg (Fetcher.path_segments path) -> seg <> [].
Proof.
  unfold Fetcher.path_segments. intros H. apply filter_In in H as [_ H].
  now apply nonempty_true.
Qed.

Lemma last_in_list (l : list pystr) : l <> [] -> In (last l []) l.
Proof.
  intros H. rewrite (app_removelast_last [] H) at 2.
  apply in_or_app. right. now left.
Qed.

Section UrlFacts.
Variable urlparse : pystr -> pystr * pystr * pystr.
Variable parse_qs : pystr -> dict (list pystr).

Lemma parse_bitable_url_ok (raw : pystr) (ref : BitableRef) :
  Fetcher.parse_bitable_url urlparse parse_qs raw = Ok ref ->
  let segments := Fetcher.path_segments (path_of urlparse raw) in
  raw_url ref = strip raw
  /\ raw_url ref <> []
  /\ table_id ref <> []
  /\ strip (table_id ref) = table_id ref
  /\ strip (view_id ref) = view_id ref
  /\ wiki_token ref = snd (Fetcher.scan_segments segments [] [])
  /\ app_token ref
     = (let '(app_token, wiki_token) := Fetcher.scan_segments segments [] [] in
        if negb (nonempty app_token) && negb (nonempty wiki_token) then
          match segments with
          | [] => app_token
          | _ => last segments []
          end
        else app_token).
Proof.
  unfold Fetcher.parse_bitable_url, path_of. cbv zeta.
  destruct (nonempty (strip raw)) eqn:Eraw; cbn [negb]; [|discriminate].
  destruct (urlparse (strip raw)) as [[scheme path] query]. cbn [fst snd].
  destruct (nonempty scheme); cbn [negb]; [|discriminate].
  destruct (Fetcher.scan_segments (Fetcher.path_segments path) [] [])
    as [app_token0 wiki_token0].
  destruct (nonempty (Fetcher.first_query_value (parse_qs query) _)) eqn:Et;
    cbn [negb]; [|discriminate].
  intros H. injection H as <-. cbn [raw_url table_id view_id wiki_token app_token snd].
  repeat split.
  - now apply nonempty_true.
  - now apply nonempty_true.
  - exact (first_query_value_trimmed (parse_qs query)
             [txt "table"; txt "tableId"; txt "table_id"]).
  - exact (first_query_value_trimmed (parse_qs query)
             [txt "view"; txt "viewId"; txt "view_id"]).
Qed.

End UrlFacts.

(** X22. What [parse_bitable_url] answers. It raises nothing but a
    [ValueError]. A reference it returns has the stripped URL, which is not
    empty, a table id that is not empty, table and view ids without white
    space around them, and an app token or a wiki token unless the path of
    the URL has no segment at all. *)
Theorem parse_bitable_url_outcome :
  forall (urlparse : pystr -> pystr * pystr * pystr)
         (parse_qs : pystr -> dict (list pystr)) (raw : pystr),
    match Fetcher.parse_bitable_url urlparse parse_qs raw with
    | Ok ref =>
        raw_url ref = strip raw
        /\ raw_url ref <> []
        /\ table_id ref <> []
        /\ strip (table_id ref) = table_id ref
        /\ strip (view_id ref) = view_id ref
        /\ (app_token ref = [] -> wiki_token ref = [] ->
            Fetcher.path_segments (path_of urlparse raw) = [])
    | Raise e => exn_cls e = ValueError
    end.
Proof.
  intros urlparse parse_qs raw.
  destruct (Fetcher.parse_bitable_url urlparse parse_qs raw) as [ref|e] eqn:E.
  - apply parse_bitable_url_ok in E. cbv zeta in E.
    destruct E as (H1 & H2 & H3 & H4 & H5 & Hw & Ha).
    repeat split; auto. intros Happ Hwiki.
    set (segments := Fetcher.path_segments (path_of urlparse raw)) in *.
    destruct (Fetcher.scan_segments segments [] []) as [a0 w0].
    cbn [snd] in Hw. rewrite Hwiki in Hw. subst w0.
    destruct (nonempty a0) eqn:Ea; cbn [negb andb nonempty] in Ha.
    + rewrite Happ in Ha. subst a0. discriminate.
    + destruct segments as [|s0 rest] eqn:Es; [reflexivity|].
      exfalso. assert (Hin : In (last (s0 :: rest) []) segments).
      { rewrite Es. apply last_in_list. discriminate. }
      apply path_segments_nonempty in Hin. apply Hin.
      now rewrite <- Ha.
  - unfold Fetcher.parse_bitable_url in E. cbv zeta in E.
    destruct (negb (nonempty (strip raw))).
    { injection E as <-. reflexivity. }
    destruct (urlparse (strip raw)) as [[scheme path] query].
    destruct (negb (nonempty scheme)).
    { injection E as <-. reflexivity. }
    destruct (Fetcher.scan_segments _ _ _) as [a0 w0].
    destruct (negb (nonempty _)); [|discriminate].
    injection E as <-. reflexivity.
Qed.

(** X23. Where the tokens of a reference come from. In the path segments
    of the URL the segment that follows the first [base] is the app token;
    when no segment is [base] or [wiki] the last segment is the app token
    and there is no wiki token. *)
Theorem parse_bitable_url_tokens :
  forall (urlparse : pystr -> pystr * pystr * pystr)
         (parse_qs : pystr -> dict (list pystr)) (raw : pystr)
         (ref : BitableRef),
    Fetcher.parse_bitable_url urlparse parse_qs raw = Ok ref ->
    (forall pre tok post,
        Fetcher.path_segments (path_of urlparse raw)
        = pre ++ txt "base" :: tok :: post ->
        ~ In (txt "base") pre ->
        app_token ref = tok)
    /\ (~ In (txt "base") (Fetcher.path_segments (path_of urlparse raw)) ->
        ~ In (txt "wiki") (Fetcher.path_segments (path_of urlparse raw)) ->
        wiki_token ref = []
        /\ app_token ref
           = last (Fetcher.path_segments (path_of urlparse raw)) []).
Proof.
  intros urlparse parse_qs raw ref E.
  apply parse_bitable_url_ok in E. cbv zeta in E.
  destruct E as (_ & _ & _ & _ & _ & Hw & Ha).
  set (segments := Fetcher.path_segments (path_of urlparse raw)) in *.
  split.
  - intros pre tok post Hseg Hnot.
    assert (Htok : tok <> []).
    { apply (path_segments_nonempty (path_of urlparse raw)).
      fold segments. rewrite Hseg. apply in_or_app. right. right. now left. }
    pose proof (scan_segments_base pre tok post [] Hnot Htok) as Hscan.
    rewrite <- Hseg in Hscan.
    destruct (Fetcher.scan_segments segments [] []) as [a0 w0].
    cbn [fst] in Hscan. subst a0.
    apply nonempty_true in Htok. now rewrite Htok in Ha.
  - intros Hb Hk.
    rewrite (scan_segments_plain segments [] Hb Hk) in Hw, Ha.
    cbn [snd nonempty negb andb] in Hw, Ha. split; [exact Hw|].
    rewrite Ha. now destruct segments.
Qed.

(** A URL whose path is [/wiki/base/ABC123/]: the segment after [base] is
    the app token. *)
Lemma parse_bitable_url_tokens_witness :
  app_token (parsed_ref sample_parse) = txt "ABC123".
Proof.
  apply (proj1 (parse_bitable_url_tokens sample_urlparse sample_parse_qs
                  (txt " https://x/wiki/base/ABC123/?table=T1&view=%20 ")
                  (parsed_ref sample_parse) eq_refl)
           [txt "wiki"] (txt "ABC123") []).
  - reflexivity.
  - intros [H|[]]. discriminate.
Defined.

(* ===================================================================== *)
(** ** How the fetch script ends *)
(* ===================================================================== *)







(* ===================================================================== *)
(** ** The calls of a scan *)
(* ===================================================================== *)

Lemma clamp_page_size_range (size : Z) :
  1 <= Fetcher.clamp_page_size size <= 500.
Proof.
  unfold Fetcher.clamp_page_size, Fetcher.DEFAULT_PAGE_SIZE,
    Fetcher.MAX_PAGE_SIZE.
  destruct (size <=? 0) eqn:E1; [lia|].
  destruct (size >? 500) eqn:E2; [lia|].
  apply Z.leb_gt in E1. rewrite Z.gtb_ltb in E2. apply Z.ltb_ge in E2. lia.
Qed.

Lemma effective_page_size_range (page_size limit : Z) :
  1 <= effective_page_size page_size limit <= 500
  /\ (0 < limit -> effective_page_size page_size limit <= limit).
Proof.
  unfold effective_page_size.
  pose proof (clamp_page_size_range page_size) as Hc.
  destruct ((limit >? 0) && (limit <? Fetcher.clamp_page_size page_size))
    eqn:E.
  - apply andb_true_iff in E as [E1 E2]. rewrite Z.gtb_ltb in E1.
    apply Z.ltb_lt in E1, E2. lia.
  - split; [lia|]. intros Hl. apply andb_false_iff in E as [E|E].
    + rewrite Z.gtb_ltb in E. apply Z.ltb_ge in E. lia.
    + apply Z.ltb_ge in E. lia.
Qed.

Section ScanCalls.
Variable St : Type.
Variable send : St -> request -> pyresult response * St.
Variables (base_url token : pystr) (ref : BitableRef) (page_size limit : Z)
          (ignore_view : bool) (view_id : pystr) (filter_obj : option value)
          (max_pages : Z).

Lemma fetch_loop_chained fuel :
  forall items page_token pages (w w' : world St) r,
    Fetcher.fetch_loop St send base_url token ref page_size limit ignore_view
      view_id filter_obj max_pages fuel items page_token pages w
    = Some (r, w') ->
    exists delta,
      journal w' = journal w ++ delta
      /\ chained (page_request base_url token ref page_size ignore_view
                    view_id filter_obj) page_token delta.
Proof.
  induction fuel as [|fuel IH]; intros items page_token pages w w' r H;
    [discriminate|].
  simpl in H.
  destruct (Fetcher.search_query page_size page_token) as [qs|e] eqn:Eq.
  2:{ injection H as <- <-. exists []. now rewrite app_nil_r. }
  assert (Hreq : page_request base_url token ref page_size ignore_view view_id
                   filter_obj page_token
                 = Some (mkReq (txt "POST")
                           (Fetcher.search_url base_url ref qs) (Some token)
                           (Fetcher.search_body ignore_view view_id
                              filter_obj))).
  { unfold page_request. now rewrite Eq. }
  destruct (request_json send _ _ _ _ w) as [[resp|e] w1] eqn:Ereq.
  2:{ apply request_json_journal in Ereq. injection H as <- <-.
      eexists. split; [exact Ereq|]. simpl. auto. }
  apply request_json_journal in Ereq.
  assert (Hone : exists delta,
             journal w1 = journal w ++ delta
             /\ chained (page_request base_url token ref page_size ignore_view
                           view_id filter_obj) page_token delta).
  { eexists. split; [exact Ereq|]. simpl. auto. }
  destruct (code_not_zero resp); [injection H as <- <-; exact Hone|].
  destruct (_ && _); [injection H as <- <-; exact Hone|].
  destruct (_ && _); [injection H as <- <-; exact Hone|].
  destruct (negb _ || negb _); [injection H as <- <-; exact Hone|].
  apply IH in H as (delta & Hj & Hch).
  eexists (_ :: delta). split.
  - rewrite Hj, Ereq, <- app_assoc. reflexivity.
  - simpl. split; [exact Hreq|].
    replace (cursor_of resp)
      with (strip match data_page_token
                          match resp_data resp with
                          | Some d => d
                          | None => mkData None None None
                          end with
                  | Some t => t
                  | None => []
                  end); [exact Hch|].
    unfold cursor_of. now destruct (resp_data resp).
Qed.

End ScanCalls.

(** X25. The calls of a scan, however it ends: the first search carries no
    cursor, every later one the stripped cursor of the reply before it, all
    of them the same body and the same page size, and no call follows one
    that failed. The page size is the clamped one or a positive limit below
    it: between 1 and 500, and never above a positive limit. *)
Theorem fetch_records_calls :
  forall (St : Type) (send : St -> request -> pyresult response * St)
         (fuel : nat) (base_url token : pystr) (ref : BitableRef)
         (page_size limit : Z) (ignore_view : bool) (view_id : pystr)
         (filter_obj : option value) (max_pages : Z) (w w' : world St)
         (r : pyresult (list row * Fetcher.PageInfo)),
    Fetcher.fetch_records St send fuel base_url token ref page_size limit
      ignore_view view_id filter_obj max_pages w = Some (r, w') ->
    (exists delta,
        journal w' = journal w ++ delta
        /\ chained (page_request base_url token ref
                      (effective_page_size page_size limit) ignore_view
                      view_id filter_obj) [] delta)
    /\ 1 <= effective_page_size page_size limit <= 500
    /\ (0 < limit -> effective_page_size page_size limit <= limit).
Proof.
  intros St send fuel base_url token ref page_size limit ignore_view view_id
    filter_obj max_pages w w' r H.
  split; [|apply effective_page_size_range].
  unfold Fetcher.fetch_records in H. cbv zeta in H.
  fold (effective_page_size page_size limit) in H.
  destruct (Fetcher.fetch_loop _ _ _ _ _ _ _ _ _ _ _ _ _ _ _ _)
    as [[r0 w1]|] eqn:E; [|discriminate].
  apply fetch_loop_chained in E.
  destruct r0 as [[[rows cursor] pages]|e]; injection H as <- <-; exact E.
Qed.

(** The three-page store, scanned to the end. *)
Lemma fetch_records_calls_witness :
  (exists delta,
      journal (world_of (fresh tt) (scan_three_pages 5 0 0))
      = journal (fresh tt) ++ delta
      /\ chained (page_request (txt "https://x") (txt "t-abc") sample_ref
                    (effective_page_size 200 0) true [] None) [] delta)
  /\ 1 <= effective_page_size 200 0 <= 500
  /\ (0 < 0 -> effective_page_size 200 0 <= 0).
Proof.
  apply (fetch_records_calls unit three_pages 5 (txt "https://x")
           (txt "t-abc") sample_ref 200 0 true [] None 0 (fresh tt)
           (world_of (fresh tt) (scan_three_pages 5 0 0))
           (match scan_three_pages 5 0 0 with
            | Some (r, _) => r
            | None => Raise (mkExn BaseException [])
            end)).
  vm_compute. reflexivity.
Defined.

(* ===================================================================== *)
(** ** The search of the create script *)
(* ===================================================================== *)

(** X26. The search of the create script is one call and never follows a
    cursor: whatever the reply says of further pages, it sends exactly one
    POST with the clamped page size in its URL and the filter as its body
    (no body for an empty filter), and returns the rows of that reply; a
    reply with a code other than 0 is raised as a [RuntimeError] carrying
    code and message, an exception of the transport is passed on. *)
Theorem manager_search_is_one_call :
  forall (St : Type) (send : St -> request -> pyresult response * St)
         (clamp : Z -> Z) (base_url token : pystr) (ref : BitableRef)
         (filter_obj : option value) (page_size : Z) (w : world St),
    exists outcome,
      journal (snd (Manager.fetch_records St send clamp base_url token ref
                      filter_obj page_size w))
      = journal w
        ++ [(mkReq (txt "POST")
               (Manager.records_url base_url ref ++ txt "/search?page_size="
                ++ str_of_int (clamp page_size))
               (Some token)
               (match filter_obj with
                | Some f =>
                    if truthy f then Some (VDict [(txt "filter", f)]) else None
                | None => None
                end), outcome)]
      /\ fst (Manager.fetch_records St send clamp base_url token ref
                filter_obj page_size w)
         = match outcome with
           | Ok resp =>
               if code_not_zero resp then Raise (search_failed resp)
               else Ok (batch_of resp)
           | Raise e => Raise e
           end.
Proof.
  intros St send clamp base_url token ref filter_obj page_size w.
  unfold Manager.fetch_records, rbind. cbv zeta.
  destruct (request_json send _ _ _ _ w) as [[resp|e] w1] eqn:Ereq;
    apply request_json_journal in Ereq.
  - exists (Ok resp). unfold Manager.check_code.
    destruct (code_not_zero resp); cbn [fst snd throw ret].
    + split; [exact Ereq|reflexivity].
    + split; [exact Ereq|]. unfold batch_of. now destruct (resp_data resp).
  - exists (Raise e). cbn [fst snd]. split; [exact Ereq|reflexivity].
Qed.

(* ===================================================================== *)
(** ** The head of the fetch script *)
(* ===================================================================== *)

Section HeadFacts.
Variable St : Type.
Variable send_token : St -> request -> pyresult Fetcher.token_reply * St.
Variable send_node : St -> request -> pyresult Fetcher.node_reply * St.

Lemma tenant_token_usable base_url app_id app_secret (s s' : St) token :
  Fetcher.get_tenant_access_token St send_token base_url app_id app_secret s
  = (Ok token, s') ->
  token <> [] /\ strip token = token.
Proof.
  unfold Fetcher.get_tenant_access_token. cbv zeta.
  destruct (send_token s _) as [[resp|e] s1]; [|discriminate].
  destruct (Fetcher.not_zero _); [discriminate|].
  destruct (nonempty (strip _)) eqn:E; cbn [negb]; [|discriminate].
  intros H. injection H as <- <-.
  split; [now apply nonempty_true|apply strip_strip].
Qed.

Lemma wiki_app_token_usable base_url token wiki_token (s s' : St) app :
  Fetcher.resolve_wiki_app_token St send_node base_url token wiki_token s
  = (Ok app, s') ->
  app <> [] /\ strip app = app /\ strip wiki_token <> [].
Proof.
  unfold Fetcher.resolve_wiki_app_token. cbv zeta.
  destruct (nonempty (strip wiki_token)) eqn:Ew; cbn [negb]; [|discriminate].
  destruct (send_node s _) as [[resp|e] s1]; [|discriminate].
  destruct (Fetcher.not_zero _); [discriminate|].
  destruct (negb (str_eqb _ _)); [discriminate|].
  match goal with
  | |- context [negb (nonempty ?t)] => destruct (nonempty t) eqn:E
  end; cbn [negb]; [|discriminate].
  intros H. injection H as <- <-.
  split; [now apply nonempty_true|].
  split; [apply strip_strip|now apply nonempty_true].
Qed.

End HeadFacts.

Lemma parse_bitable_url_raises urlparse parse_qs raw e :
  Fetcher.parse_bitable_url urlparse parse_qs raw = Raise e ->
  exn_cls e = ValueError.
Proof.
  intros E. unfold Fetcher.parse_bitable_url in E. cbv zeta in E.
  destruct (negb (nonempty (strip raw))).
  { injection E as <-. reflexivity. }
  destruct (urlparse (strip raw)) as [[scheme path] query].
  destruct (negb (nonempty scheme)).
  { injection E as <-. reflexivity. }
  destruct (Fetcher.scan_segments _ _ _) as [a0 w0].
  destruct (negb (nonempty _)); [|discriminate].
  injection E as <-. reflexivity.
Qed.

Lemma not_zero_true (code : option Z) :
  code <> Some 0 -> Fetcher.not_zero code = true.
Proof.
  destruct code as [c|]; [|reflexivity]. intros H. simpl.
  destruct (c =? 0) eqn:E; [|reflexivity].
  apply Z.eqb_eq in E. subst c. now contradiction H.
Qed.

Section HeadRun.
Variable St : Type.
Variable send_token : St -> request -> pyresult Fetcher.token_reply * St.
Variable send_node : St -> request -> pyresult Fetcher.node_reply * St.
Variable urlparse : pystr -> pystr * pystr * pystr.
Variable parse_qs : pystr -> dict (list pystr).
Variable environ : dict pystr.
Variables args_task_url args_app args_scene args_status args_date : pystr.
Variable s : St.

Local Abbreviation run :=
  (Fetcher.main_head St send_token send_node urlparse parse_qs environ
     args_task_url args_app args_scene args_status args_date s).

(** The head up to the token call, once the URL and the credentials are
    there and the URL parses. *)
Lemma main_head_configured (ref : BitableRef) :
  configured urlparse parse_qs environ args_task_url ref ->
  run
  = (let fields := Fetcher.load_task_fields_from_env environ in
     let filter_obj :=
       Fetcher.build_filter fields args_app args_scene args_status args_date in
     match Fetcher.get_tenant_access_token St send_token
             (head_base_url environ) (head_app_id environ)
             (head_app_secret environ) s with
     | (Raise e, s1) => (Fetcher.exit2_on_runtime_error e, s1)
     | (Ok token, s1) =>
         if nonempty (app_token ref) then
           (Ok (Fetcher.Ready (head_base_url environ) ref token fields
                  filter_obj), s1)
         else if nonempty (wiki_token ref) then
           match Fetcher.resolve_wiki_app_token St send_node
                   (head_base_url environ) token (wiki_token ref) s1 with
           | (Raise e, s2) => (Fetcher.exit2_on_runtime_error e, s2)
           | (Ok app, s2) =>
               (Ok (Fetcher.Ready (head_base_url environ)
                      (with_app_token ref app) token fields filter_obj), s2)
           end
         else
           (Ok (Fetcher.HeadExit2
                  (txt "bitable URL missing app_token and wiki_token")), s1)
     end).
Proof.
  intros (Hu & Hid & Hsec & Hp).
  apply nonempty_true in Hu, Hid, Hsec.
  unfold head_app_id in Hid. unfold head_app_secret in Hsec.
  unfold Fetcher.main_head. cbv zeta.
  rewrite Hu, Hid, Hsec, Hp. reflexivity.
Qed.

(** The token call and what it leaves of the head. *)
Lemma token_call_run (o : pyresult Fetcher.token_reply) (s1 : St) :
  send_token s (token_request environ) = (o, s1) ->
  Fetcher.get_tenant_access_token St send_token (head_base_url environ)
    (head_app_id environ) (head_app_secret environ) s
  = (match o with
     | Raise e => Raise e
     | Ok resp =>
         if Fetcher.not_zero (Fetcher.token_code resp) then
           Raise (mkExn RuntimeError
                    (txt "tenant token error: code="
                     ++ fmt_int (Fetcher.token_code resp) ++ txt " msg="
                     ++ fmt_str (Fetcher.token_msg resp)))
         else if negb (nonempty (granted resp)) then
           raise RuntimeError "tenant token missing in response"
         else Ok (granted resp)
     end, s1).
Proof.
  intros H. unfold Fetcher.get_tenant_access_token. cbv zeta.
  unfold token_request in H. rewrite H.
  destruct o as [resp|e]; [|reflexivity].
  destruct (Fetcher.not_zero _); [reflexivity|].
  unfold granted. destruct (negb _); reflexivity.
Qed.

Lemma token_granted_run (ref : BitableRef) (s1 : St) (token : pystr) :
  token_granted St send_token urlparse parse_qs environ args_task_url s ref s1
    token ->
  configured urlparse parse_qs environ args_task_url ref
  /\ Fetcher.get_tenant_access_token St send_token (head_base_url environ)
       (head_app_id environ) (head_app_secret environ) s
     = (Ok token, s1).
Proof.
  intros (Hc & resp & Hsend & Hcode & -> & Hne). split; [exact Hc|].
  rewrite (token_call_run _ _ Hsend). cbv beta iota. rewrite Hcode.
  apply nonempty_true in Hne. rewrite Hne. reflexivity.
Qed.

(** The lookup of the wiki node and what it leaves of the head. *)
Lemma wiki_call_run (token wiki_token : pystr) (o : pyresult Fetcher.node_reply)
    (s1 s2 : St) :
  strip wiki_token <> [] ->
  send_node s1 (node_request environ token wiki_token) = (o, s2) ->
  Fetcher.resolve_wiki_app_token St send_node (head_base_url environ) token
    wiki_token s1
  = (match o with
     | Raise e => Raise e
     | Ok resp =>
         if Fetcher.not_zero (Fetcher.node_code resp) then
           Raise (mkExn RuntimeError
                    (txt "wiki node error: code="
                     ++ fmt_int (Fetcher.node_code resp) ++ txt " msg="
                     ++ fmt_str (Fetcher.node_msg resp)))
         else if negb (str_eqb (node_type resp) (txt "bitable")) then
           Raise (mkExn RuntimeError
                    (txt "wiki node obj_type is " ++ node_type resp
                     ++ txt ", not bitable"))
         else if negb (nonempty (node_token resp)) then
           raise RuntimeError "wiki node obj_token missing"
         else Ok (node_token resp)
     end, s2).
Proof.
  intros Hw H. apply nonempty_true in Hw.
  unfold Fetcher.resolve_wiki_app_token. cbv zeta. rewrite Hw. cbn [negb].
  unfold node_request in H. rewrite H.
  destruct o as [resp|e]; [|reflexivity].
  destruct (Fetcher.not_zero _); [reflexivity|].
  unfold node_type, node_token, node_of.
  destruct (Fetcher.node_reply_data resp) as [[[n|]]|]; cbn [Fetcher.node];
    (destruct (negb (str_eqb _ _)); [reflexivity|]);
    destruct (negb (nonempty _)); reflexivity.
Qed.

Lemma wiki_asked_run (ref : BitableRef) (s1 s2 : St) (token : pystr)
    (o : pyresult Fetcher.node_reply) :
  wiki_asked St send_token send_node urlparse parse_qs environ args_task_url s
    ref s1 s2 token o ->
  run
  = (match Fetcher.resolve_wiki_app_token St send_node (head_base_url environ)
             token (wiki_token ref) s1 with
     | (Raise e, s2) => (Fetcher.exit2_on_runtime_error e, s2)
     | (Ok app, s2) =>
         (goes_on environ args_app args_scene args_status args_date
            (with_app_token ref app) token, s2)
     end)
  /\ strip (wiki_token ref) <> []
  /\ send_node s1 (node_request environ token (wiki_token ref)) = (o, s2).
Proof.
  intros (Hg & Happ & Hw & Hsend).
  apply token_granted_run in Hg as [Hc Ht].
  split; [|split; [exact Hw|exact Hsend]].
  rewrite (main_head_configured ref Hc). cbv zeta. rewrite Ht, Happ.
  cbn [nonempty].
  assert (Hne : nonempty (wiki_token ref) = true).
  { apply nonempty_true. intros E. apply Hw. now rewrite E. }
  rewrite Hne. reflexivity.
Qed.

(** The head of the script ends as its rules say. *)
Lemma head_rules_obeyed (r : pyresult Fetcher.head_outcome * St) :
  head_rule St send_token send_node urlparse parse_qs environ args_task_url
    args_app args_scene args_status args_date s r ->
  run = r.
Proof.
  intros H. destruct H.
  - (* no URL *)
    unfold Fetcher.main_head. cbv zeta.
    match goal with H : strip _ = [] |- _ => rewrite H end. reflexivity.
  - (* no credentials *)
    unfold Fetcher.main_head. cbv zeta.
    match goal with H : strip _ <> [] |- _ => apply nonempty_true in H; rewrite H end.
    cbn [negb].
    match goal with
    | H : _ \/ _ |- _ =>
        unfold head_app_id, head_app_secret in H; destruct H as [E|E]; rewrite E
    end; cbn [nonempty negb orb]; [reflexivity|].
    now rewrite orb_true_r.
  - (* the URL does not parse *)
    unfold Fetcher.main_head. cbv zeta.
    repeat match goal with
           | H : _ <> [] |- _ => apply nonempty_true in H
           end.
    unfold head_app_id in *. unfold head_app_secret in *.
    match goal with H : nonempty (strip _) = true |- _ => rewrite H end.
    match goal with
    | H1 : nonempty (Fetcher.env _ (txt "FEISHU_APP_ID") _) = true,
      H2 : nonempty (Fetcher.env _ (txt "FEISHU_APP_SECRET") _) = true |- _ =>
        rewrite H1, H2
    end.
    cbn [negb orb].
    match goal with H : Fetcher.parse_bitable_url _ _ _ = _ |- _ => rewrite H end.
    reflexivity.
  - (* the token call failed with a RuntimeError *)
    rewrite (main_head_configured ref) by assumption. cbv zeta.
    erewrite token_call_run by eassumption. cbv beta iota.
    unfold Fetcher.exit2_on_runtime_error.
    match goal with H : is_subclass _ _ = _ |- _ => rewrite H end. reflexivity.
  - rewrite (main_head_configured ref) by assumption. cbv zeta.
    erewrite token_call_run by eassumption. cbv beta iota.
    unfold Fetcher.exit2_on_runtime_error.
    match goal with H : is_subclass _ _ = _ |- _ => rewrite H end. reflexivity.
  - (* the token call was refused *)
    rewrite (main_head_configured ref) by assumption. cbv zeta.
    erewrite token_call_run by eassumption. cbv beta iota.
    rewrite not_zero_true by assumption. reflexivity.
  - (* a blank token *)
    rewrite (main_head_configured ref) by assumption. cbv zeta.
    erewrite token_call_run by eassumption. cbv beta iota.
    match goal with H : Fetcher.token_code _ = _ |- _ => rewrite H end.
    match goal with H : granted _ = [] |- _ => rewrite H end. reflexivity.
  - (* ready, the app token of the URL *)
    match goal with H : token_granted _ _ _ _ _ _ _ _ _ _ |- _ =>
      apply token_granted_run in H as [Hc Ht] end.
    rewrite (main_head_configured ref Hc). cbv zeta. rewrite Ht.
    match goal with H : app_token _ <> [] |- _ =>
      apply nonempty_true in H; rewrite H end.
    reflexivity.
  - (* neither an app token nor a wiki token *)
    match goal with H : token_granted _ _ _ _ _ _ _ _ _ _ |- _ =>
      apply token_granted_run in H as [Hc Ht] end.
    rewrite (main_head_configured ref Hc). cbv zeta. rewrite Ht.
    match goal with H : app_token _ = [] |- _ => rewrite H end.
    match goal with H : wiki_token _ = [] |- _ => rewrite H end.
    reflexivity.
  - (* a blank wiki token *)
    match goal with H : token_granted _ _ _ _ _ _ _ _ _ _ |- _ =>
      apply token_granted_run in H as [Hc Ht] end.
    rewrite (main_head_configured ref Hc). cbv zeta. rewrite Ht.
    match goal with H : app_token _ = [] |- _ => rewrite H end.
    match goal with H : wiki_token _ <> [] |- _ =>
      apply nonempty_true in H; rewrite H end.
    cbn [nonempty]. unfold Fetcher.resolve_wiki_app_token. cbv zeta.
    match goal with H : strip _ = [] |- _ => rewrite H end. reflexivity.
  - (* the wiki call failed with a RuntimeError *)
    match goal with H : wiki_asked _ _ _ _ _ _ _ _ _ _ _ _ _ |- _ =>
      apply wiki_asked_run in H as (-> & Hw & Hsend) end.
    rewrite (wiki_call_run _ _ _ _ _ Hw Hsend). cbv beta iota.
    unfold Fetcher.exit2_on_runtime_error.
    match goal with H : is_subclass _ _ = _ |- _ => rewrite H end. reflexivity.
  - match goal with H : wiki_asked _ _ _ _ _ _ _ _ _ _ _ _ _ |- _ =>
      apply wiki_asked_run in H as (-> & Hw & Hsend) end.
    rewrite (wiki_call_run _ _ _ _ _ Hw Hsend). cbv beta iota.
    unfold Fetcher.exit2_on_runtime_error.
    match goal with H : is_subclass _ _ = _ |- _ => rewrite H end. reflexivity.
  - (* the wiki call was refused *)
    match goal with H : wiki_asked _ _ _ _ _ _ _ _ _ _ _ _ _ |- _ =>
      apply wiki_asked_run in H as (-> & Hw & Hsend) end.
    rewrite (wiki_call_run _ _ _ _ _ Hw Hsend). cbv beta iota.
    rewrite not_zero_true by assumption. reflexivity.
  - (* the node is not a bitable *)
    match goal with H : wiki_asked _ _ _ _ _ _ _ _ _ _ _ _ _ |- _ =>
      apply wiki_asked_run in H as (-> & Hw & Hsend) end.
    rewrite (wiki_call_run _ _ _ _ _ Hw Hsend). cbv beta iota.
    match goal with H : Fetcher.node_code _ = _ |- _ => rewrite H end.
    match goal with H : node_type _ <> _ |- _ =>
      apply str_eqb_neq in H; rewrite H end.
    reflexivity.
  - (* the node has no token *)
    match goal with H : wiki_asked _ _ _ _ _ _ _ _ _ _ _ _ _ |- _ =>
      apply wiki_asked_run in H as (-> & Hw & Hsend) end.
    rewrite (wiki_call_run _ _ _ _ _ Hw Hsend). cbv beta iota.
    match goal with H : Fetcher.node_code _ = _ |- _ => rewrite H end.
    match goal with H : node_type _ = _ |- _ => rewrite H end.
    match goal with H : node_token _ = [] |- _ => rewrite H end.
    reflexivity.
  - (* ready, the app token of the wiki node *)
    match goal with H : wiki_asked _ _ _ _ _ _ _ _ _ _ _ _ _ |- _ =>
      apply wiki_asked_run in H as (-> & Hw & Hsend) end.
    rewrite (wiki_call_run _ _ _ _ _ Hw Hsend). cbv beta iota.
    match goal with H : Fetcher.node_code _ = _ |- _ => rewrite H end.
    match goal with H : node_type _ = _ |- _ => rewrite H end.
    match goal with H : node_token _ <> [] |- _ =>
      apply nonempty_true in H; rewrite H end.
    reflexivity.
Qed.

End HeadRun.

(** What is known of the head whatever the replies: the reference and the
    token it goes on with are usable, and no [RuntimeError] leaves it. *)
Lemma main_head_ended :
  forall (St : Type)
         (send_token : St -> request -> pyresult Fetcher.token_reply * St)
         (send_node : St -> request -> pyresult Fetcher.node_reply * St)
         (urlparse : pystr -> pystr * pystr * pystr)
         (parse_qs : pystr -> dict (list pystr))
         (environ : dict pystr)
         (args_task_url args_app args_scene args_status args_date : pystr)
         (s : St),
    head_ended args_task_url
      (fst (Fetcher.main_head St send_token send_node urlparse parse_qs
              environ args_task_url args_app args_scene args_status args_date
              s)).
Proof.
  intros St send_token send_node urlparse parse_qs environ args_task_url
    args_app args_scene args_status args_date s.
  unfold Fetcher.main_head. cbv zeta.
  destruct (negb (nonempty (strip args_task_url))); [exact I|].
  destruct (negb _ || negb _); [exact I|].
  destruct (Fetcher.parse_bitable_url urlparse parse_qs (strip args_task_url))
    as [ref|e] eqn:Ep.
  2:{ apply parse_bitable_url_raises in Ep. cbn [fst head_ended].
      now rewrite Ep. }
  apply parse_bitable_url_ok in Ep. cbv zeta in Ep.
  destruct Ep as (Hraw & _ & Htable & _ & _ & _ & _).
  rewrite strip_strip in Hraw.
  assert (Hexit : forall e (s1 : St),
             head_ended args_task_url
               (fst (Fetcher.exit2_on_runtime_error e, s1))).
  { intros e s1. cbn [fst]. unfold Fetcher.exit2_on_runtime_error.
    destruct (is_subclass (exn_cls e) RuntimeError) eqn:Er; [exact I|exact Er]. }
  destruct (Fetcher.get_tenant_access_token St send_token _ _ _ s)
    as [[token|e] s1] eqn:Et; [|apply Hexit].
  apply tenant_token_usable in Et as [Htok Hstrip].
  destruct (nonempty (app_token ref)) eqn:Ea.
  { cbn [fst head_ended]. apply nonempty_true in Ea. auto. }
  destruct (nonempty (wiki_token ref)); [|exact I].
  destruct (Fetcher.resolve_wiki_app_token St send_node _ _ _ s1)
    as [[app|e] s2] eqn:Ew; [|apply Hexit].
  apply wiki_app_token_usable in Ew as (Happ & _ & _).
  cbn [fst head_ended raw_url app_token table_id]. auto.
Qed.

(** X27. The head of the fetch script, from the arguments and the
    environment to the scan. Whatever the replies, a reference and a token
    it goes on with are usable (the stripped task URL, an app token and a
    table id that are not empty, a stripped token that is not empty), and
    no [RuntimeError] leaves it. And it ends as its rules say, each with
    the state the service is left in. Before any call: a blank task URL
    and a missing app id or secret end it with exit code 2 and their
    message, and a URL that does not parse raises the [ValueError] of the
    parser. Then the token call: when it raises, a [RuntimeError] ends the
    script with exit code 2 and its message and any other exception leaves
    the script; a reply with a code other than 0, and one with a blank
    token, end it with exit code 2 and their message. With a token: an
    app token in the URL lets it go on with the parsed reference; neither
    an app token nor a wiki token, and a wiki token that is blank once
    stripped, end it with exit code 2. Otherwise the wiki node is looked
    up with the token: a call that raises is treated as the token call
    is; a reply with a code other than 0, a node whose stripped type is
    not [bitable], and a node with a blank token end the script with exit
    code 2 and their message; and a bitable node with a token lets it go
    on with that stripped token as the app token of the reference. *)
Theorem fetch_head_outcome :
  forall (St : Type)
         (send_token : St -> request -> pyresult Fetcher.token_reply * St)
         (send_node : St -> request -> pyresult Fetcher.node_reply * St)
         (urlparse : pystr -> pystr * pystr * pystr)
         (parse_qs : pystr -> dict (list pystr))
         (environ : dict pystr)
         (args_task_url args_app args_scene args_status args_date : pystr)
         (s : St),
    head_ended args_task_url
      (fst (Fetcher.main_head St send_token send_node urlparse parse_qs
              environ args_task_url args_app args_scene args_status args_date
              s))
    /\ (forall r : pyresult Fetcher.head_outcome * St,
          head_rule St send_token send_node urlparse parse_qs environ
            args_task_url args_app args_scene args_status args_date s r ->
          Fetcher.main_head St send_token send_node urlparse parse_qs
            environ args_task_url args_app args_scene args_status args_date s
          = r).
Proof.
  intros St send_token send_node urlparse parse_qs environ args_task_url
    args_app args_scene args_status args_date s.
  split; [apply main_head_ended|].
  intros r. apply head_rules_obeyed.
Qed.

(** A task URL that names a wiki node whose lookup gives a bitable: the
    script goes on, after the two calls, with the token of the node as app
    token. *)
Lemma fetch_head_outcome_witness :
  Fetcher.main_head nat grant_token bitable_node wiki_urlparse wiki_parse_qs
    wiki_environ (txt " https://x/wiki/WIKI9?table=T1 ") [] [] [] [] O
  = (goes_on wiki_environ [] [] [] []
       (with_app_token wiki_ref (txt "appX")) (txt "t-abc"), 2%nat).
Proof.
  apply (proj2 (fetch_head_outcome nat grant_token bitable_node wiki_urlparse
                  wiki_parse_qs wiki_environ
                  (txt " https://x/wiki/WIKI9?table=T1 ") [] [] [] [] O)).
  apply (head_ready_from_wiki nat grant_token bitable_node wiki_urlparse
           wiki_parse_qs wiki_environ (txt " https://x/wiki/WIKI9?table=T1 ")
           [] [] [] [] O wiki_ref 1%nat 2%nat (txt "t-abc")
           (Fetcher.mkNodeReply (Some 0) (Some (txt "success"))
              (Some (Fetcher.mkNodeData
                       (Some (Fetcher.mkNode (Some (txt "bitable"))
                                (Some (txt " appX ")))))))).
  - split; [|split; [reflexivity|split; [vm_compute; discriminate|reflexivity]]].
    split.
    + split; [vm_compute; discriminate|].
      split; [vm_compute; discriminate|].
      split; [vm_compute; discriminate|reflexivity].
    + exists (Fetcher.mkTokenReply (Some 0) (Some (txt "ok"))
                (Some (txt " t-abc "))).
      split; [reflexivity|]. split; [reflexivity|].
      split; [reflexivity|discriminate].
  - reflexivity.
  - reflexivity.
  - vm_compute. discriminate.
Defined.
